(** * Enzyme-module construction from text files

    A shallow embedding of [Module4_Kinetics/Part2_Exercise/enzyme_construction.py]
    and the properties its specification states about it.

    Text is modelled as [string] (sequences of 8-bit characters; the data
    files are ASCII).  Python dictionaries keep insertion order and the
    source iterates over them, so they are association lists.  The symbolic
    algebra and kinetics libraries the source calls ([sympy], [mass]) are
    interfaces where the source only passes their results on, and are
    modelled, for the calls whose failures and effects the source depends
    on, by what they do to the module.  Python's [re] is embedded as a
    backtracking matcher over the regular expressions the source uses. *)

From Stdlib Require Import String Ascii List ZArith Lia Bool Arith.
From Stdlib Require Import DecimalString.
From Stdlib Require Import Floats.SpecFloat.
From Stdlib Require Import Permutation Sorted.
Import ListNotations.

Local Open Scope string_scope.
Local Open Scope list_scope.

(* ===================================================================== *)
(** * Outcomes of Python code *)
(* ===================================================================== *)

(** The exceptions the embedded code can raise. *)
Inductive exn : Type :=
| KeyError (key : string)
| IndexError (msg : string)
| ValueError
| TypeError
| AttributeError.

(** A computation returns a value, raises, or leaves the fragment of
    Python's [re] syntax that this development interprets ([Beyond]): a
    pattern or replacement template built from data that contains
    regular-expression operators. *)
Inductive outcome (A : Type) : Type :=
| Ret (a : A)
| Raise (e : exn)
| Beyond.

Arguments Ret {A} a.
Arguments Raise {A} e.
Arguments Beyond {A}.

Definition bind {A B : Type} (o : outcome A) (f : A -> outcome B) : outcome B :=
  match o with
  | Ret a => f a
  | Raise e => Raise e
  | Beyond => Beyond
  end.

Declare Scope py_scope.
Delimit Scope py_scope with py.
Notation "x <- c1 ;; c2" := (bind c1 (fun x => c2))
  (at level 61, c1 at next level, right associativity) : py_scope.
Notation "' pat <- c1 ;; c2" := (bind c1 (fun x => match x with pat => c2 end))
  (at level 61, pat pattern, c1 at next level, right associativity) : py_scope.
Local Open Scope py_scope.

Definition raises {A : Type} (o : outcome A) : Prop :=
  exists e, o = Raise e.

Definition returns {A : Type} (o : outcome A) : Prop :=
  exists a, o = Ret a.

(** A run of code that changes an object in place: it ends normally or
    is stopped by an exception, and either way leaves the object in some
    state; [Outside] is [Beyond] for runs. *)
Inductive run (S : Type) : Type :=
| Done (s : S)
| Stopped (e : exn) (s : S)
| Outside.

Arguments Done {S} s.
Arguments Stopped {S} e s.
Arguments Outside {S}.

(** A computation made in the state [s]; an exception stops the run
    there. *)
Definition within {S A : Type} (s : S) (o : outcome A) (k : A -> run S) : run S :=
  match o with
  | Ret a => k a
  | Raise e => Stopped e s
  | Beyond => Outside
  end.

Definition then_run {S : Type} (r : run S) (k : S -> run S) : run S :=
  match r with
  | Done s => k s
  | Stopped e s => Stopped e s
  | Outside => Outside
  end.

Notation "x <-[ s ] c1 ;; c2" := (within s c1 (fun x => c2))
  (at level 61, c1 at next level, right associativity) : py_scope.

Definition stops {S : Type} (r : run S) : Prop :=
  exists e s, r = Stopped e s.

(** [for x in xs: acc = body(acc, x)], stopping at the first exception. *)
Fixpoint for_each {A S : Type} (body : S -> A -> outcome S) (xs : list A) (acc : S)
  : outcome S :=
  match xs with
  | [] => Ret acc
  | x :: xs' => acc' <- body acc x ;; for_each body xs' acc'
  end.

(** The same loop over a body that changes the state in place. *)
Fixpoint run_each {A S : Type} (body : S -> A -> run S) (xs : list A) (acc : S)
  : run S :=
  match xs with
  | [] => Done acc
  | x :: xs' => then_run (body acc x) (run_each body xs')
  end.

(* ===================================================================== *)
(** * Python strings *)
(* ===================================================================== *)

Module Str.

(** [str.isspace] on one ASCII character: TAB, LF, VT, FF, CR, FS, GS, RS,
    US and space. *)
Definition is_space (c : ascii) : bool :=
  let n := nat_of_ascii c in
  (((9 <=? n) && (n <=? 13)) || ((28 <=? n) && (n <=? 32)))%nat.

Definition is_digit (c : ascii) : bool :=
  let n := nat_of_ascii c in ((48 <=? n) && (n <=? 57))%nat.

Definition is_alpha (c : ascii) : bool :=
  let n := nat_of_ascii c in
  (((65 <=? n) && (n <=? 90)) || ((97 <=? n) && (n <=? 122)))%nat.

Definition is_alnum (c : ascii) : bool := is_digit c || is_alpha c.

(** [s.startswith(p)] *)
Fixpoint starts_with (p s : string) : bool :=
  match p with
  | EmptyString => true
  | String a p' =>
      match s with
      | EmptyString => false
      | String b s' => Ascii.eqb a b && starts_with p' s'
      end
  end.

(** [s[n:]] and [s[:n]] *)
Fixpoint drop (n : nat) (s : string) : string :=
  match n with
  | 0 => s
  | S k => match s with EmptyString => EmptyString | String _ s' => drop k s' end
  end.

Fixpoint take (n : nat) (s : string) : string :=
  match n with
  | 0 => EmptyString
  | S k => match s with
           | EmptyString => EmptyString
           | String c s' => String c (take k s')
           end
  end.

(** [sub in s] *)
Fixpoint contains (sub s : string) : bool :=
  starts_with sub s ||
  match s with
  | EmptyString => false
  | String _ s' => contains sub s'
  end.

(** [s.replace(old, new)]: every leftmost non-overlapping occurrence; an
    empty [old] matches before every character and at the end.  [skip]
    counts the characters of the occurrence just replaced that are still to
    be passed over. *)
Fixpoint replace_from (old new : string) (skip : nat) (s : string) : string :=
  match s with
  | EmptyString =>
      match skip, old with
      | 0, EmptyString => new
      | _, _ => EmptyString
      end
  | String c s' =>
      match skip with
      | S k => replace_from old new k s'
      | 0 =>
          if starts_with old s then
            match String.length old with
            | 0 => new ++ String c (replace_from old new 0 s')
            | S k => new ++ replace_from old new k s'
            end
          else String c (replace_from old new 0 s')
      end
  end.

Definition replace (old new s : string) : string := replace_from old new 0 s.

(** [s.split(sep)] for a non-empty separator (the source only splits on
    non-empty constants). *)
Fixpoint split_from (sep : string) (skip : nat) (s : string) : list string :=
  match s with
  | EmptyString => [EmptyString]
  | String c s' =>
      match skip with
      | S k => split_from sep k s'
      | 0 =>
          if starts_with sep s then
            EmptyString :: split_from sep (String.length sep - 1) s'
          else
            match split_from sep 0 s' with
            | h :: t => String c h :: t
            | [] => [String c EmptyString]
            end
      end
  end.

Definition split (sep s : string) : list string := split_from sep 0 s.

(** [s.lstrip(chars)], [s.rstrip(chars)] with the set of characters given
    as a predicate; [s.strip()] uses [is_space]. *)
Fixpoint lstrip_by (p : ascii -> bool) (s : string) : string :=
  match s with
  | EmptyString => EmptyString
  | String c s' => if p c then lstrip_by p s' else s
  end.

Fixpoint rstrip_by (p : ascii -> bool) (s : string) : string :=
  match s with
  | EmptyString => EmptyString
  | String c s' =>
      match rstrip_by p s' with
      | EmptyString => if p c then EmptyString else String c EmptyString
      | r => String c r
      end
  end.

Definition strip (s : string) : string := rstrip_by is_space (lstrip_by is_space s).

(** [str(n)] for a non-negative integer. *)
Definition of_nat (n : nat) : string := NilEmpty.string_of_uint (Nat.to_uint n).

End Str.

(* ===================================================================== *)
(** * Dictionaries and lists *)
(* ===================================================================== *)

(** A [dict] with string keys, in insertion order. *)
Definition dict (V : Type) : Type := list (string * V).

Module Dict.

Fixpoint get {V : Type} (d : dict V) (k : string) : option V :=
  match d with
  | [] => None
  | (k', v) :: d' => if String.eqb k k' then Some v else get d' k
  end.

(** [d[k] = v]: an existing key keeps its position, a new key goes last. *)
Fixpoint set {V : Type} (d : dict V) (k : string) (v : V) : dict V :=
  match d with
  | [] => [(k, v)]
  | (k', v') :: d' =>
      if String.eqb k k' then (k', v) :: d' else (k', v') :: set d' k v
  end.

(** [d[k]], raising [KeyError]. *)
Definition item {V : Type} (d : dict V) (k : string) : outcome V :=
  match get d k with
  | Some v => Ret v
  | None => Raise (KeyError k)
  end.

End Dict.

(** [l[i]] for a Python list and a (possibly negative) integer index. *)
Definition py_index {A : Type} (l : list A) (i : Z) : outcome A :=
  let n := Z.of_nat (List.length l) in
  let j := if (i <? 0)%Z then (i + n)%Z else i in
  if ((j <? 0) || (n <=? j))%Z then Raise (IndexError "list index out of range")
  else match nth_error l (Z.to_nat j) with
       | Some x => Ret x
       | None => Raise (IndexError "list index out of range")
       end.

(* ===================================================================== *)
(** * Regular expressions *)
(* ===================================================================== *)

(** The part of Python's [re] that the source relies on: literal
    characters, the classes [\d], [\s], [\S] and [[A-Za-z]], a greedy star
    over a class, concatenation, alternation, numbered groups, [^] and [\Z].
    Matching is by backtracking, leftmost alternative and longest
    repetition first, as in [sre]. *)
Module Re.

Inductive cclass : Type :=
| Digit        (* \d *)
| Space        (* \s *)
| NonSpace     (* \S *)
| Alpha.       (* [A-Za-z] *)

Definition in_class (k : cclass) (a : ascii) : bool :=
  match k with
  | Digit => Str.is_digit a
  | Space => Str.is_space a
  | NonSpace => negb (Str.is_space a)
  | Alpha => Str.is_alpha a
  end.

Inductive regex : Type :=
| Eps
| Chr (a : ascii)
| Cls (k : cclass)
| Rep (k : cclass)            (* k* , greedy *)
| Cat (r1 r2 : regex)
| Alt (r1 r2 : regex)
| Grp (n : nat) (r : regex)   (* the n-th parenthesised group *)
| Bol                         (* ^ *)
| EndZ.                       (* \Z *)

(** Text captured by each group, most recent first. *)
Definition captures : Type := list (nat * string).

Fixpoint group (cs : captures) (n : nat) : string :=
  match cs with
  | [] => EmptyString
  | (m, t) :: cs' => if Nat.eqb n m then t else group cs' n
  end.

(** Greedy repetition of a class: consume the longest run, then give
    characters back one at a time while the continuation fails. *)
Fixpoint run_rep {R : Type} (p : ascii -> bool) (s : string)
  (k : string -> option R) : option R :=
  match s with
  | EmptyString => k EmptyString
  | String a s' =>
      if p a then
        match run_rep p s' k with
        | Some x => Some x
        | None => k s
        end
      else k s
  end.

(** [run r n0 s cs k]: match [r] at the front of [s] (a suffix of a
    subject of length [n0]) and pass what is left to [k]; [None] when every
    alternative fails. *)
Fixpoint run {R : Type} (r : regex) (n0 : nat) (s : string) (cs : captures)
  (k : string -> captures -> option R) : option R :=
  match r with
  | Eps => k s cs
  | Chr a =>
      match s with
      | String b s' => if Ascii.eqb a b then k s' cs else None
      | EmptyString => None
      end
  | Cls c =>
      match s with
      | String b s' => if in_class c b then k s' cs else None
      | EmptyString => None
      end
  | Rep c => run_rep (in_class c) s (fun s' => k s' cs)
  | Cat r1 r2 => run r1 n0 s cs (fun s1 cs1 => run r2 n0 s1 cs1 k)
  | Alt r1 r2 =>
      match run r1 n0 s cs k with
      | Some x => Some x
      | None => run r2 n0 s cs k
      end
  | Grp n r1 =>
      run r1 n0 s cs
        (fun s1 cs1 =>
           k s1 ((n, Str.take (String.length s - String.length s1) s) :: cs1))
  | Bol => if Nat.eqb (String.length s) n0 then k s cs else None
  | EndZ => match s with EmptyString => k s cs | _ => None end
  end.

(** One match attempt at the front of [s]: the length matched and the
    groups.  With [advance], an empty match is refused and the matcher
    backtracks (what [sre] does right after an empty match). *)
Definition match_at (r : regex) (n0 : nat) (advance : bool) (s : string)
  : option (nat * captures) :=
  run r n0 s []
    (fun rest cs =>
       let len := String.length s - String.length rest in
       if advance && Nat.eqb len 0 then None else Some (len, cs)).

(** [pattern.match(s)] *)
Definition match_ (r : regex) (s : string) : option (nat * captures) :=
  match_at r (String.length s) false s.

(** [pattern.search(s)]: the first position with a match. *)
Fixpoint search_from (r : regex) (n0 : nat) (s : string) : option captures :=
  match match_at r n0 false s with
  | Some (_, cs) => Some cs
  | None =>
      match s with
      | EmptyString => None
      | String _ s' => search_from r n0 s'
      end
  end.

Definition search (r : regex) (s : string) : option captures :=
  search_from r (String.length s) s.

(** The subject cut into unmatched characters and matches, left to
    right, as [finditer], [sub] and [split] all traverse it. *)
Inductive piece : Type :=
| Lit (c : ascii)
| Hit (text : string) (cs : captures).

Definition exhausted (cnt : option nat) : bool :=
  match cnt with Some 0 => true | _ => false end.

Definition spend (cnt : option nat) : option nat :=
  match cnt with Some n => Some (Nat.pred n) | None => None end.

(** [cnt] is the number of matches still allowed ([None]: no limit);
    [skip] the characters of the current match still to pass over. *)
Fixpoint scan (r : regex) (n0 : nat) (cnt : option nat) (skip : nat) (s : string)
  : list piece :=
  match s with
  | EmptyString =>
      match skip with
      | S _ => []
      | 0 =>
          if exhausted cnt then []
          else match match_at r n0 false EmptyString with
               | Some (_, cs) => [Hit EmptyString cs]
               | None => []
               end
      end
  | String c s' =>
      match skip with
      | S k => scan r n0 cnt k s'
      | 0 =>
          if exhausted cnt then Lit c :: scan r n0 cnt 0 s'
          else
            match match_at r n0 false s with
            | None => Lit c :: scan r n0 cnt 0 s'
            | Some (S l, cs) =>
                Hit (Str.take (S l) s) cs :: scan r n0 (spend cnt) l s'
            | Some (0, cs) =>
                Hit EmptyString cs ::
                (if exhausted (spend cnt) then Lit c :: scan r n0 (spend cnt) 0 s'
                 else
                   match match_at r n0 true s with
                   | Some (S l, cs') =>
                       Hit (Str.take (S l) s) cs'
                       :: scan r n0 (spend (spend cnt)) l s'
                   | _ => Lit c :: scan r n0 (spend cnt) 0 s'
                   end)
            end
      end
  end.

Definition pieces (r : regex) (cnt : option nat) (s : string) : list piece :=
  scan r (String.length s) cnt 0 s.

(** [pattern.findall(s)] for a pattern with exactly one group: the text
    of group 1 of every match. *)
Fixpoint groups1 (ps : list piece) : list string :=
  match ps with
  | [] => []
  | Lit _ :: ps' => groups1 ps'
  | Hit _ cs :: ps' => group cs 1 :: groups1 ps'
  end.

Definition findall1 (r : regex) (s : string) : list string :=
  groups1 (pieces r None s).

(** Every match replaced by the fixed text [new]. *)
Fixpoint fill (new : string) (ps : list piece) : string :=
  match ps with
  | [] => EmptyString
  | Lit c :: ps' => String c (fill new ps')
  | Hit _ _ :: ps' => new ++ fill new ps'
  end.

(** [re.sub(pattern, lambda match: new, s, count)] *)
Definition sub_fn (r : regex) (new : string) (cnt : option nat) (s : string) : string :=
  fill new (pieces r cnt s).

(** A replacement template without a backslash stands for itself; one
    with a backslash (group references, escapes) is outside the fragment. *)
Definition template (repl : string) : outcome string :=
  if Str.contains "\" repl then Beyond else Ret repl.

(** [re.sub(pattern, repl, s, count)] with a string template. *)
Definition sub (r : regex) (repl : string) (cnt : option nat) (s : string)
  : outcome string :=
  new <- template repl ;; Ret (sub_fn r new cnt s).

(** [pattern.split(s)] for a pattern without groups. *)
Fixpoint cut (ps : list piece) : list string :=
  match ps with
  | [] => [EmptyString]
  | Lit c :: ps' =>
      match cut ps' with
      | h :: t => String c h :: t
      | [] => [String c EmptyString]
      end
  | Hit _ _ :: ps' => EmptyString :: cut ps'
  end.

Definition split (r : regex) (s : string) : list string :=
  cut (pieces r None s).

(** ** Patterns built from data *)

(** The regular expression matching exactly the text [p]. *)
Fixpoint lit (p : string) : regex :=
  match p with
  | EmptyString => Eps
  | String a p' => Cat (Chr a) (lit p')
  end.

(** Characters that are operators of the pattern syntax when not escaped
    ([]] and [}] on their own are ordinary). *)
Definition is_meta (c : ascii) : bool :=
  Str.contains (String c EmptyString) ".^$*+?{[\|()".

(** The text matched by a pattern made only of ordinary characters and of
    backslash-escaped non-alphanumeric characters, if the pattern is of
    that kind. *)
Fixpoint literal_text (p : string) : option string :=
  match p with
  | EmptyString => Some EmptyString
  | String c p' =>
      if Ascii.eqb c "\" then
        match p' with
        | String d p'' =>
            if Str.is_alnum d then None
            else option_map (String d) (literal_text p'')
        | EmptyString => None
        end
      else if is_meta c then None
      else option_map (String c) (literal_text p')
  end.

(** [re.compile(p)] on that fragment. *)
Definition compile (p : string) : outcome regex :=
  match literal_text p with
  | Some t => Ret (lit t)
  | None => Beyond
  end.

End Re.

(* ===================================================================== *)
(** * Python floats *)
(* ===================================================================== *)

(** Python's [float] is IEEE 754 binary64, modelled by [spec_float] with
    precision 53 and maximal exponent 1024. *)
Module PyFloat.

Definition prec : Z := 53.
Definition emax : Z := 1024.

Definition float : Type := spec_float.

Definition mul (x y : float) : float := SFmul prec emax x y.
Definition abs (x : float) : float := SFabs x.
Definition leb (x y : float) : bool := SFleb x y.
Definition ltb (x y : float) : bool := SFltb x y.

(** The float nearest to an integer ([float(n)]). *)
Definition of_Z (n : Z) : float := binary_normalize prec emax n 0 false.

(** The float nearest (ties to even) to [m * 10^e], for [m > 0]. *)
Definition of_decimal (neg : bool) (m : positive) (e : Z) : float :=
  match e with
  | Zneg k =>
      let d := Z.pow_pos 10 k in
      let sh := Z.max 0 (Zdigits2 d + 55 - Zdigits2 (Zpos m)) in
      let '(q, r) := Z.div_eucl (Z.shiftl (Zpos m) sh) d in
      binary_round_aux prec emax neg q (- sh) (new_location d r)
  | _ => binary_round prec emax neg (Pos.mul m (Z.to_pos (10 ^ e))) 0
  end.

(** *** [float(text)] *)

Definition digit_val (c : ascii) : Z := Z.of_nat (nat_of_ascii c - 48).

(** A run of digits in which single underscores may separate digits:
    the value read so far, the number of digits, and the text left. *)
Fixpoint digits_more (s : string) (acc : Z) (n : nat) : Z * nat * string :=
  match s with
  | String c s' =>
      if Str.is_digit c then digits_more s' (10 * acc + digit_val c) (S n)
      else if Ascii.eqb c "_" then
        match s' with
        | String d s'' =>
            if Str.is_digit d then digits_more s'' (10 * acc + digit_val d) (S n)
            else (acc, n, s)
        | EmptyString => (acc, n, s)
        end
      else (acc, n, s)
  | EmptyString => (acc, n, s)
  end.

Definition digitpart (s : string) (acc : Z) : Z * nat * string :=
  match s with
  | String c s' =>
      if Str.is_digit c then digits_more s' (10 * acc + digit_val c) 1
      else (acc, 0, s)
  | EmptyString => (acc, 0, s)
  end.

Definition sign_of (s : string) : bool * string :=
  match s with
  | String "-" s' => (true, s')
  | String "+" s' => (false, s')
  | _ => (false, s)
  end.

Definition lower (c : ascii) : ascii :=
  let n := nat_of_ascii c in
  if ((65 <=? n) && (n <=? 90))%nat then ascii_of_nat (n + 32) else c.

Fixpoint lowercase (s : string) : string :=
  match s with
  | EmptyString => EmptyString
  | String c s' => String (lower c) (lowercase s')
  end.

(** The exponent part: nothing, or [e]/[E], an optional sign and digits
    up to the end of the text. *)
Definition exponent (s : string) : option Z :=
  match s with
  | EmptyString => Some 0%Z
  | String c s' =>
      if Ascii.eqb (lower c) "e" then
        let '(neg, s1) := sign_of s' in
        match digitpart s1 0 with
        | (_, 0, _) => None
        | (v, _, EmptyString) => Some (if neg then (- v)%Z else v)
        | _ => None
        end
      else None
  end.

(** Around the number [float] passes over the white space of C only
    (TAB, LF, VT, FF, CR and space) when the text is ASCII. *)
Definition is_c_space (c : ascii) : bool :=
  let n := nat_of_ascii c in
  (((9 <=? n) && (n <=? 13)) || (n =? 32))%nat.

(** [float(text)]: [None] stands for [ValueError]. *)
Definition parse (text : string) : option float :=
  let '(neg, s) :=
    sign_of (Str.rstrip_by is_c_space (Str.lstrip_by is_c_space text)) in
  let w := lowercase s in
  if String.eqb w "inf" || String.eqb w "infinity" then Some (S754_infinity neg)
  else if String.eqb w "nan" then Some S754_nan
  else
    let '(i, ni, s1) := digitpart s 0 in
    let '(m, nf, s2) :=
      match s1 with
      | String "." s1' => digitpart s1' i
      | _ => (i, 0, s1)
      end in
    match ni + nf with
    | 0 => None
    | _ =>
        match exponent s2 with
        | None => None
        | Some e =>
            Some match m with
                 | Zpos p => of_decimal neg p (e - Z.of_nat nf)
                 | _ => S754_zero neg
                 end
        end
    end.

Definition of_string (text : string) : outcome float :=
  match parse text with
  | Some x => Ret x
  | None => Raise ValueError
  end.

End PyFloat.

(* ===================================================================== *)
(** * The enzyme module and its objects *)
(* ===================================================================== *)

(** A Python number stored on an object: [specie.ic] is the integer [0]
    after clamping and a float otherwise. *)
Inductive pynum : Type :=
| PyInt (z : Z)
| PyFloat (x : PyFloat.float).

(** The compartment of a metabolite.  [metabolites_from_txt] passes on
    the value bound to its variable [compartment]: the list returned by
    [findall], or the single string popped from it.  A metabolite that
    the library makes for itself has none ([None]). *)
Inductive compartment : Type :=
| CList (l : list string)
| CStr (c : string)
| CNone.

(** [MassMetabolite] and [EnzymeModuleForm] objects. *)
Record Specie : Type := {
  sp_id : string;
  sp_compartment : compartment;
  sp_is_form : bool;                 (* an EnzymeModuleForm *)
  sp_bound_metabolites : dict nat;   (* _bound_metabolites *)
  sp_ic : option pynum               (* initial concentration *)
}.

(** [EnzymeModuleReaction] objects: the identifier and the participants
    built from the reaction string, with their signs. *)
Record Reaction : Type := {
  r_id : string;
  r_participants : list (string * Z)
}.

(** A custom rate law: the equation text and its custom parameters. *)
Record CustomRate : Type := {
  cr_equation : string;
  cr_parameters : dict (option PyFloat.float)
}.

Record EnzymeModule : Type := {
  em_id : string;                          (* enzyme_module.id *)
  em_id_map : dict (dict string);          (* the temporary id_map *)
  em_metabolites : list Specie;
  em_reactions : list Reaction;
  em_custom_rates : dict CustomRate;       (* by reaction identifier *)
  em_parameters : dict PyFloat.float;      (* values set by update_parameters *)
  em_enzyme_concentration_total : option PyFloat.float
}.

Definition with_id_map (em : EnzymeModule) (m : dict (dict string)) : EnzymeModule :=
  {| em_id := em_id em; em_id_map := m;
     em_metabolites := em_metabolites em; em_reactions := em_reactions em;
     em_custom_rates := em_custom_rates em; em_parameters := em_parameters em;
     em_enzyme_concentration_total := em_enzyme_concentration_total em |}.

Definition with_metabolites (em : EnzymeModule) (l : list Specie) : EnzymeModule :=
  {| em_id := em_id em;
     em_id_map := em_id_map em;
     em_metabolites := l; em_reactions := em_reactions em;
     em_custom_rates := em_custom_rates em; em_parameters := em_parameters em;
     em_enzyme_concentration_total := em_enzyme_concentration_total em |}.

Definition with_reactions (em : EnzymeModule) (l : list Reaction) : EnzymeModule :=
  {| em_id := em_id em;
     em_id_map := em_id_map em;
     em_metabolites := em_metabolites em; em_reactions := l;
     em_custom_rates := em_custom_rates em; em_parameters := em_parameters em;
     em_enzyme_concentration_total := em_enzyme_concentration_total em |}.

Definition with_custom_rates (em : EnzymeModule) (d : dict CustomRate) : EnzymeModule :=
  {| em_id := em_id em;
     em_id_map := em_id_map em;
     em_metabolites := em_metabolites em; em_reactions := em_reactions em;
     em_custom_rates := d; em_parameters := em_parameters em;
     em_enzyme_concentration_total := em_enzyme_concentration_total em |}.

Definition with_parameters (em : EnzymeModule) (d : dict PyFloat.float) : EnzymeModule :=
  {| em_id := em_id em;
     em_id_map := em_id_map em;
     em_metabolites := em_metabolites em; em_reactions := em_reactions em;
     em_custom_rates := em_custom_rates em; em_parameters := d;
     em_enzyme_concentration_total := em_enzyme_concentration_total em |}.

(** [EnzymeModule(enzyme_id)] followed by [enzyme_module.id_map = {}]. *)
Definition new_module (enzyme_id : string) : EnzymeModule :=
  {| em_id := enzyme_id; em_id_map := [];
     em_metabolites := []; em_reactions := []; em_custom_rates := [];
     em_parameters := []; em_enzyme_concentration_total := None |}.

(** The library's name of the total-enzyme symbol of a module. *)
Definition enzyme_total_symbol_str (em : EnzymeModule) : string :=
  em_id em ++ "_Total".

(** [DictList.get_by_id] *)
Fixpoint get_by_id (rs : list Reaction) (id : string) : outcome Reaction :=
  match rs with
  | [] => Raise (KeyError id)
  | r :: rs' => if String.eqb (r_id r) id then Ret r else get_by_id rs' id
  end.

Definition has_specie (l : list Specie) (id : string) : bool :=
  existsb (fun s => String.eqb (sp_id s) id) l.

Definition has_reaction (l : list Reaction) (id : string) : bool :=
  existsb (fun r => String.eqb (r_id r) id) l.

(** An identifier the library accepts for an object it adds: not empty
    and without white space. *)
Definition valid_id (id : string) : bool :=
  negb (String.eqb id "")
  && negb (existsb Str.is_space (list_ascii_of_string id)).

(** No two objects of the list bear one identifier. *)
Fixpoint distinct_ids (l : list Specie) : bool :=
  match l with
  | [] => true
  | s :: l' => negb (has_specie l' (sp_id s)) && distinct_ids l'
  end.

(** The objects of a list that the module does not hold yet. *)
Definition fresh_species (em : EnzymeModule) (species : list Specie) : list Specie :=
  filter (fun s => negb (has_specie (em_metabolites em) (sp_id s))) species.

(** [enzyme_module.add_metabolites(species)]: objects whose identifier the
    module already holds are left out; the library raises a ValueError
    when one of the others has an empty identifier or an identifier with
    white space, or when two of them bear one identifier. *)
Definition add_metabolites (em : EnzymeModule) (species : list Specie)
  : outcome EnzymeModule :=
  let fresh := fresh_species em species in
  if forallb (fun s => valid_id (sp_id s)) fresh && distinct_ids fresh
  then Ret (with_metabolites em (em_metabolites em ++ fresh))
  else Raise ValueError.

(** [enzyme_module.compartments]: the library reads the compartments off
    the metabolites, as the keys of a dictionary filled in their order;
    a metabolite without compartment is passed over, and a list is no key
    (it cannot be hashed: TypeError). *)
Fixpoint compartments_of (l : list Specie) (seen : list string)
  : outcome (list string) :=
  match l with
  | [] => Ret seen
  | s :: l' =>
      match sp_compartment s with
      | CNone => compartments_of l' seen
      | CStr c =>
          compartments_of l' (if existsb (String.eqb c) seen then seen else seen ++ [c])
      | CList _ => Raise TypeError
      end
  end.

Definition compartments (em : EnzymeModule) : outcome (list string) :=
  compartments_of (em_metabolites em) [].

(** [enzyme_module.add_reactions([reaction])]: a reaction whose
    identifier the module already holds is left out. *)
Definition add_reaction (em : EnzymeModule) (r : Reaction) : EnzymeModule :=
  if has_reaction (em_reactions em) (r_id r) then em
  else with_reactions em (em_reactions em ++ [r]).

(** The reaction object is shared with the module: what
    [build_reaction_from_string] adds to it is seen through the module. *)
Fixpoint set_participants (rs : list Reaction) (id : string) (ps : list (string * Z))
  : list Reaction :=
  match rs with
  | [] => []
  | r :: rs' =>
      if String.eqb (r_id r) id then {| r_id := id; r_participants := ps |} :: rs'
      else r :: set_participants rs' id ps
  end.

(* ===================================================================== *)
(** * The pre-compiled patterns and [prefix_number_id] *)
(* ===================================================================== *)

(** [compartment_finder_re]: optional white space, an opening bracket,
    one letter (group 1) and a closing bracket. *)
Definition compartment_finder_re : Re.regex :=
  Re.Cat (Re.Rep Re.Space)
    (Re.Cat (Re.Chr "[") (Re.Cat (Re.Grp 1 (Re.Cls Re.Alpha)) (Re.Chr "]"))).

(** [rateconst_re]: the characters k and _, a greedy run of non-space
    characters (group 1), an underscore, fwd or rev (group 2), and the end
    of the text. *)
Definition rateconst_re : Re.regex :=
  Re.Cat (Re.Chr "k") (Re.Cat (Re.Chr "_")
    (Re.Cat (Re.Grp 1 (Re.Rep Re.NonSpace))
       (Re.Cat (Re.Chr "_")
          (Re.Cat (Re.Grp 2 (Re.Alt (Re.lit "fwd") (Re.lit "rev"))) Re.EndZ)))).

(** [bound_metabolites_re]: one of the characters &, @ and #. *)
Definition bound_metabolites_re : Re.regex :=
  Re.Alt (Re.Chr "&") (Re.Alt (Re.Chr "@") (Re.Chr "#")).

(** The pattern of [prefix_number_id]: a digit at the start of the text. *)
Definition leading_digit_re : Re.regex := Re.Cat Re.Bol (Re.Cls Re.Digit).

(** The pattern of [reactions_from_txt] for the placeholder: a dollar sign. *)
Definition dollar_re : Re.regex := Re.Chr "$".

(** Prefix identifiers that start with numbers. *)
Definition prefix_number_id (id_str : string) : string :=
  match Re.match_ leading_digit_re id_str with
  | Some _ => "_" ++ id_str
  | None => id_str
  end.

(* ===================================================================== *)
(** * [metabolites_from_txt] *)
(* ===================================================================== *)

Definition str_in (x : string) (l : list string) : bool :=
  existsb (String.eqb x) l.

(** [l.pop(l.index(x))] for an [x] that is in [l]: what is left of [l]. *)
Fixpoint remove_first (x : string) (l : list string) : list string :=
  match l with
  | [] => []
  | y :: l' => if String.eqb x y then l' else y :: remove_first x l'
  end.

(** The stereo-isomer letter chosen among the bracketed letters found. *)
Definition isomer_of (found : list string) : option string :=
  if str_in "D" found then Some "D"
  else if str_in "L" found then Some "L"
  else None.

(** Correct isomer in ID: the identifier with the isomer spliced in and
    the bracketed letters that remain. *)
Definition correct_isomer (orig_id : string) : outcome (string * list string) :=
  let found := Re.findall1 compartment_finder_re orig_id in
  match isomer_of found with
  | Some isomer =>
      r <- Re.compile ("\[" ++ isomer ++ "\]")%string ;;
      new_id <- Re.sub r ("_" ++ isomer)%string None orig_id ;;
      Ret (new_id, remove_first isomer found)
  | None => Ret (orig_id, found)
  end.

(** One compartment remaining indicates compartment for specie. *)
Definition correct_compartment (new_id : string) (remaining : list string)
  : outcome (string * compartment) :=
  match remaining with
  | [c] =>
      new_id' <- Re.sub compartment_finder_re ("_" ++ c)%string None new_id ;;
      Ret (new_id', CStr c)
  | _ => Ret (new_id, CList remaining)
  end.

(** The identifier corrections of one species line, up to and including
    [prefix_number_id]. *)
Definition normalize_id (orig_id : string) : outcome (string * compartment) :=
  '(id1, remaining) <- correct_isomer orig_id ;;
  '(id2, comp) <- correct_compartment id1 remaining ;;
  Ret (prefix_number_id id2, comp).

(** [if compartment is not None: bound_specie_id += "_" + compartment]:
    a string can only be concatenated with a string. *)
Definition add_compartment (bound_specie_id : string) (comp : compartment)
  : outcome string :=
  match comp with
  | CStr c => Ret (bound_specie_id ++ "_" ++ c)%string
  | CList _ => Raise TypeError
  | CNone => Ret bound_specie_id
  end.

Definition count_bound (bound : dict nat) (id : string) : dict nat :=
  match Dict.get bound id with
  | Some n => Dict.set bound id (S n)
  | None => Dict.set bound id 1
  end.

(** Correct IDs on bound species and store number bound. *)
Definition bound_step (comp : compartment) (bound : dict nat) (fragment : string)
  : outcome (dict nat) :=
  b <- add_compartment fragment comp ;;
  Ret (count_bound bound (prefix_number_id b)).

Definition is_form_id (enzyme_id new_id : string) : bool :=
  Str.starts_with ("E_" ++ enzyme_id)%string new_id.

Definition has_bound (new_id : string) : bool :=
  match Re.search bound_metabolites_re new_id with
  | Some _ => true
  | None => false
  end.

(** The body of the loop over the species lines: the object created and
    the pair recorded in the identifier map. *)
Definition make_specie (enzyme_id orig_id : string) : outcome (Specie * string) :=
  '(new_id, comp) <- normalize_id orig_id ;;
  if is_form_id enzyme_id new_id then
    '(bound, form_id) <-
      (if has_bound new_id then
         bound <- for_each (bound_step comp)
                    (tl (Re.split bound_metabolites_re new_id)) [] ;;
         form_id <- Re.sub bound_metabolites_re "_" None new_id ;;
         Ret (bound, form_id)
       else Ret ([], new_id)) ;;
    Ret ({| sp_id := form_id; sp_compartment := comp; sp_is_form := true;
            sp_bound_metabolites := bound; sp_ic := None |}, form_id)
  else
    Ret ({| sp_id := new_id; sp_compartment := comp; sp_is_form := false;
            sp_bound_metabolites := []; sp_ic := None |}, new_id).

Definition species_step (enzyme_id : string) (acc : list Specie * dict string)
  (orig_id : string) : outcome (list Specie * dict string) :=
  '(specie, new_id) <- make_specie enzyme_id orig_id ;;
  Ret (fst acc ++ [specie], Dict.set (snd acc) orig_id new_id).

(** [metabolites_from_txt(enzyme_module, species_filepath)], with the
    file given by its lines. *)
Definition metabolites_from_txt (em : EnzymeModule) (file : list string)
  : outcome EnzymeModule :=
  let original_ids := map Str.strip file in
  '(species, ids) <- for_each (species_step (em_id em)) original_ids ([], []) ;;
  add_metabolites (with_id_map em (Dict.set (em_id_map em) "species" ids)) species.

(* ===================================================================== *)
(** * [reactions_from_txt] *)
(* ===================================================================== *)

(** [operator.iconcat] takes exactly two arguments. *)
Definition iconcat (args : list (list string)) : outcome (list string) :=
  match args with
  | [a; b] => Ret (a ++ b)
  | _ => Raise TypeError
  end.

Definition species_list_of (reaction_str : string) : outcome (list string) :=
  iconcat (map (Str.split " + ") (Str.split " <=> " (Str.strip reaction_str))).

Definition escape_brackets (id : string) : string :=
  Str.replace "]" "\]" (Str.replace "[" "\[" id).

(** Fix one specie ID in the reaction string: its first occurrence is
    replaced by its entry of the identifier map. *)
Definition fix_specie (id_map : dict (dict string)) (reaction_str specie_id : string)
  : outcome string :=
  species <- Dict.item id_map "species" ;;
  new_id <- Dict.item species specie_id ;;
  r <- Re.compile (escape_brackets specie_id) ;;
  Re.sub r new_id (Some 1) reaction_str.

(** The participants that the kinetics library's
    [build_reaction_from_string] reads off a reaction string, for strings
    with one reversible arrow whose terms are bare identifiers (letters,
    digits and underscores), each named once: reactants get -1 and
    products +1.  Other strings (coefficients, compartment prefixes, other
    arrows, a term named twice, the word nothing) are outside the
    model. *)
Definition is_word (s : string) : bool :=
  negb (String.eqb s "") &&
  forallb (fun c => Str.is_alnum c || Ascii.eqb c "_") (list_ascii_of_string s).

Definition is_nothing (term : string) : bool :=
  String.eqb (PyFloat.lowercase term) "nothing".

Fixpoint distinct_terms (l : list string) : bool :=
  match l with
  | [] => true
  | t :: l' => negb (existsb (String.eqb t) l') && distinct_terms l'
  end.

Definition side_terms (side : string) (sign : Z) : outcome (list (string * Z)) :=
  if String.eqb (Str.strip side) "" then Ret []
  else
    let terms := map Str.strip (Str.split "+" side) in
    if forallb (fun t => is_word t && negb (is_nothing t)) terms
    then Ret (map (fun t => (t, sign)) terms) else Beyond.

Definition build_reaction_from_string (reaction_str : string)
  : outcome (list (string * Z)) :=
  match Str.split "<=>" reaction_str with
  | [reactants; products] =>
      l <- side_terms reactants (-1) ;;
      r <- side_terms products 1 ;;
      if distinct_terms (map fst (l ++ r)) then Ret (l ++ r) else Beyond
  | _ => Beyond
  end.

(** The metabolite that the library makes for a participant the module
    does not know. *)
Definition unknown_metabolite (id : string) : Specie :=
  {| sp_id := id; sp_compartment := CNone; sp_is_form := false;
     sp_bound_metabolites := []; sp_ic := None |}.

(** What the module holds once a reaction of its own is built from a
    string: the reaction has its participants, and the participants that
    the module did not know are among its metabolites. *)
Definition built (em : EnzymeModule) (id : string) (ps : list (string * Z))
  : EnzymeModule :=
  with_metabolites
    (with_reactions em (set_participants (em_reactions em) id ps))
    (em_metabolites em
     ++ map unknown_metabolite
          (filter (fun t => negb (has_specie (em_metabolites em) t)) (map fst ps))).

(** [reaction.build_reaction_from_string(reaction_str)].  A reaction
    that [add_reactions] left out, because the module already held its
    identifier, belongs to no module: looking up its first participant
    raises an AttributeError. *)
Definition build_in_module (em : EnzymeModule) (attached : bool) (id : string)
  (ps : list (string * Z)) : run EnzymeModule :=
  if attached then Done (built em id ps)
  else match ps with
       | [] => Done em
       | _ :: _ => Stopped AttributeError em
       end.

(** The body of the loop over the reaction lines; [reaction_line] is the
    stripped line.  The module is changed in place, so that what is done
    before an exception stays done. *)
Definition reaction_step (em : EnzymeModule) (reaction_line : string)
  : run EnzymeModule :=
  match Str.split ": " reaction_line with
  | [orig_id; reaction_str] =>
      id1 <-[em] Re.sub dollar_re "_" None orig_id ;;
      let new_id := prefix_number_id id1 in
      let attached := negb (has_reaction (em_reactions em) new_id) in
      let em1 := add_reaction em {| r_id := new_id; r_participants := [] |} in
      species_list <-[em1] species_list_of reaction_str ;;
      fixed <-[em1] for_each (fix_specie (em_id_map em1)) species_list reaction_str ;;
      ps <-[em1] build_reaction_from_string fixed ;;
      then_run (build_in_module em1 attached new_id ps)
        (fun em2 =>
           reactions <-[em2] Dict.item (em_id_map em2) "reactions" ;;
           Done (with_id_map em2
                   (Dict.set (em_id_map em2) "reactions"
                      (Dict.set reactions orig_id new_id))))
  | _ => Stopped ValueError em
  end.

(** [reactions_from_txt(enzyme_module, reactions_filepath)] *)
Definition reactions_from_txt (em : EnzymeModule) (file : list string)
  : run EnzymeModule :=
  let reaction_strings := map Str.strip file in
  run_each reaction_step reaction_strings
    (with_id_map em (Dict.set (em_id_map em) "reactions" [])).

(* ===================================================================== *)
(** * [rateconsts_from_txt] *)
(* ===================================================================== *)

(** What the source asks of the kinetics library while it handles the
    symmetry groups: the module after [unify_rate_parameters], and the text
    [str(strip_time(rxn.rate))] of a reaction's current rate. *)
Class MassLib : Type := {
  unify_rate_parameters : EnzymeModule -> list Reaction -> string -> EnzymeModule;
  rate_str : EnzymeModule -> Reaction -> string
}.

(** The selection of the cluster line, with Python's list indexing. *)
Definition select_cluster (lines : list string) (kcluster : Z) : outcome string :=
  match py_index lines (kcluster - 1) with
  | Raise (IndexError _) =>
      Raise (IndexError
               ("Invalid kcluster. Must be an int between [1, "
                ++ Str.of_nat (List.length lines) ++ "], ")%string)
  | o => o
  end.

Definition is_char (a c : ascii) : bool := Ascii.eqb a c.

(** [values_txt.strip().lstrip(...).rstrip(...)] removing the braces. *)
Definition strip_braces (values_txt : string) : string :=
  Str.rstrip_by (is_char "}") (Str.lstrip_by (is_char "{") (Str.strip values_txt)).

(** [float(value)], and on [ValueError] the same with the exponent marker
    rewritten. *)
Definition parse_value (value : string) : outcome PyFloat.float :=
  match PyFloat.of_string value with
  | Raise ValueError => PyFloat.of_string (Str.replace "*^" "e" value)
  | o => o
  end.

(** seconds to hours *)
Definition to_per_hour (value : PyFloat.float) : PyFloat.float :=
  PyFloat.mul value (PyFloat.of_Z 3600).

(** The reaction of the module that the reactions entry of the identifier
    map gives for [rid]; each of the three lookups can raise a KeyError. *)
Definition reaction_of_rid (em : EnzymeModule) (rid : string) : outcome Reaction :=
  reactions <- Dict.item (em_id_map em) "reactions" ;;
  new_id <- Dict.item reactions rid ;;
  get_by_id (em_reactions em) new_id.

(** The loop state: the kf and kr identifier maps, the groups to unify
    and the values collected. *)
Record RateState : Type := {
  rs_kf : dict string;
  rs_kr : dict string;
  rs_to_unify : dict (list Reaction);
  rs_values : dict PyFloat.float
}.

Definition record_rateconst (st : RateState) (key rateconst new_rateconst : string)
  (to_unify : dict (list Reaction)) (v : PyFloat.float) : RateState :=
  {| rs_kf := if String.eqb key "kf" then Dict.set (rs_kf st) rateconst new_rateconst
              else rs_kf st;
     rs_kr := if String.eqb key "kr" then Dict.set (rs_kr st) rateconst new_rateconst
              else rs_kr st;
     rs_to_unify := to_unify;
     rs_values := Dict.set (rs_values st) new_rateconst (to_per_hour v) |}.

(** The new name of the constant and the groups to unify, from the
    [try/except KeyError] around the reaction lookup.  The library names
    the constants of a reaction kf_ and kr_ followed by its identifier. *)
Definition name_rateconst (em : EnzymeModule) (to_unify : dict (list Reaction))
  (key rid : string) : outcome (string * dict (list Reaction)) :=
  match reaction_of_rid em rid with
  | Ret rxn => Ret ((key ++ "_" ++ r_id rxn)%string, to_unify)
  | Raise (KeyError _) =>
      Ret ((key ++ "_" ++ rid)%string,
           Dict.set to_unify rid
             (filter (fun r => Str.contains rid (r_id r)) (em_reactions em)))
  | Raise e => Raise e
  | Beyond => Beyond
  end.

(** The body of the loop over the label/value pairs. *)
Definition rateconst_step (em : EnzymeModule) (st : RateState)
  (pair : string * string) : outcome RateState :=
  let '(rateconst, value) := pair in
  match Re.search rateconst_re rateconst with
  | None => Raise AttributeError
  | Some cs =>
      let rid := Re.group cs 1 in
      let direction := Re.group cs 2 in
      key <- Dict.item [("fwd", "kf"); ("rev", "kr")] direction ;;
      '(new_rateconst, to_unify) <- name_rateconst em (rs_to_unify st) key rid ;;
      v <- parse_value value ;;
      Ret (record_rateconst st key rateconst new_rateconst to_unify v)
  end.

(** [zip] *)
Fixpoint zip {A B : Type} (l : list A) (l' : list B) : list (A * B) :=
  match l, l' with
  | a :: t, b :: t' => (a, b) :: zip t t'
  | _, _ => []
  end.

(** [sorted(rxn_list, key=attrgetter(id))]: a stable insertion sort on
    the identifiers, compared character by character. *)
Fixpoint insert_by_id (r : Reaction) (l : list Reaction) : list Reaction :=
  match l with
  | [] => [r]
  | x :: l' =>
      if String.leb (r_id r) (r_id x) then r :: l else x :: insert_by_id r l'
  end.

Definition sorted_by_id (l : list Reaction) : list Reaction :=
  fold_right insert_by_id [] l.

(** Set symmetry coefficients for rate constants in rates. *)
Definition symmetry_rate (kf_str kr_str : string) (n i : nat) (rate_equation : string)
  : string :=
  Str.replace kf_str (Str.of_nat (n - i) ++ "*" ++ kf_str)
    (Str.replace kr_str (Str.of_nat (i + 1) ++ "*" ++ kr_str) rate_equation).

(** [enzyme_module.add_custom_rate(rxn, rate_equation, custom_parameters)] *)
Definition add_custom_rate (em : EnzymeModule) (rxn : Reaction) (rate_equation : string)
  (custom_parameters : dict (option PyFloat.float)) : EnzymeModule :=
  with_custom_rates em
    (Dict.set (em_custom_rates em) (r_id rxn)
       {| cr_equation := rate_equation; cr_parameters := custom_parameters |}).

(** The loop over [enumerate(sorted(rxn_list, ...))], from index [i]. *)
Fixpoint install_symmetry {M : MassLib} (kf_str kr_str : string) (n i : nat)
  (rxns : list Reaction) (em : EnzymeModule) : EnzymeModule :=
  match rxns with
  | [] => em
  | rxn :: rest =>
      let rate_equation := symmetry_rate kf_str kr_str n i (rate_str em rxn) in
      install_symmetry kf_str kr_str n (S i) rest
        (add_custom_rate em rxn rate_equation [(kf_str, None); (kr_str, None)])
  end.

(** Handle one symmetry group. *)
Definition unify_group {M : MassLib} (em : EnzymeModule) (group : string * list Reaction)
  : EnzymeModule :=
  let '(rid, rxn_list) := group in
  let em1 := unify_rate_parameters em rxn_list rid in
  install_symmetry ("kf_" ++ rid) ("kr_" ++ rid) (List.length rxn_list) 0
    (sorted_by_id rxn_list) em1.

(** [enzyme_module.update_parameters(rateconst_values)] *)
Definition update_parameters (em : EnzymeModule) (values : dict PyFloat.float)
  : EnzymeModule :=
  with_parameters em
    (fold_left (fun d kv => Dict.set d (fst kv) (snd kv)) values (em_parameters em)).

(** [rateconsts_from_txt(enzyme_module, kcluster, labels_filepath,
    clusters_filepath)], with both files given by their lines. *)
Definition rateconsts_from_txt {M : MassLib} (em : EnzymeModule) (kcluster : Z)
  (labels_file clusters_file : list string) : outcome EnzymeModule :=
  let rateconst_labels := map Str.strip labels_file in
  values_txt <- select_cluster clusters_file kcluster ;;
  let values := Str.split ", " (strip_braces values_txt) in
  st <- for_each (rateconst_step em) (zip rateconst_labels values)
          {| rs_kf := []; rs_kr := []; rs_to_unify := []; rs_values := [] |} ;;
  let em1 :=
    with_id_map em
      (Dict.set (Dict.set (em_id_map em) "kf" (rs_kf st)) "kr" (rs_kr st)) in
  let em2 := fold_left unify_group (rs_to_unify st) em1 in
  Ret (update_parameters em2 (rs_values st)).

(* ===================================================================== *)
(** * [fix_equation_variables] *)
(* ===================================================================== *)

(** The corrections made for one compartment identifier. *)
Definition fix_compartment (em : EnzymeModule) (equation_str cid : string)
  : outcome string :=
  r <- Re.compile ("\(" ++ cid ++ "\)")%string ;;
  let eq1 := Re.sub_fn r ("[" ++ cid ++ "]") None equation_str in
  let vol_str := ("param_Volume_" ++ cid)%string in
  eq2 <- (if Str.contains vol_str eq1
          then r <- Re.compile vol_str ;; Re.sub r "1" None eq1
          else Ret eq1) ;;
  let e_tot_str := ("param_" ++ em_id em ++ "_total")%string in
  if Str.contains e_tot_str eq2
  then r <- Re.compile e_tot_str ;; Re.sub r (enzyme_total_symbol_str em) None eq2
  else Ret eq2.

(** The pattern made from a raw identifier. *)
Definition id_pattern (dtype old_id : string) : string :=
  if String.eqb dtype "species" then escape_brackets old_id else old_id.

(** One raw-to-normalized pair applied to the equation text. *)
Definition fix_identifier (dtype : string) (equation_str : string)
  (pair : string * string) : outcome string :=
  r <- Re.compile (id_pattern dtype (fst pair)) ;;
  Ret (Re.sub_fn r (snd pair) None equation_str).

Definition fix_dtype (em : EnzymeModule) (equation_str dtype : string)
  : outcome string :=
  ids <- Dict.item (em_id_map em) dtype ;;
  for_each (fix_identifier dtype) ids equation_str.

(** The first loop: the corrections for every compartment of the
    module. *)
Definition fix_compartments (em : EnzymeModule) (equation_str : string)
  : outcome string :=
  cids <- compartments em ;;
  for_each (fix_compartment em) cids equation_str.

(** Make corrections for equation strings in order to sympify. *)
Definition fix_equation_variables (em : EnzymeModule) (equation_str : string)
  : outcome string :=
  eq1 <- fix_compartments em equation_str ;;
  for_each (fix_dtype em) ["species"; "kf"; "kr"] eq1.

(* ===================================================================== *)
(** * The steady-state solves *)
(* ===================================================================== *)

(** What the source asks of the symbolic algebra library.  [solutions e c
    v x] is [list(solveset(Eq(e.subs(c), v).subs(c), x))]; [evaluate e c t]
    is [float(e.subs(c).subs(t))]. *)
Class SympyLib : Type := {
  expr : Type;
  number : Type;
  sympify : string -> outcome expr;
  solutions : expr -> dict PyFloat.float -> PyFloat.float -> string
              -> outcome (list number);
  to_float : number -> outcome PyFloat.float;
  evaluate : expr -> dict PyFloat.float -> dict (option PyFloat.float)
             -> outcome PyFloat.float
}.

(** Get the symbolic rate law equation from a text file (given by its
    content): the expression to attach to the module. *)
Definition kinetic_rate_law_from_txt {L : SympyLib} (em : EnzymeModule)
  (rate_law_file : string) : outcome expr :=
  rate_law <- fix_equation_variables em rate_law_file ;;
  sympify rate_law.

(** [l.pop()]: the last element. *)
Fixpoint pop_last {A : Type} (l : list A) : outcome A :=
  match l with
  | [] => Raise (IndexError "pop from empty list")
  | [x] => Ret x
  | _ :: l' => pop_last l'
  end.

(** Calculate the total amount of enzyme necessary to sustain given flux.
    [enzyme_rate_equation] is the module's attribute of that name. *)
Definition calculate_enzyme_total {L : SympyLib} (em : EnzymeModule)
  (enzyme_rate_equation : expr) (concentrations : dict PyFloat.float)
  (steady_state_flux : PyFloat.float) : outcome PyFloat.float :=
  e_total <- solutions enzyme_rate_equation concentrations steady_state_flux
               (enzyme_total_symbol_str em) ;;
  x <- pop_last e_total ;;
  to_float x.

(** The clamp of [steady_state_concentrations_from_txt]. *)
Definition clamp (zero_tol ic : PyFloat.float) : pynum :=
  if PyFloat.leb (PyFloat.abs ic) zero_tol then PyInt 0 else PyFloat ic.

(** [ic < 0], as the library's setter of [ic] tests it. *)
Definition is_negative (ic : pynum) : bool :=
  match ic with
  | PyInt z => (z <? 0)%Z
  | PyFloat x => PyFloat.ltb x (S754_zero false)
  end.

(** [specie.ic = ic]: the library's setter refuses a negative number with
    a ValueError. *)
Definition set_ic (specie : Specie) (ic : pynum) : outcome Specie :=
  if is_negative ic then Raise ValueError
  else Ret {| sp_id := sp_id specie; sp_compartment := sp_compartment specie;
              sp_is_form := sp_is_form specie;
              sp_bound_metabolites := sp_bound_metabolites specie;
              sp_ic := Some ic |}.

(** Get an equation for enzyme form concentration from a text file (given
    by its content): the specie with its initial concentration stored. *)
Definition steady_state_concentrations_from_txt {L : SympyLib} (em : EnzymeModule)
  (eq_file : string) (specie : Specie) (concentrations : dict PyFloat.float)
  (zero_tol : PyFloat.float) : outcome Specie :=
  ss_eq <- fix_equation_variables em eq_file ;;
  e <- sympify ss_eq ;;
  ic <- evaluate e concentrations
          [((em_id em ++ "_Total")%string, em_enzyme_concentration_total em)] ;;
  set_ic specie (clamp zero_tol ic).

(* ===================================================================== *)
(** * Notions used to state the properties *)
(* ===================================================================== *)

Fixpoint all_chars (p : ascii -> bool) (s : string) : bool :=
  match s with
  | EmptyString => true
  | String c s' => p c && all_chars p s'
  end.

(** Identifiers without operators of the pattern syntax; in a species
    identifier the brackets, which the source escapes, are allowed. *)
Definition plain (s : string) : bool :=
  all_chars (fun c => negb (Re.is_meta c)) s.

Definition plain_species (s : string) : bool :=
  all_chars (fun c => Ascii.eqb c "[" || negb (Re.is_meta c)) s.

Definition plain_key (dtype old_id : string) : bool :=
  if String.eqb dtype "species" then plain_species old_id else plain old_id.

Definition plain_keys (dtype : string) (ids : dict string) : bool :=
  forallb (fun p => plain_key dtype (fst p)) ids.

(** A replacement text without a backslash. *)
Definition plain_template (s : string) : bool := negb (Str.contains "\" s).

(** The pairs of an identifier map applied in order with [str.replace]. *)
Definition replace_ids (ids : dict string) (equation_str : string) : string :=
  fold_left (fun e p => Str.replace (fst p) (snd p) e) ids equation_str.

(** Every character of [s] replaced by [new] when it is [a]. *)
Fixpoint subst_char (a : ascii) (new : string) (s : string) : string :=
  match s with
  | EmptyString => EmptyString
  | String c s' =>
      if Ascii.eqb a c then (new ++ subst_char a new s')%string
      else String c (subst_char a new s')
  end.

(** The bracketed letters left once the isomer is taken out. *)
Definition remaining_compartments (orig_id : string) : list string :=
  let found := Re.findall1 compartment_finder_re orig_id in
  match isomer_of found with
  | Some isomer => remove_first isomer found
  | None => found
  end.

(** All the species tokens of a reaction formula. *)
Definition formula_tokens (reaction_str : string) : list string :=
  concat (map (Str.split " + ") (Str.split " <=> " (Str.strip reaction_str))).

(** The species entry of the identifier map. *)
Definition species_map (em : EnzymeModule) : dict string :=
  match Dict.get (em_id_map em) "species" with
  | Some d => d
  | None => []
  end.

(** A line of a text file as [readlines] returns it. *)
Definition line (s : string) : string := (s ++ String (ascii_of_nat 10) "")%string.

(** A bracketed letter at the front of a text: the letter and what
    follows the closing bracket. *)
Definition bracket_at (s : string) : option (ascii * string) :=
  match s with
  | String b (String a (String d rest)) =>
      if Ascii.eqb "[" b && Str.is_alpha a && Ascii.eqb "]" d
      then Some (a, rest) else None
  | _ => None
  end.

Definition is_delimiter (c : ascii) : bool :=
  Ascii.eqb "&" c || Ascii.eqb "@" c || Ascii.eqb "#" c.

Definition no_bracket (s : string) : bool :=
  all_chars (fun c => negb (Ascii.eqb "[" c)) s.

Definition letter (a : ascii) : string := String a EmptyString.

(** A letter between brackets. *)
Definition bracketed (a : ascii) : string := String "[" (String a (String "]" "")).



(** A kinetics library cut down to reactions of one substrate S and one
    product P: unifying the parameters of a group installs the mass-action
    rate written with the group's constants, and the rate of a reaction is
    its custom rate when it has one. *)
Definition mass_action (rid : string) : string :=
  ("kf_" ++ rid ++ "*S - kr_" ++ rid ++ "*P")%string.

#[export] Instance toy_mass : MassLib := {
  unify_rate_parameters := fun em rxn_list rid =>
    fold_left
      (fun e r =>
         add_custom_rate e r (mass_action rid)
           [(("kf_" ++ rid)%string, None); (("kr_" ++ rid)%string, None)])
      rxn_list em;
  rate_str := fun em rxn =>
    match Dict.get (em_custom_rates em) (r_id rxn) with
    | Some cr => cr_equation cr
    | None => mass_action (r_id rxn)
    end
}.

Definition reaction (id : string) : Reaction :=
  {| r_id := id; r_participants := [] |}.




(** A module holding the reaction R1, as the reaction loader leaves it. *)
Definition r1_module : EnzymeModule :=
  with_reactions
    (with_id_map (new_module "PFK")
       [("species", []); ("reactions", [("R1", "R1")])])
    [reaction "R1"].

(* ===================================================================== *)
(** * Small instances of the library interfaces *)
(* ===================================================================== *)

(** Expressions of a symbolic library cut down to what the examples
    need: a numeric constant, and a rate equation given by the values of
    the total-enzyme symbol at which it meets the target flux.  A
    solution is an integer or a number that is not real, which [float]
    refuses with a TypeError.  Substituting [None] for a symbol is
    refused with the library's SympifyError, a ValueError. *)
Inductive toy_number : Type :=
| Real (z : Z)
| NonReal.

Inductive toy_expr : Type :=
| Const (x : PyFloat.float)
| Roots (l : list toy_number).

Definition has_none {V : Type} (d : dict (option V)) : bool :=
  existsb (fun p => match snd p with None => true | Some _ => false end) d.

#[export] Instance toy_sympy : SympyLib := {
  expr := toy_expr;
  number := toy_number;
  sympify := fun s => x <- PyFloat.of_string s ;; Ret (Const x);
  solutions := fun e _ _ _ =>
    match e with
    | Roots l => Ret l
    | Const _ => Ret []
    end;
  to_float := fun n =>
    match n with
    | Real z => Ret (PyFloat.of_Z z)
    | NonReal => Raise TypeError
    end;
  evaluate := fun e _ totals =>
    if has_none totals then Raise ValueError
    else match e with
         | Const x => Ret x
         | Roots _ => Raise TypeError
         end
}.

(** A module whose identifier maps are all present and empty. *)
Definition bare_module (enzyme_id : string) : EnzymeModule :=
  with_id_map (new_module enzyme_id)
    [("species", []); ("reactions", []); ("kf", []); ("kr", [])].

(** The module of two enzyme forms that differ by one more bound ligand,
    as the species loader builds it, with empty maps for the reactions
    and the rate constants. *)
Definition pfk_forms : EnzymeModule :=
  {| em_id := "PFK";
     em_id_map :=
       [("species", [("E_PFK[c]&atp", "E_PFK_c_atp");
                     ("E_PFK[c]&atp&f6p", "E_PFK_c_atp_f6p")]);
        ("reactions", []); ("kf", []); ("kr", [])];
     em_metabolites :=
       [{| sp_id := "E_PFK_c_atp"; sp_compartment := CStr "c"; sp_is_form := true;
           sp_bound_metabolites := [("atp_c", 1)]; sp_ic := None |};
        {| sp_id := "E_PFK_c_atp_f6p"; sp_compartment := CStr "c";
           sp_is_form := true;
           sp_bound_metabolites := [("atp_c", 1); ("f6p_c", 1)]; sp_ic := None |}];
     em_reactions := []; em_custom_rates := [];
     em_parameters := []; em_enzyme_concentration_total := None |}.

(** A module whose total enzyme concentration is known. *)
Definition pfk_with_total : EnzymeModule :=
  {| em_id := "PFK";
     em_id_map := [("species", []); ("reactions", []); ("kf", []); ("kr", [])];
     em_metabolites := []; em_reactions := []; em_custom_rates := [];
     em_parameters := [];
     em_enzyme_concentration_total := Some (PyFloat.of_Z 1) |}.

(** A cluster file of three lines. *)
Definition three_clusters : list string :=
  [line "{1.0, 2.0}"; line "{3.0, 4.0}"; line "{5.0, 6.0}"].

Definition invalid_kcluster (n : nat) : exn :=
  IndexError ("Invalid kcluster. Must be an int between [1, "
              ++ Str.of_nat n ++ "], ")%string.

(** The free enzyme form of the module. *)
Definition free_enzyme : Specie :=
  {| sp_id := "E_PFK_c"; sp_compartment := CStr "c"; sp_is_form := true;
     sp_bound_metabolites := []; sp_ic := None |}.

(** The species and reaction files of the round-trip example, and the
    species file completed with the product. *)
Definition two_species_file : list string := [line "atp_c"; line "2pg_c"].
Definition three_species_file : list string :=
  [line "atp_c"; line "2pg_c"; line "adp_c"].
Definition r1_file : list string := [line "R1: atp_c + 2pg_c <=> adp_c"].

(** Species loader, then reaction loader: the outcome of the first and,
    when it returns, the run of the second. *)
Definition load_species_then_reactions (enzyme_id : string)
  (species_file reactions_file : list string) : outcome (run EnzymeModule) :=
  em <- metabolites_from_txt (new_module enzyme_id) species_file ;;
  Ret (reactions_from_txt em reactions_file).

(** The tokens of a formula and their replacements stay within the
    fragment of the pattern syntax that is interpreted. *)
Definition tokens_in_fragment (species : dict string) (tokens : list string) : Prop :=
  Forall (fun t => plain_species t = true
                   /\ forall new_id, Dict.get species t = Some new_id ->
                                     plain_template new_id = true) tokens.

(** The module after the species loader ran on the two-species file. *)
Definition two_species_module : EnzymeModule :=
  {| em_id := "PFK";
     em_id_map := [("species", [("atp_c", "atp_c"); ("2pg_c", "_2pg_c")])];
     em_metabolites :=
       [{| sp_id := "atp_c"; sp_compartment := CList []; sp_is_form := false;
           sp_bound_metabolites := []; sp_ic := None |};
        {| sp_id := "_2pg_c"; sp_compartment := CList []; sp_is_form := false;
           sp_bound_metabolites := []; sp_ic := None |}];
     em_reactions := []; em_custom_rates := []; em_parameters := [];
     em_enzyme_concentration_total := None |}.

(* ===================================================================== *)
(** * Further notions *)
(* ===================================================================== *)

(** The text starts with a digit. *)
Definition starts_with_digit (s : string) : bool :=
  match s with
  | String c _ => Str.is_digit c
  | EmptyString => false
  end.

(** Every pair of an identifier map sends the identifier to itself. *)
Definition identity_ids (ids : dict string) : bool :=
  forallb (fun p => String.eqb (fst p) (snd p)) ids.

(** The three rewritings made for a compartment, as [str.replace]. *)
Definition replace_compartment (em : EnzymeModule) (equation_str cid : string)
  : string :=
  Str.replace ("param_" ++ em_id em ++ "_total") (enzyme_total_symbol_str em)
    (Str.replace ("param_Volume_" ++ cid) "1"
       (Str.replace ("(" ++ cid ++ ")") ("[" ++ cid ++ "]") equation_str)).

(** A module holding only the species entry of the identifier map, as
    the species loader leaves it on a file of one line. *)
Definition species_only_module : EnzymeModule :=
  {| em_id := "PFK";
     em_id_map := [("species", [("2pg[c]", "_2pg_c")])];
     em_metabolites :=
       [{| sp_id := "_2pg_c"; sp_compartment := CStr "c"; sp_is_form := false;
           sp_bound_metabolites := []; sp_ic := None |}];
     em_reactions := []; em_custom_rates := [];
     em_parameters := []; em_enzyme_concentration_total := None |}.

(** A module with one metabolite in the compartment c and empty
    identifier maps. *)
Definition cytosol_module : EnzymeModule :=
  {| em_id := "PFK";
     em_id_map := [("species", []); ("reactions", []); ("kf", []); ("kr", [])];
     em_metabolites :=
       [{| sp_id := "atp_c"; sp_compartment := CStr "c"; sp_is_form := false;
           sp_bound_metabolites := []; sp_ic := None |}];
     em_reactions := []; em_custom_rates := [];
     em_parameters := []; em_enzyme_concentration_total := None |}.

(** A module whose identifiers all stand for themselves. *)
Definition identity_module : EnzymeModule :=
  with_id_map (new_module "PFK")
    [("species", [("atp_c", "atp_c"); ("adp_c", "adp_c")]);
     ("reactions", []); ("kf", [("kf_R1", "kf_R1")]); ("kr", [])].

(** The identifier under which the reaction loader registers a reaction. *)
Definition normalize_reaction_id (orig_id : string) : string :=
  prefix_number_id (Re.sub_fn dollar_re "_" None orig_id).

(** The reactions entry of the identifier map. *)
Definition reactions_map (em : EnzymeModule) : dict string :=
  match Dict.get (em_id_map em) "reactions" with
  | Some d => d
  | None => []
  end.

(** The module after the species loader ran on the three-species file. *)
Definition three_species_module : EnzymeModule :=
  {| em_id := "PFK";
     em_id_map :=
       [("species", [("atp_c", "atp_c"); ("2pg_c", "_2pg_c"); ("adp_c", "adp_c")])];
     em_metabolites :=
       map (fun id => {| sp_id := id; sp_compartment := CList [];
                         sp_is_form := false; sp_bound_metabolites := [];
                         sp_ic := None |}) ["atp_c"; "_2pg_c"; "adp_c"];
     em_reactions := []; em_custom_rates := [];
     em_parameters := []; em_enzyme_concentration_total := None |}.

(** The metabolites of [em'] are those of [em] followed by metabolites
    made for identifiers that [em] did not know. *)
Definition extends_metabolites (em em' : EnzymeModule) : Prop :=
  exists added,
    em_metabolites em' = em_metabolites em ++ map unknown_metabolite added
    /\ forall t, In t added -> has_specie (em_metabolites em) t = false.

(** The number of characters of a text that satisfy [p]. *)
Fixpoint count_chars (p : ascii -> bool) (s : string) : nat :=
  match s with
  | EmptyString => 0
  | String c s' => (if p c then 1 else 0) + count_chars p s'
  end.

(** The text with every bound-ligand delimiter turned into an
    underscore. *)
Fixpoint underscore_delimiters (s : string) : string :=
  match s with
  | EmptyString => EmptyString
  | String c s' =>
      String (if is_delimiter c then "_"%char else c) (underscore_delimiters s')
  end.

(** The number of ligands a form holds, all kinds together. *)
Definition total_bound (bound : dict nat) : nat := list_sum (map snd bound).

(** A species line that names a form with bound ligands and does not
    leave exactly one compartment letter. *)
Definition unplaceable_form (enzyme_id orig_id : string) : bool :=
  match normalize_id orig_id with
  | Ret (new_id, CList _) => is_form_id enzyme_id new_id && has_bound new_id
  | _ => false
  end.

(** A text without white space. *)
Definition no_space (s : string) : bool :=
  all_chars (fun c => negb (Str.is_space c)) s.

(** The label of a rate constant as the label file writes it. *)
Definition rateconst_label (rid direction : string) : string :=
  ("k_" ++ rid ++ "_" ++ direction)%string.

(** The end of [rateconst_re]: the underscore, the direction (group 2)
    and the end of the text. *)
Definition direction_re : Re.regex :=
  Re.Cat (Re.Chr "_")
    (Re.Cat (Re.Grp 2 (Re.Alt (Re.lit "fwd") (Re.lit "rev"))) Re.EndZ).

(** The text ends with a well-formed label: some prefix, then the label
    of a rate constant whose reaction part holds no white space. *)
Definition labelled (label : string) : Prop :=
  exists pre rid direction,
    no_space rid = true
    /\ (direction = "fwd" \/ direction = "rev")
    /\ label = (pre ++ rateconst_label rid direction)%string.

(** The key of the identifier map that a direction selects. *)
Definition direction_key (direction : string) : string :=
  if String.eqb direction "fwd" then "kf" else "kr".

(** A label file of one label. *)
Definition one_label_file : list string := [line "k_R1_fwd"].

(** A cluster file of one line with one value. *)
Definition one_value_cluster : list string := [line "{2.5}"].

(** The text with the first occurrence of a non-empty [old] replaced by
    [new], as [s.replace(old, new, 1)] gives it. *)
Fixpoint replace_first (old new s : string) : string :=
  match s with
  | EmptyString => EmptyString
  | String c s' =>
      if Str.starts_with old s then (new ++ Str.drop (String.length old) s)%string
      else String c (replace_first old new s')
  end.

(** A module whose species map holds one species that starts with a
    digit, and the product of its dimerization. *)
Definition dimer_module : EnzymeModule :=
  {| em_id := "PFK";
     em_id_map :=
       [("species", [("2pg_c", "_2pg_c"); ("dim_c", "dim_c")]); ("reactions", [])];
     em_metabolites :=
       map (fun id => {| sp_id := id; sp_compartment := CList [];
                         sp_is_form := false; sp_bound_metabolites := [];
                         sp_ic := None |}) ["_2pg_c"; "dim_c"];
     em_reactions := []; em_custom_rates := [];
     em_parameters := []; em_enzyme_concentration_total := None |}.

(* ===================================================================== *)
(** * [format_percent_str] *)
(* ===================================================================== *)

(** What the conversions raise: [int] on a float that is infinite
    (OverflowError) or not a number (ValueError), and [str] on an integer
    of more digits than the interpreter's limit (ValueError). *)
Inductive int_error : Type :=
| OverflowError
| NanValueError
| DigitsValueError.

(** The decimal writing of an integer. *)
Definition str_int (n : Z) : string := NilEmpty.string_of_int (Z.to_int n).

(** The interpreter's default limit on the digits of an integer that is
    turned into text. *)
Definition max_str_digits : Z := 4300.

(** [str(n)] for an integer. *)
Definition py_str (n : Z) : string + int_error :=
  if (Z.abs n <? 10 ^ max_str_digits)%Z then inl (str_int n)
  else inr DigitsValueError.

(** The integer nearest to [m / 2^k], ties to the even one. *)
Definition nearest_even (m : Z) (k : positive) : Z :=
  let d := Z.pow_pos 2 k in
  let q := (m / d)%Z in
  match (2 * (m mod d) ?= d)%Z with
  | Lt => q
  | Gt => (q + 1)%Z
  | Eq => if Z.even q then q else (q + 1)%Z
  end.

(** [int(round(x, 0))] for a float: [round] with a number of digits
    gives the float nearest to the exact value of [x], ties to even, and
    passes infinities and NaN on; [int] of a float that holds an integer
    is that integer. *)
Definition int_round (x : PyFloat.float) : Z + int_error :=
  match x with
  | S754_zero _ => inl 0%Z
  | S754_finite s m e =>
      let n := match e with
               | Z0 => Zpos m
               | Zpos k => (Zpos m * Z.pow_pos 2 k)%Z
               | Zneg k => nearest_even (Zpos m) k
               end in
      inl (if s then (- n)%Z else n)
  | S754_infinity _ => inr OverflowError
  | S754_nan => inr NanValueError
  end.

(** [format_percent_str(percent)] for an integer or a float. *)
Definition format_percent_str (percent : pynum) : string + int_error :=
  match
    match percent with
    | PyInt z => inl (z * 100)%Z
    | PyFloat x => int_round (PyFloat.mul x (PyFloat.of_Z 100))
    end
  with
  | inl n =>
      match py_str n with
      | inl s => inl (Str.replace "." EmptyString s)
      | inr e => inr e
      end
  | inr e => inr e
  end.

(** A finite float within the range of binary64: a mantissa of at most
    53 bits and an exponent of at most 971. *)
Definition binary64_range (x : PyFloat.float) : bool :=
  match x with
  | S754_finite _ m e => ((Zpos m <? 2 ^ 53) && (e <=? 971))%Z
  | _ => true
  end.

(** The float that the decimal literal of [k] hundredths denotes. *)
Definition hundredths (k : nat) : PyFloat.float :=
  match k with
  | 0 => S754_zero false
  | _ => PyFloat.of_decimal false (Pos.of_nat k) (-2)
  end.

(** A text made of digits, after a minus sign if there is one. *)
Definition is_integer_text (s : string) : bool :=
  match s with
  | String "-" s' => all_chars Str.is_digit s'
  | _ => all_chars Str.is_digit s
  end.

(** Every key of the map is a label that ends well formed, and its name
    starts with [key] and an underscore. *)
Definition labels_named (key : string) (d : dict string) : Prop :=
  forall label name,
    Dict.get d label = Some name ->
    labelled label /\ Str.starts_with (key ++ "_") name = true.

(** Some metabolite of the list has a list for compartment. *)
Definition has_list_compartment (l : list Specie) : bool :=
  existsb (fun s => match sp_compartment s with
                    | CList _ => true
                    | _ => false
                    end) l.

(** The module after the species loader and the reaction loader ran on
    the three-species file and the file of the reaction R1: its species
    have no bracket, and so a list for compartment. *)
Definition r1_loaded_module : EnzymeModule :=
  {| em_id := "PFK";
     em_id_map :=
       [("species", [("atp_c", "atp_c"); ("2pg_c", "_2pg_c"); ("adp_c", "adp_c")]);
        ("reactions", [("R1", "R1")])];
     em_metabolites := em_metabolites three_species_module;
     em_reactions :=
       [{| r_id := "R1";
           r_participants :=
             [("atp_c", (-1)%Z); ("_2pg_c", (-1)%Z); ("adp_c", 1%Z)] |}];
     em_custom_rates := []; em_parameters := [];
     em_enzyme_concentration_total := None |}.











(* ===================================================================== *)
(** * The embedding on small inputs *)
(* ===================================================================== *)

(** Matching, as Python's [re] does it: an empty match is allowed right
    after a non-empty one, and the greedy star gives characters back. *)
Example sub_star_digits :
  Re.sub_fn (Re.Rep Re.Digit) "-" None "ab1d" = "-a-b--d-".
Proof. reflexivity. Qed.

Example sub_count_one :
  Re.sub (Re.lit "ab") "x" (Some 1) "abab" = Ret "xab".
Proof. reflexivity. Qed.

Example findall_compartments :
  Re.findall1 compartment_finder_re "glc [D][c]" = ["D"; "c"].
Proof. reflexivity. Qed.

Example split_bound :
  Re.split bound_metabolites_re "E_PFK_c&atp@f6p#adp" = ["E_PFK_c"; "atp"; "f6p"; "adp"].
Proof. reflexivity. Qed.

Example search_rateconst_backtracks :
  option_map (fun cs => (Re.group cs 1, Re.group cs 2))
    (Re.search rateconst_re "k_a_fwd_rev") = Some ("a_fwd", "rev").
Proof. reflexivity. Qed.

Example search_rateconst_none : Re.search rateconst_re "k_R1_fwd " = None.
Proof. reflexivity. Qed.

Example compile_escaped : Re.compile "atp\[c\]" = Ret (Re.lit "atp[c]").
Proof. reflexivity. Qed.

Example compile_operator : Re.compile "a.b" = Beyond.
Proof. reflexivity. Qed.

Example prefix_number_id_digit : prefix_number_id "2pg_c" = "_2pg_c".
Proof. reflexivity. Qed.

Example prefix_number_id_letter : prefix_number_id "atp_c" = "atp_c".
Proof. reflexivity. Qed.

Example replace_overlapping : Str.replace "aa" "X" "aaa" = "Xa".
Proof. reflexivity. Qed.

Example split_reaction_line :
  Str.split ": " "R1: atp_c + 2pg_c <=> adp_c" = ["R1"; "atp_c + 2pg_c <=> adp_c"].
Proof. reflexivity. Qed.

Example strip_line : Str.strip (line "  atp_c ") = "atp_c".
Proof. reflexivity. Qed.

(** Floats: one tenth, an overflow, the smallest subnormal, a tie to
    even, and texts that [float] refuses. *)
Example parse_tenth :
  PyFloat.parse "0.1" = Some (S754_finite false 7205759403792794 (-56)).
Proof. reflexivity. Qed.

Example parse_overflow : PyFloat.parse "1e400" = Some (S754_infinity false).
Proof. reflexivity. Qed.

Example parse_subnormal :
  PyFloat.parse "5e-324" = Some (S754_finite false 1 (-1074)).
Proof. reflexivity. Qed.

Example parse_tie_to_even :
  PyFloat.parse "9007199254740993" = Some (S754_finite false 4503599627370496 1).
Proof. reflexivity. Qed.

Example parse_underscore_and_sign :
  PyFloat.parse " -1_0.5E+2 " = Some (PyFloat.of_Z (-1050)).
Proof. reflexivity. Qed.

Example parse_refused :
  PyFloat.parse "1.2*^-3" = None /\ PyFloat.parse "1e" = None
  /\ PyFloat.parse "." = None /\ PyFloat.parse "1_" = None.
Proof. repeat split. Qed.

Example parse_white_space :
  PyFloat.parse (String (ascii_of_nat 11) (line "1")) = Some (PyFloat.of_Z 1)
  /\ PyFloat.parse (String (ascii_of_nat 28) "1") = None
  /\ Str.strip (String (ascii_of_nat 28) "1") = "1".
Proof. repeat split. Qed.

(** Species lines. *)
Example normalize_isomer_and_compartment :
  normalize_id "glc[D][c]" = Ret ("glc_D_c", CStr "c").
Proof. reflexivity. Qed.

Example normalize_two_compartments :
  normalize_id "a[c][e]" = Ret ("a[c][e]", CList ["c"; "e"]).
Proof. reflexivity. Qed.

Example make_form_counts_ligands :
  option_map (fun p => (sp_id (fst p), sp_bound_metabolites (fst p)))
    (match make_specie "PFK" "E_PFK[c]&atp&2pg&atp" with
     | Ret p => Some p
     | _ => None
     end)
  = Some ("E_PFK_c_atp_2pg_atp", [("atp_c", 2); ("_2pg_c", 1)]).
Proof. reflexivity. Qed.

Example species_loader_builds_id_map :
  option_map species_map
    (match metabolites_from_txt (new_module "PFK")
             [line "E_PFK[c]&atp"; line "E_PFK[c]&atp&f6p"] with
     | Ret em => Some em
     | _ => None
     end)
  = Some (species_map pfk_forms).
Proof. reflexivity. Qed.
(* ===================================================================== *)
(** * Lemmas on strings *)
(* ===================================================================== *)

Lemma append_nil_r (s : string) : (s ++ "")%string = s.
Proof. induction s as [|c s IH]; simpl; [reflexivity | now rewrite IH]. Qed.

Lemma append_assoc (a b c : string) : ((a ++ b) ++ c = a ++ (b ++ c))%string.
Proof. induction a as [|x a IH]; simpl; [reflexivity | now rewrite IH]. Qed.

Lemma length_append (a b : string) :
  String.length (a ++ b) = String.length a + String.length b.
Proof. induction a as [|x a IH]; simpl; [reflexivity | now rewrite IH]. Qed.

Lemma starts_with_append (p s : string) : Str.starts_with p (p ++ s) = true.
Proof.
  induction p as [|a p IH]; simpl; [reflexivity|].
  now rewrite Ascii.eqb_refl, IH.
Qed.

Lemma starts_with_inv (p s : string) :
  Str.starts_with p s = true -> s = (p ++ Str.drop (String.length p) s)%string.
Proof.
  revert s; induction p as [|a p IH]; intros s H; simpl in *; [reflexivity|].
  destruct s as [|b s]; [discriminate|].
  apply andb_true_iff in H as [Hab Hp].
  apply Ascii.eqb_eq in Hab; subst b.
  now rewrite <- (IH s Hp).
Qed.

Lemma drop_append (p s : string) : Str.drop (String.length p) (p ++ s) = s.
Proof. induction p as [|a p IH]; simpl; [reflexivity | exact IH]. Qed.

Lemma length_drop_le (n : nat) (s : string) :
  String.length (Str.drop n s) <= String.length s.
Proof.
  revert s; induction n as [|n IH]; intros s; simpl; [lia|].
  destruct s as [|c s]; simpl; [lia|]. specialize (IH s). lia.
Qed.

Lemma starts_with_length (p s : string) :
  Str.starts_with p s = true ->
  String.length s - String.length (Str.drop (String.length p) s) = String.length p.
Proof.
  intros H. rewrite (starts_with_inv _ _ H) at 1.
  rewrite length_append. lia.
Qed.

(** Passing over the characters of an occurrence. *)
Lemma replace_from_skip (old new a rest : string) :
  Str.replace_from old new (String.length a) (a ++ rest)
  = Str.replace_from old new 0 rest.
Proof. induction a as [|c a IH]; simpl; [reflexivity | exact IH]. Qed.

(** An occurrence at the very start of the text is replaced, whatever
    follows it. *)
Lemma replace_hit (old new rest : string) :
  old <> EmptyString ->
  Str.replace old new (old ++ rest) = (new ++ Str.replace old new rest)%string.
Proof.
  intros Hne. destruct old as [|c old]; [congruence|].
  unfold Str.replace.
  change ((String c old ++ rest)%string) with (String c (old ++ rest)).
  cbn [Str.replace_from].
  change (String c (old ++ rest)) with ((String c old ++ rest)%string).
  rewrite starts_with_append. cbn [String.length].
  now rewrite replace_from_skip.
Qed.

(** The regular expression of a literal text matches exactly that text. *)
Lemma run_lit {R : Type} (p : string) (n0 : nat) (s : string) (cs : Re.captures)
  (k : string -> Re.captures -> option R) :
  Re.run (Re.lit p) n0 s cs k
  = if Str.starts_with p s then k (Str.drop (String.length p) s) cs else None.
Proof.
  revert s; induction p as [|a p IH]; intros s; simpl; [reflexivity|].
  destruct s as [|b s]; [reflexivity|].
  destruct (Ascii.eqb a b); simpl; [apply IH | reflexivity].
Qed.

Lemma match_at_lit (p : string) (n0 : nat) (adv : bool) (s : string) :
  Re.match_at (Re.lit p) n0 adv s
  = if Str.starts_with p s
    then if adv && Nat.eqb (String.length p) 0 then None
         else Some (String.length p, [])
    else None.
Proof.
  unfold Re.match_at. rewrite run_lit.
  destruct (Str.starts_with p s) eqn:H; [|reflexivity].
  now rewrite (starts_with_length _ _ H).
Qed.

(** Substituting for a literal pattern is [str.replace]. *)
Lemma fill_scan_lit (p new : string) (n0 skip : nat) (s : string) :
  Re.fill new (Re.scan (Re.lit p) n0 None skip s) = Str.replace_from p new skip s.
Proof.
  revert skip; induction s as [|c s IH]; intros skip.
  - simpl. destruct skip; [|reflexivity].
    rewrite match_at_lit. destruct p; simpl; [now rewrite append_nil_r | reflexivity].
  - cbn [Re.scan Str.replace_from]. destruct skip as [|k]; [|apply IH].
    cbn [Re.exhausted Re.spend]. rewrite !match_at_lit.
    destruct (Str.starts_with p (String c s)) eqn:Hp.
    + destruct p as [|a p].
      * cbn. now rewrite IH.
      * cbn [String.length andb Nat.eqb Re.fill]. now rewrite IH.
    + cbn [Re.fill]. now rewrite IH.
Qed.

Lemma sub_fn_lit (p new s : string) :
  Re.sub_fn (Re.lit p) new None s = Str.replace p new s.
Proof. apply fill_scan_lit. Qed.

Lemma replace_char (a : ascii) (new s : string) :
  Str.replace (String a "") new s = subst_char a new s.
Proof.
  unfold Str.replace. induction s as [|c s IH]; [reflexivity|].
  cbn [Str.replace_from Str.starts_with subst_char String.length].
  destruct (Ascii.eqb a c); cbn [andb]; now rewrite IH.
Qed.

Lemma not_meta_not_backslash (c : ascii) :
  Re.is_meta c = false -> Ascii.eqb c "\" = false.
Proof.
  intros H. destruct (Ascii.eqb_spec c "\"); [subst; discriminate | reflexivity].
Qed.

Lemma literal_text_plain (s : string) :
  plain s = true -> Re.literal_text s = Some s.
Proof.
  induction s as [|c s IH]; [reflexivity|]. unfold plain in *. cbn [all_chars].
  intros H. apply andb_true_iff in H as [Hc Hs]. apply negb_true_iff in Hc.
  cbn [Re.literal_text]. rewrite (not_meta_not_backslash _ Hc), Hc, (IH Hs).
  reflexivity.
Qed.

Lemma literal_text_escape_brackets (s : string) :
  plain_species s = true -> Re.literal_text (escape_brackets s) = Some s.
Proof.
  unfold escape_brackets. rewrite !replace_char.
  induction s as [|c s IH]; [reflexivity|]. unfold plain_species in *.
  cbn [all_chars]. intros H. apply andb_true_iff in H as [Hc Hs].
  specialize (IH Hs). cbn [subst_char].
  destruct (Ascii.eqb_spec "[" c) as [<-|Hne1].
  - cbn. now rewrite IH.
  - cbn [subst_char]. destruct (Ascii.eqb_spec "]" c) as [<-|Hne2].
    + cbn. now rewrite IH.
    + apply orb_true_iff in Hc as [Hc|Hc].
      * apply Ascii.eqb_eq in Hc. congruence.
      * apply negb_true_iff in Hc.
        cbn [Re.literal_text]. rewrite (not_meta_not_backslash _ Hc), Hc, IH.
        reflexivity.
Qed.

Lemma compile_id_pattern (dtype old_id : string) :
  plain_key dtype old_id = true ->
  Re.compile (id_pattern dtype old_id) = Ret (Re.lit old_id).
Proof.
  unfold plain_key, id_pattern, Re.compile.
  destruct (String.eqb dtype "species"); intros H.
  - now rewrite literal_text_escape_brackets.
  - now rewrite literal_text_plain.
Qed.

Lemma fix_identifier_replace (dtype equation_str old_id new_id : string) :
  plain_key dtype old_id = true ->
  fix_identifier dtype equation_str (old_id, new_id)
  = Ret (Str.replace old_id new_id equation_str).
Proof.
  intros H. unfold fix_identifier. cbn [fst snd].
  rewrite (compile_id_pattern _ _ H). cbn [bind]. now rewrite sub_fn_lit.
Qed.

Lemma for_each_fix_identifier (dtype : string) (ids : dict string) (equation_str : string) :
  plain_keys dtype ids = true ->
  for_each (fix_identifier dtype) ids equation_str = Ret (replace_ids ids equation_str).
Proof.
  revert equation_str; induction ids as [|[o n] ids IH]; intros e H; [reflexivity|].
  unfold plain_keys in *. cbn [forallb fst] in H. apply andb_true_iff in H as [Ho Hs].
  cbn [for_each]. rewrite (fix_identifier_replace _ _ _ _ Ho). cbn [bind].
  rewrite (IH _ Hs). reflexivity.
Qed.

Lemma fix_dtype_replace (em : EnzymeModule) (dtype : string) (ids : dict string)
  (equation_str : string) :
  Dict.get (em_id_map em) dtype = Some ids ->
  plain_keys dtype ids = true ->
  fix_dtype em equation_str dtype = Ret (replace_ids ids equation_str).
Proof.
  intros Hget Hp. unfold fix_dtype, Dict.item. rewrite Hget. cbn [bind].
  now apply for_each_fix_identifier.
Qed.

(** C1 (as amended): when the raw identifiers of the three maps hold no
    pattern operator (the square brackets of species identifiers apart,
    which the code escapes), the equation rewriting is [str.replace]
    applied pair after pair, species first, then forward and reverse
    constants, to the text left by the compartment pass; and the
    substitution of such a pair rewrites an occurrence of the raw
    identifier also where it is the start of a longer identifier. *)
Theorem fix_equation_variables_replaces_occurrences
  (em : EnzymeModule) (equation_str eq1 : string) (species kf kr : dict string) :
  fix_compartments em equation_str = Ret eq1 ->
  Dict.get (em_id_map em) "species" = Some species ->
  Dict.get (em_id_map em) "kf" = Some kf ->
  Dict.get (em_id_map em) "kr" = Some kr ->
  plain_keys "species" species = true ->
  plain_keys "kf" kf = true ->
  plain_keys "kr" kr = true ->
  fix_equation_variables em equation_str
  = Ret (replace_ids kr (replace_ids kf (replace_ids species eq1)))
  /\ (forall dtype old_id new_id rest,
        plain_key dtype old_id = true -> old_id <> EmptyString ->
        fix_identifier dtype (old_id ++ rest) (old_id, new_id)
        = Ret (new_id ++ Str.replace old_id new_id rest)%string).
Proof.
  intros Hc Hs Hf Hr Ps Pf Pr. split.
  - unfold fix_equation_variables. rewrite Hc. cbn [bind for_each].
    rewrite (fix_dtype_replace _ _ _ _ Hs Ps). cbn [bind].
    rewrite (fix_dtype_replace _ _ _ _ Hf Pf). cbn [bind].
    rewrite (fix_dtype_replace _ _ _ _ Hr Pr). reflexivity.
  - intros dtype old_id new_id rest Hp Hne.
    rewrite (fix_identifier_replace _ _ _ _ Hp). now rewrite replace_hit.
Qed.

Lemma fix_equation_variables_replaces_occurrences_witness :
  fix_equation_variables pfk_forms "E_PFK(c)&atp&f6p"
  = Ret (replace_ids [] (replace_ids []
           (replace_ids [("E_PFK[c]&atp", "E_PFK_c_atp");
                         ("E_PFK[c]&atp&f6p", "E_PFK_c_atp_f6p")]
              "E_PFK[c]&atp&f6p")))
  /\ (forall dtype old_id new_id rest,
        plain_key dtype old_id = true -> old_id <> EmptyString ->
        fix_identifier dtype (old_id ++ rest) (old_id, new_id)
        = Ret (new_id ++ Str.replace old_id new_id rest)%string).
Proof.
  apply (fix_equation_variables_replaces_occurrences pfk_forms
           "E_PFK(c)&atp&f6p" "E_PFK[c]&atp&f6p"
           [("E_PFK[c]&atp", "E_PFK_c_atp"); ("E_PFK[c]&atp&f6p", "E_PFK_c_atp_f6p")]
           [] []); reflexivity.
Defined.

(** C1 as stated fails: the raw identifier of the form with one ligand is
    mapped and is a proper prefix of the identifier of the form with two
    ligands; the substitution of its pair rewrites the start of the longer
    identifier, and the whole rewriting leaves a text that is neither the
    longer identifier nor its normalized form. *)
Lemma partial_match_rewrites_longer_identifier :
  Dict.get (species_map pfk_forms) "E_PFK[c]&atp" = Some "E_PFK_c_atp"
  /\ "E_PFK[c]&atp&f6p" = ("E_PFK[c]&atp" ++ "&f6p")%string
  /\ fix_identifier "species" "E_PFK[c]&atp&f6p" ("E_PFK[c]&atp", "E_PFK_c_atp")
     = Ret "E_PFK_c_atp&f6p"
  /\ fix_equation_variables pfk_forms "E_PFK(c)&atp&f6p" = Ret "E_PFK_c_atp&f6p"
  /\ "E_PFK_c_atp&f6p" <> "E_PFK[c]&atp&f6p"
  /\ "E_PFK_c_atp&f6p" <> "E_PFK_c_atp_f6p".
Proof.
  split; [reflexivity|]. split; [reflexivity|].
  split; [vm_compute; reflexivity|]. split; [vm_compute; reflexivity|].
  split; discriminate.
Qed.


(* ===================================================================== *)
(** * The cluster index *)
(* ===================================================================== *)

Lemma py_index_nonneg {A : Type} (l : list A) (i : Z) (d : A) :
  (0 <= i < Z.of_nat (List.length l))%Z ->
  py_index l i = Ret (nth (Z.to_nat i) l d).
Proof.
  intros H. unfold py_index.
  replace (i <? 0)%Z with false by (symmetry; apply Z.ltb_ge; lia).
  replace (i <? 0)%Z with false by (symmetry; apply Z.ltb_ge; lia).
  replace (Z.of_nat (List.length l) <=? i)%Z with false
    by (symmetry; apply Z.leb_gt; lia).
  cbn [orb].
  destruct (nth_error l (Z.to_nat i)) eqn:E.
  - now rewrite (nth_error_nth _ _ d E).
  - apply nth_error_None in E. lia.
Qed.

Lemma py_index_negative {A : Type} (l : list A) (i : Z) (d : A) :
  (- Z.of_nat (List.length l) <= i < 0)%Z ->
  py_index l i = Ret (nth (Z.to_nat (i + Z.of_nat (List.length l))) l d).
Proof.
  intros H. unfold py_index.
  replace (i <? 0)%Z with true by (symmetry; apply Z.ltb_lt; lia).
  replace (i + Z.of_nat (List.length l) <? 0)%Z with false
    by (symmetry; apply Z.ltb_ge; lia).
  replace (Z.of_nat (List.length l) <=? i + Z.of_nat (List.length l))%Z with false
    by (symmetry; apply Z.leb_gt; lia).
  cbn [orb].
  destruct (nth_error l (Z.to_nat (i + Z.of_nat (List.length l)))) eqn:E.
  - now rewrite (nth_error_nth _ _ d E).
  - apply nth_error_None in E. lia.
Qed.

Lemma py_index_out_of_range {A : Type} (l : list A) (i : Z) :
  (i < - Z.of_nat (List.length l) \/ Z.of_nat (List.length l) <= i)%Z ->
  py_index l i = Raise (IndexError "list index out of range").
Proof.
  intros H. unfold py_index.
  destruct (i <? 0)%Z eqn:E.
  - apply Z.ltb_lt in E.
    replace (i + Z.of_nat (List.length l) <? 0)%Z with true
      by (symmetry; apply Z.ltb_lt; lia).
    reflexivity.
  - apply Z.ltb_ge in E.
    replace (Z.of_nat (List.length l) <=? i)%Z with true
      by (symmetry; apply Z.leb_le; lia).
    now rewrite orb_true_r.
Qed.

(** What the cluster selection does for every integer index: the lines
    1 to N are selected by their number, the indices 1-N to 0 select from
    the end of the file, and only the others are refused. *)
Lemma select_cluster_cases (lines : list string) (kcluster : Z) :
  let n := Z.of_nat (List.length lines) in
  ((1 <= kcluster <= n)%Z ->
   select_cluster lines kcluster = Ret (nth (Z.to_nat (kcluster - 1)) lines ""))
  /\ ((1 - n <= kcluster <= 0)%Z ->
      select_cluster lines kcluster
      = Ret (nth (Z.to_nat (kcluster - 1 + n)) lines ""))
  /\ ((kcluster < 1 - n \/ n < kcluster)%Z ->
      select_cluster lines kcluster = Raise (invalid_kcluster (List.length lines))).
Proof.
  intros n. unfold select_cluster. repeat split; intros H.
  - rewrite (py_index_nonneg lines (kcluster - 1) ""); [reflexivity | lia].
  - rewrite (py_index_negative lines (kcluster - 1) ""); [reflexivity | lia].
  - rewrite py_index_out_of_range; [reflexivity | lia].
Qed.

(** C3: on a cluster file of three lines the index 0 selects the last
    line and the index -2 the first one, without any error; the index 2
    selects the second line and the index 5 is refused with the message
    naming the range from 1 to 3. *)
Theorem select_cluster_nonpositive_index :
  select_cluster three_clusters 0 = Ret (line "{5.0, 6.0}")
  /\ select_cluster three_clusters (-2) = Ret (line "{1.0, 2.0}")
  /\ select_cluster three_clusters 2 = Ret (line "{3.0, 4.0}")
  /\ select_cluster three_clusters 5
     = Raise (IndexError "Invalid kcluster. Must be an int between [1, 3], ").
Proof.
  pose proof (select_cluster_cases three_clusters 0) as [_ [H0 _]].
  pose proof (select_cluster_cases three_clusters (-2)) as [_ [H2 _]].
  pose proof (select_cluster_cases three_clusters 2) as [H1 _].
  pose proof (select_cluster_cases three_clusters 5) as [_ [_ H5]].
  cbn in H0, H1, H2, H5.
  split; [apply H0; lia|]. split; [apply H2; lia|].
  split; [apply H1; lia | apply H5; lia].
Qed.

(* ===================================================================== *)
(** * The total-enzyme solve *)
(* ===================================================================== *)

Lemma pop_last_app {A : Type} (front : list A) (x : A) :
  pop_last (front ++ [x]) = Ret x.
Proof.
  induction front as [|a front IH]; [reflexivity|].
  cbn [app pop_last]. destruct (front ++ [x]) eqn:E; [|exact IH].
  destruct front; discriminate.
Qed.

Lemma list_last_cases {A : Type} (l : list A) :
  l = [] \/ exists front x, l = front ++ [x].
Proof.
  destruct l as [|a l]; [now left | right].
  destruct (exists_last (l := a :: l)) as [front [x H]]; [discriminate|].
  now exists front, x.
Qed.

(** C2 (as amended): the total-enzyme solve raises an IndexError when
    the symbolic solve lists no solution; when it lists one solution or
    several, its outcome is the one of the conversion to a float of the
    last solution listed, a return or the error of that conversion.  So
    it returns a value exactly when there is a last solution and the
    conversion of it returns that value; the number of solutions is never
    looked at. *)
Theorem calculate_enzyme_total_takes_last_solution
  {L : SympyLib} (em : EnzymeModule) (rate_equation : expr)
  (concentrations : dict PyFloat.float) (flux : PyFloat.float) (sols : list number) :
  solutions rate_equation concentrations flux (enzyme_total_symbol_str em) = Ret sols ->
  (sols = [] ->
   calculate_enzyme_total em rate_equation concentrations flux
   = Raise (IndexError "pop from empty list"))
  /\ (forall front x, sols = front ++ [x] ->
      calculate_enzyme_total em rate_equation concentrations flux = to_float x)
  /\ (forall v,
        calculate_enzyme_total em rate_equation concentrations flux = Ret v
        <-> exists front x, sols = front ++ [x] /\ to_float x = Ret v).
Proof.
  intros Hs. unfold calculate_enzyme_total. rewrite Hs. cbn [bind].
  split; [|split].
  - intros ->. reflexivity.
  - intros front x ->. rewrite pop_last_app. reflexivity.
  - intros v. destruct (list_last_cases sols) as [->|[front [x ->]]].
    + split; [discriminate|]. intros [front [x [H _]]].
      destruct front; discriminate.
    + rewrite pop_last_app. cbn [bind]. split.
      * intros H. exists front, x. now split.
      * intros [front' [x' [H Hv]]]. apply app_inj_tail in H as [_ <-]. exact Hv.
Qed.

Lemma calculate_enzyme_total_takes_last_solution_witness :
  calculate_enzyme_total (bare_module "PFK") (Roots []) [] (PyFloat.of_Z 1)
  = Raise (IndexError "pop from empty list")
  /\ calculate_enzyme_total (bare_module "PFK") (Roots [Real 4]) [] (PyFloat.of_Z 1)
     = Ret (PyFloat.of_Z 4)
  /\ calculate_enzyme_total (bare_module "PFK") (Roots [Real 4; NonReal]) []
       (PyFloat.of_Z 1)
     = Raise TypeError.
Proof.
  split; [|split].
  - apply (calculate_enzyme_total_takes_last_solution (L := toy_sympy)
             (bare_module "PFK") (Roots []) [] (PyFloat.of_Z 1) []);
      reflexivity.
  - apply (proj1 (proj2 (calculate_enzyme_total_takes_last_solution (L := toy_sympy)
                    (bare_module "PFK") (Roots [Real 4]) [] (PyFloat.of_Z 1)
                    [Real 4] eq_refl)) [] (Real 4)).
    reflexivity.
  - apply (proj1 (proj2 (calculate_enzyme_total_takes_last_solution (L := toy_sympy)
                    (bare_module "PFK") (Roots [Real 4; NonReal]) []
                    (PyFloat.of_Z 1) [Real 4; NonReal] eq_refl))
             [Real 4] NonReal).
    reflexivity.
Defined.

(** C2 as stated fails: when the symbolic solve lists two solutions the
    total-enzyme solve returns the second one and raises nothing. *)
Lemma two_solutions_are_not_an_error :
  solutions (Roots [Real 1; Real 2]) [] (PyFloat.of_Z 1)
    (enzyme_total_symbol_str (bare_module "PFK")) = Ret [Real 1; Real 2]
  /\ calculate_enzyme_total (bare_module "PFK") (Roots [Real 1; Real 2]) []
       (PyFloat.of_Z 1)
     = Ret (PyFloat.of_Z 2).
Proof. split; reflexivity. Qed.

(* ===================================================================== *)
(** * The zero clamp *)
(* ===================================================================== *)

Lemma SFcompare_antisym (x y : spec_float) :
  SFcompare x y = option_map CompOpp (SFcompare y x).
Proof.
  destruct x as [sx|sx| |sx mx ex], y as [sy|sy| |sy my ey]; cbn;
    try reflexivity;
    try (destruct sx; reflexivity);
    try (destruct sy; reflexivity);
    try (destruct sx, sy; reflexivity).
  assert (Hm : Pos.compare_cont Eq mx my = CompOpp (Pos.compare_cont Eq my mx))
    by (symmetry; apply (Pos.compare_cont_antisym my mx Eq)).
  destruct sx, sy; try reflexivity; f_equal;
    rewrite (Z.compare_antisym ey ex), Hm;
    destruct (ey ?= ex)%Z; cbn; try reflexivity;
    destruct (Pos.compare_cont Eq my mx); reflexivity.
Qed.

Lemma ltb_leb (x y : PyFloat.float) :
  PyFloat.ltb x y = true -> PyFloat.leb x y = true.
Proof.
  unfold PyFloat.ltb, PyFloat.leb, SFltb, SFleb.
  destruct (SFcompare x y) as [[| |]|]; congruence.
Qed.

Lemma ltb_not_leb (x y : PyFloat.float) :
  PyFloat.ltb y x = true -> PyFloat.leb x y = false.
Proof.
  unfold PyFloat.ltb, PyFloat.leb, SFltb, SFleb.
  rewrite (SFcompare_antisym x y).
  destruct (SFcompare y x) as [[| |]|]; cbn; congruence.
Qed.

(** C9 (as amended): when the equation text is corrected, parsed and
    evaluated to the number [ic], the per-form solve stores on the enzyme
    form the integer 0 if the magnitude of [ic] is below the tolerance;
    if the magnitude is above the tolerance it stores [ic] itself when
    [ic] is not negative, and it raises the ValueError of the setter,
    which refuses negative numbers, when [ic] is negative. *)
Theorem steady_state_concentration_is_clamped
  {L : SympyLib} (em : EnzymeModule) (eq_file : string) (specie : Specie)
  (concentrations : dict PyFloat.float) (zero_tol : PyFloat.float)
  (ss_eq : string) (e : expr) (ic : PyFloat.float) :
  fix_equation_variables em eq_file = Ret ss_eq ->
  sympify ss_eq = Ret e ->
  evaluate e concentrations
    [((em_id em ++ "_Total")%string, em_enzyme_concentration_total em)] = Ret ic ->
  (PyFloat.ltb (PyFloat.abs ic) zero_tol = true ->
   exists specie',
     steady_state_concentrations_from_txt em eq_file specie concentrations zero_tol
     = Ret specie'
     /\ sp_id specie' = sp_id specie
     /\ sp_ic specie' = Some (PyInt 0))
  /\ (PyFloat.ltb zero_tol (PyFloat.abs ic) = true ->
      PyFloat.ltb ic (S754_zero false) = false ->
      exists specie',
        steady_state_concentrations_from_txt em eq_file specie concentrations zero_tol
        = Ret specie'
        /\ sp_id specie' = sp_id specie
        /\ sp_ic specie' = Some (PyFloat ic))
  /\ (PyFloat.ltb zero_tol (PyFloat.abs ic) = true ->
      PyFloat.ltb ic (S754_zero false) = true ->
      steady_state_concentrations_from_txt em eq_file specie concentrations zero_tol
      = Raise ValueError).
Proof.
  intros Hfix Hsym Hev. unfold steady_state_concentrations_from_txt.
  rewrite Hfix. cbn [bind]. rewrite Hsym. cbn [bind]. rewrite Hev. cbn [bind].
  unfold set_ic, clamp. split; [|split].
  - intros Hlt. rewrite (ltb_leb _ _ Hlt). cbn [is_negative Z.ltb Z.compare].
    eexists. split; [reflexivity|]. split; reflexivity.
  - intros Hlt Hpos. rewrite (ltb_not_leb _ _ Hlt). cbn [is_negative].
    rewrite Hpos. eexists. split; [reflexivity|]. split; reflexivity.
  - intros Hlt Hneg. rewrite (ltb_not_leb _ _ Hlt). cbn [is_negative].
    rewrite Hneg. reflexivity.
Qed.

(** A solve that yields 3e-16 under the tolerance 1e-15 stores 0, in a
    module whose total enzyme concentration is known. *)
Lemma steady_state_concentration_is_clamped_witness :
  exists specie' tol,
    PyFloat.of_string "1e-15" = Ret tol
    /\ steady_state_concentrations_from_txt (L := toy_sympy) pfk_with_total
         "3e-16" free_enzyme [] tol = Ret specie'
    /\ sp_ic specie' = Some (PyInt 0).
Proof.
  destruct (proj1 (steady_state_concentration_is_clamped (L := toy_sympy)
              pfk_with_total "3e-16" free_enzyme []
              (S754_finite false 5070602400912918 (-102))
              "3e-16" (Const (S754_finite false 6084722881095501 (-104)))
              (S754_finite false 6084722881095501 (-104))
              eq_refl eq_refl eq_refl) eq_refl) as [specie' [Hret [_ Hic]]].
  exists specie', (S754_finite false 5070602400912918 (-102)).
  split; [reflexivity|]. split; [exact Hret | exact Hic].
Defined.

(** C9 as stated fails: a solve that yields -2.5, whose magnitude exceeds
    the tolerance 1e-15, does not store it: the setter of the initial
    concentration refuses the negative number with a ValueError. *)
Lemma negative_concentration_is_refused :
  exists tol ic,
    PyFloat.of_string "1e-15" = Ret tol
    /\ PyFloat.of_string "-2.5" = Ret ic
    /\ @evaluate toy_sympy (Const ic) []
         [("PFK_Total", em_enzyme_concentration_total pfk_with_total)] = Ret ic
    /\ PyFloat.ltb tol (PyFloat.abs ic) = true
    /\ steady_state_concentrations_from_txt (L := toy_sympy) pfk_with_total
         "-2.5" free_enzyme [] tol = Raise ValueError.
Proof.
  eexists. eexists. split; [vm_compute; reflexivity|].
  split; [vm_compute; reflexivity|]. split; [reflexivity|].
  split; vm_compute; reflexivity.
Qed.

(* ===================================================================== *)
(** * The reaction loader and the identifier map *)
(* ===================================================================== *)

Lemma dict_get_set_other {V : Type} (d : dict V) (k k' : string) (v : V) :
  k' <> k -> Dict.get (Dict.set d k v) k' = Dict.get d k'.
Proof.
  intros Hne. induction d as [|[k0 v0] d IH]; cbn.
  - destruct (String.eqb_spec k' k); [congruence | reflexivity].
  - destruct (String.eqb_spec k k0) as [->|Hk]; cbn.
    + destruct (String.eqb_spec k' k0); [congruence | reflexivity].
    + destruct (String.eqb_spec k' k0); [reflexivity | exact IH].
Qed.

Lemma dict_get_set_same {V : Type} (d : dict V) (k : string) (v : V) :
  Dict.get (Dict.set d k v) k = Some v.
Proof.
  induction d as [|[k0 v0] d IH]; cbn.
  - now rewrite String.eqb_refl.
  - destruct (String.eqb_spec k k0) as [->|Hk]; cbn.
    + now rewrite String.eqb_refl.
    + destruct (String.eqb_spec k k0); [congruence | exact IH].
Qed.

Lemma id_map_add_reaction (em : EnzymeModule) (r : Reaction) :
  em_id_map (add_reaction em r) = em_id_map em.
Proof. unfold add_reaction. destruct (has_reaction _ _); reflexivity. Qed.

Lemma species_list_of_tokens (reaction_str : string) (l : list string) :
  species_list_of reaction_str = Ret l -> l = formula_tokens reaction_str.
Proof.
  unfold species_list_of, formula_tokens, iconcat.
  destruct (map _ _) as [|a [|b [|c t]]]; try discriminate.
  intros [= <-]. cbn. now rewrite app_nil_r.
Qed.

Lemma species_list_of_total (reaction_str : string) :
  (exists l, species_list_of reaction_str = Ret l)
  \/ species_list_of reaction_str = Raise TypeError.
Proof.
  unfold species_list_of, iconcat.
  destruct (map _ _) as [|a [|b [|c t]]]; eauto.
Qed.

(** A pass over the tokens that returns has found every token in the
    identifier map. *)
Lemma for_each_fix_specie_ret (id_map : dict (dict string)) (tokens : list string)
  (s s' : string) :
  for_each (fix_specie id_map) tokens s = Ret s' ->
  forall t, In t tokens ->
  exists species new_id,
    Dict.get id_map "species" = Some species /\ Dict.get species t = Some new_id.
Proof.
  revert s; induction tokens as [|t0 tokens IH]; intros s H t Hin; [contradiction|].
  cbn [for_each] in H. unfold fix_specie at 1 in H. unfold Dict.item in H.
  destruct (Dict.get id_map "species") as [species|] eqn:Hs; [|discriminate].
  cbn [bind] in H.
  destruct (Dict.get species t0) as [new0|] eqn:Ht0; [|discriminate].
  cbn [bind] in H.
  destruct Hin as [<-|Hin]; [eauto|].
  destruct (Re.compile (escape_brackets t0)) as [r| |]; try discriminate.
  cbn [bind] in H.
  destruct (Re.sub r new0 (Some 1) s) as [s1| |]; try discriminate.
  cbn [bind] in H. exact (IH _ H _ Hin).
Qed.

(** Within the interpreted fragment, a pass over tokens of which one is
    missing from the identifier map raises. *)
Lemma for_each_fix_specie_raises (id_map : dict (dict string)) (species : dict string)
  (tokens : list string) (s token : string) :
  Dict.get id_map "species" = Some species ->
  In token tokens -> Dict.get species token = None ->
  tokens_in_fragment species tokens ->
  raises (for_each (fix_specie id_map) tokens s).
Proof.
  intros Hs Hin Hmiss Hfr. revert s.
  induction tokens as [|t0 tokens IH]; intros s; [contradiction|].
  apply Forall_cons_iff in Hfr as [[Hp Ht] Hfr].
  cbn [for_each]. unfold fix_specie at 1. unfold Dict.item. rewrite Hs. cbn [bind].
  destruct (Dict.get species t0) as [new0|] eqn:Ht0.
  - cbn [bind]. unfold Re.compile. rewrite (literal_text_escape_brackets _ Hp).
    cbn [bind]. unfold Re.sub, Re.template.
    specialize (Ht _ eq_refl). unfold plain_template in Ht.
    apply negb_true_iff in Ht. rewrite Ht. cbn [bind].
    destruct Hin as [->|Hin]; [congruence|]. apply IH; assumption.
  - cbn [bind]. eexists; reflexivity.
Qed.

Lemma species_map_get (em : EnzymeModule) (species : dict string) :
  Dict.get (em_id_map em) "species" = Some species -> species_map em = species.
Proof. unfold species_map. now intros ->. Qed.

Lemma build_in_module_id_map (em em' : EnzymeModule) (attached : bool) (id : string)
  (ps : list (string * Z)) :
  build_in_module em attached id ps = Done em' -> em_id_map em' = em_id_map em.
Proof.
  unfold build_in_module. destruct attached.
  - intros [= <-]. reflexivity.
  - destruct ps; [intros [= <-]; reflexivity | discriminate].
Qed.

(** A step of the reaction loader leaves the species entry of the
    identifier map as it was. *)
Lemma reaction_step_species_map (em em' : EnzymeModule) (reaction_line : string) :
  reaction_step em reaction_line = Done em' -> species_map em' = species_map em.
Proof.
  unfold reaction_step.
  destruct (Str.split ": " reaction_line) as [|o [|f [|x t]]]; try discriminate.
  destruct (Re.sub dollar_re "_" None o) as [id1| |]; try discriminate.
  cbn [within].
  destruct (species_list_of f) as [l| |]; try discriminate. cbn [within].
  destruct (for_each _ l f) as [fixed| |]; try discriminate. cbn [within].
  destruct (build_reaction_from_string fixed) as [ps| |]; try discriminate.
  cbn [within].
  destruct (build_in_module _ _ _ ps) as [em2| |] eqn:Hb; try discriminate.
  cbn [then_run]. apply build_in_module_id_map in Hb.
  destruct (Dict.item _ "reactions") as [rs| |]; try discriminate. cbn [within].
  intros [= <-]. unfold species_map. cbn [em_id_map with_id_map].
  rewrite dict_get_set_other by discriminate.
  now rewrite Hb, id_map_add_reaction.
Qed.

Lemma reaction_step_ret_tokens (em em' : EnzymeModule)
  (reaction_line orig_id reaction_str : string) :
  Str.split ": " reaction_line = [orig_id; reaction_str] ->
  reaction_step em reaction_line = Done em' ->
  forall t, In t (formula_tokens reaction_str) ->
  exists new_id, Dict.get (species_map em) t = Some new_id.
Proof.
  intros Hsplit. unfold reaction_step. rewrite Hsplit.
  destruct (Re.sub dollar_re "_" None orig_id) as [id1| |]; try discriminate.
  cbn [within].
  destruct (species_list_of reaction_str) as [l| |] eqn:Hl; try discriminate.
  cbn [within]. apply species_list_of_tokens in Hl. subst l.
  destruct (for_each _ _ reaction_str) as [fixed| |] eqn:Hf; try discriminate.
  intros _ t Hin.
  destruct (for_each_fix_specie_ret _ _ _ _ Hf t Hin) as [sp [new_id [Hs Ht]]].
  rewrite id_map_add_reaction in Hs.
  exists new_id. now rewrite (species_map_get _ _ Hs).
Qed.

(** A loop that ends normally has run its body, from a state satisfying
    any invariant of the body, on each of its elements. *)
Lemma run_each_done_inv {A S : Type} (body : S -> A -> run S) (P : S -> Prop)
  (xs : list A) (acc r : S) (x : A) :
  (forall a y a', P a -> body a y = Done a' -> P a') ->
  P acc -> run_each body xs acc = Done r -> In x xs ->
  exists a a', P a /\ body a x = Done a'.
Proof.
  intros Hinv. revert acc. induction xs as [|y xs IH]; intros acc HP H Hin.
  - contradiction.
  - cbn [run_each] in H. destruct (body acc y) as [a1| |] eqn:Hb; try discriminate.
    cbn [then_run] in H. destruct Hin as [->|Hin].
    + eauto.
    + exact (IH a1 (Hinv _ _ _ HP Hb) H Hin).
Qed.

(** C4: a reaction line whose formula holds a species token that the
    identifier map lacks is never turned into a reaction: the step of the
    reaction loader on that line does not end normally, nor does the loader
    on a file that holds the line, and the step is stopped by an exception
    whenever the tokens of the line are free of pattern operators. *)
Theorem missing_species_token_is_fatal
  (em : EnzymeModule) (reaction_line orig_id reaction_str token : string) :
  Str.split ": " reaction_line = [orig_id; reaction_str] ->
  In token (formula_tokens reaction_str) ->
  Dict.get (species_map em) token = None ->
  (forall em', reaction_step em reaction_line <> Done em')
  /\ (forall file em',
        In reaction_line (map Str.strip file) ->
        reactions_from_txt em file <> Done em')
  /\ (tokens_in_fragment (species_map em) (formula_tokens reaction_str) ->
      stops (reaction_step em reaction_line)).
Proof.
  intros Hsplit Hin Hmiss. split; [|split].
  - intros em' Hret.
    destruct (reaction_step_ret_tokens _ _ _ _ _ Hsplit Hret _ Hin) as [n Hn].
    congruence.
  - intros file em' Hline Hret. unfold reactions_from_txt in Hret.
    assert (Hinv : forall a y a', species_map a = species_map em ->
                                  reaction_step a y = Done a' ->
                                  species_map a' = species_map em).
    { intros a y a' Ha Hy. now rewrite (reaction_step_species_map _ _ _ Hy). }
    assert (H0 : species_map (with_id_map em (Dict.set (em_id_map em) "reactions" []))
                 = species_map em).
    { unfold species_map. cbn [em_id_map with_id_map].
      now rewrite dict_get_set_other by discriminate. }
    destruct (run_each_done_inv reaction_step
                (fun a => species_map a = species_map em) _ _ _ reaction_line
                Hinv H0 Hret Hline) as [a [a' [Ha Hstep]]].
    destruct (reaction_step_ret_tokens _ _ _ _ _ Hsplit Hstep _ Hin) as [n Hn].
    rewrite Ha in Hn. congruence.
  - intros Hfr. unfold reaction_step. rewrite Hsplit.
    change (Re.sub dollar_re "_" None orig_id)
      with (Ret (Re.sub_fn dollar_re "_" None orig_id)).
    cbn [within].
    destruct (species_list_of_total reaction_str) as [[l Hl]|Hl]; rewrite Hl;
      cbn [within]; [|eexists; eexists; reflexivity].
    apply species_list_of_tokens in Hl. subst l.
    rewrite id_map_add_reaction.
    destruct (Dict.get (em_id_map em) "species") as [species|] eqn:Hs.
    + rewrite (species_map_get _ _ Hs) in *.
      destruct (for_each_fix_specie_raises _ _ _ reaction_str _ Hs Hin Hmiss Hfr)
        as [e He].
      rewrite He. eexists; eexists; reflexivity.
    + destruct (formula_tokens reaction_str) as [|t0 ts]; [contradiction|].
      cbn [for_each]. unfold fix_specie at 1. unfold Dict.item. rewrite Hs.
      eexists; eexists; reflexivity.
Qed.

Lemma missing_species_token_is_fatal_witness :
  (forall em',
     reaction_step two_species_module "R1: atp_c + 2pg_c <=> adp_c" <> Done em')
  /\ (forall file em',
        In "R1: atp_c + 2pg_c <=> adp_c" (map Str.strip file) ->
        reactions_from_txt two_species_module file <> Done em')
  /\ (tokens_in_fragment (species_map two_species_module)
        (formula_tokens "atp_c + 2pg_c <=> adp_c") ->
      stops (reaction_step two_species_module "R1: atp_c + 2pg_c <=> adp_c")).
Proof.
  apply (missing_species_token_is_fatal two_species_module
           "R1: atp_c + 2pg_c <=> adp_c" "R1" "atp_c + 2pg_c <=> adp_c" "adp_c").
  - reflexivity.
  - simpl. right; right; left; reflexivity.
  - reflexivity.
Defined.

(* ===================================================================== *)
(** * The round trip of the two loaders *)
(* ===================================================================== *)

(** C5 as stated fails: on the species file of the example, which lacks
    the product adp_c, the reaction loader is stopped by a KeyError and
    the reaction it leaves in the module has no participants. *)
Lemma round_trip_example_raises :
  exists em,
    load_species_then_reactions "PFK" two_species_file r1_file
    = Ret (Stopped (KeyError "adp_c") em)
    /\ em_reactions em = [{| r_id := "R1"; r_participants := [] |}].
Proof. eexists. split; vm_compute; reflexivity. Qed.

(** C5 (as amended): with the product listed in the species file, the two
    loaders produce the reaction R1 whose participants are exactly atp_c,
    _2pg_c and adp_c; on the species file that lists only atp_c and 2pg_c
    the reaction loader is stopped by a KeyError for adp_c, and the
    reaction R1 that it had registered stays in the module with no
    participants. *)
Theorem round_trip_with_all_species (enzyme_id : string) :
  (exists em,
     load_species_then_reactions enzyme_id three_species_file r1_file
     = Ret (Done em)
     /\ em_reactions em
        = [{| r_id := "R1";
              r_participants :=
                [("atp_c", (-1)%Z); ("_2pg_c", (-1)%Z); ("adp_c", 1%Z)] |}]
     /\ species_map em
        = [("atp_c", "atp_c"); ("2pg_c", "_2pg_c"); ("adp_c", "adp_c")])
  /\ (exists em,
        load_species_then_reactions enzyme_id two_species_file r1_file
        = Ret (Stopped (KeyError "adp_c") em)
        /\ em_reactions em = [{| r_id := "R1"; r_participants := [] |}]).
Proof.
  split.
  - eexists. split; [|split]; vm_compute; reflexivity.
  - eexists. split; vm_compute; reflexivity.
Qed.

(* ===================================================================== *)
(** * The compartment pattern *)
(* ===================================================================== *)

Lemma run_rep_lstrip {R : Type} (p : ascii -> bool) (s : string)
  (k : string -> option R) :
  (forall a t, p a = true -> k (String a t) = None) ->
  Re.run_rep p s k = k (Str.lstrip_by p s).
Proof.
  intros Hk. induction s as [|a s IH]; [reflexivity|].
  cbn [Re.run_rep Str.lstrip_by]. destruct (p a) eqn:Hp; [|reflexivity].
  rewrite IH. destruct (k (Str.lstrip_by p s)); [reflexivity|].
  now apply Hk.
Qed.

Lemma run_cat {R : Type} (r1 r2 : Re.regex) (n0 : nat) (s : string)
  (cs : Re.captures) (k : string -> Re.captures -> option R) :
  Re.run (Re.Cat r1 r2) n0 s cs k
  = Re.run r1 n0 s cs (fun s1 cs1 => Re.run r2 n0 s1 cs1 k).
Proof. reflexivity. Qed.

Lemma run_rep_class {R : Type} (c : Re.cclass) (n0 : nat) (s : string)
  (cs : Re.captures) (k : string -> Re.captures -> option R) :
  Re.run (Re.Rep c) n0 s cs k = Re.run_rep (Re.in_class c) s (fun s' => k s' cs).
Proof. reflexivity. Qed.

Lemma run_bracket {R : Type} (n0 : nat) (s : string) (cs : Re.captures)
  (k : string -> Re.captures -> option R) :
  Re.run (Re.Cat (Re.Chr "[") (Re.Cat (Re.Grp 1 (Re.Cls Re.Alpha)) (Re.Chr "]")))
    n0 s cs k
  = match bracket_at s with
    | Some (a, rest) => k rest ((1, letter a) :: cs)
    | None => None
    end.
Proof.
  destruct s as [|b [|a [|d rest]]]; cbn [Re.run bracket_at Re.in_class].
  - reflexivity.
  - destruct (Ascii.eqb "[" b); reflexivity.
  - destruct (Ascii.eqb "[" b); [|reflexivity]. cbn [andb].
    destruct (Str.is_alpha a); reflexivity.
  - destruct (Ascii.eqb "[" b); [|reflexivity]. cbn [andb].
    destruct (Str.is_alpha a); [|reflexivity]. cbn [andb].
    destruct (Ascii.eqb "]" d); [|reflexivity].
    cbn [String.length].
    replace (S (S (String.length rest)) - S (String.length rest)) with 1 by lia.
    reflexivity.
Qed.

Lemma bracket_at_space (a : ascii) (t : string) :
  Str.is_space a = true -> bracket_at (String a t) = None.
Proof.
  intros Ha. destruct t as [|x [|y t]]; cbn [bracket_at]; try reflexivity.
  destruct (Ascii.eqb_spec "[" a) as [<-|]; [discriminate | reflexivity].
Qed.

Lemma bracket_at_length (s : string) (a : ascii) (rest : string) :
  bracket_at s = Some (a, rest) ->
  s = String "[" (String a (String "]" rest)) /\ Str.is_alpha a = true.
Proof.
  destruct s as [|b [|x [|d t]]]; cbn [bracket_at]; try discriminate.
  destruct (Ascii.eqb_spec "[" b) as [<-|]; [|discriminate]. cbn [andb].
  destruct (Str.is_alpha x) eqn:Hx; [|discriminate]. cbn [andb].
  destruct (Ascii.eqb_spec "]" d) as [<-|]; [|discriminate].
  intros [= <- <-]. now split.
Qed.

Lemma length_lstrip_le (p : ascii -> bool) (s : string) :
  String.length (Str.lstrip_by p s) <= String.length s.
Proof.
  induction s as [|a s IH]; cbn; [lia|]. destruct (p a); cbn; lia.
Qed.

(** The compartment pattern at the front of a text: white space is passed
    over, then a bracketed letter must follow. *)
Lemma match_at_compartment (n0 : nat) (adv : bool) (s : string) :
  Re.match_at compartment_finder_re n0 adv s
  = match bracket_at (Str.lstrip_by Str.is_space s) with
    | Some (a, rest) => Some (String.length s - String.length rest, [(1, letter a)])
    | None => None
    end.
Proof.
  unfold Re.match_at, compartment_finder_re.
  rewrite run_cat, run_rep_class.
  rewrite run_rep_lstrip.
  - rewrite run_bracket. change (Re.in_class Re.Space) with Str.is_space.
    destruct (bracket_at (Str.lstrip_by Str.is_space s)) as [[a rest]|] eqn:Hb;
      [|reflexivity].
    apply bracket_at_length in Hb as [Hb _].
    pose proof (length_lstrip_le Str.is_space s) as Hle. rewrite Hb in Hle.
    cbn [String.length] in Hle.
    replace (Nat.eqb (String.length s - String.length rest) 0) with false
      by (symmetry; apply Nat.eqb_neq; lia).
    now rewrite andb_false_r.
  - intros a t Ha. rewrite run_bracket. cbn [Re.in_class] in Ha.
    now rewrite (bracket_at_space _ _ Ha).
Qed.

(** Every group found by the compartment pattern is one letter. *)
Lemma groups1_compartment (n0 : nat) (cnt : option nat) (skip : nat) (s : string) :
  Forall (fun g => exists a, g = letter a /\ Str.is_alpha a = true)
    (Re.groups1 (Re.scan compartment_finder_re n0 cnt skip s)).
Proof.
  revert cnt skip. induction s as [|c s IH]; intros cnt skip.
  - cbn [Re.scan]. destruct skip; [|constructor].
    destruct (Re.exhausted cnt); [constructor|].
    rewrite match_at_compartment. cbn. constructor.
  - cbn [Re.scan]. destruct skip as [|k]; [|apply IH].
    destruct (Re.exhausted cnt); [cbn [Re.groups1]; apply IH|].
    rewrite !match_at_compartment.
    destruct (bracket_at _) as [[a rest]|] eqn:Hb; [|cbn [Re.groups1]; apply IH].
    apply bracket_at_length in Hb as [_ Ha].
    destruct (String.length (String c s) - String.length rest) as [|l].
    + cbn [Re.groups1]. constructor; [exists a; now split|].
      destruct (Re.exhausted (Re.spend cnt)); cbn [Re.groups1]; apply IH.
    + cbn [Re.groups1]. constructor; [exists a; now split | apply IH].
Qed.

Lemma findall1_compartment_letters (s : string) :
  Forall (fun g => exists a, g = letter a /\ Str.is_alpha a = true)
    (Re.findall1 compartment_finder_re s).
Proof. apply groups1_compartment. Qed.

Lemma remove_first_Forall (P : string -> Prop) (x : string) (l : list string) :
  Forall P l -> Forall P (remove_first x l).
Proof.
  induction 1 as [|y l Hy Hl IH]; cbn; [constructor|].
  destruct (String.eqb x y); [assumption | now constructor].
Qed.

Lemma remaining_compartments_letters (orig_id : string) :
  Forall (fun g => exists a, g = letter a /\ Str.is_alpha a = true)
    (remaining_compartments orig_id).
Proof.
  unfold remaining_compartments.
  destruct (isomer_of _); [apply remove_first_Forall|];
    apply findall1_compartment_letters.
Qed.

Lemma template_letter (a : ascii) :
  Str.is_alpha a = true -> Re.template ("_" ++ letter a) = Ret ("_" ++ letter a)%string.
Proof.
  intros Ha.
  assert (Hb : Ascii.eqb "\" a = false)
    by (destruct (Ascii.eqb_spec "\" a) as [<-|]; [discriminate | reflexivity]).
  unfold Re.template, letter. cbn [Str.contains Str.starts_with String.append].
  rewrite Hb. reflexivity.
Qed.

Lemma isomer_of_cases (found : list string) (isomer : string) :
  isomer_of found = Some isomer -> isomer = "D" \/ isomer = "L".
Proof.
  unfold isomer_of. destruct (str_in "D" found); [intros [= <-]; now left|].
  destruct (str_in "L" found); [intros [= <-]; now right | discriminate].
Qed.

(** The isomer step: the bracketed isomer letter is rewritten wherever it
    stands, and one occurrence of it leaves the letters found. *)
Lemma correct_isomer_spec (orig_id : string) :
  correct_isomer orig_id
  = Ret (match isomer_of (Re.findall1 compartment_finder_re orig_id) with
         | Some isomer =>
             Str.replace ("[" ++ isomer ++ "]") ("_" ++ isomer) orig_id
         | None => orig_id
         end, remaining_compartments orig_id).
Proof.
  unfold correct_isomer, remaining_compartments.
  destruct (isomer_of _) as [isomer|] eqn:Hi; [|reflexivity].
  destruct (isomer_of_cases _ _ Hi) as [-> | ->].
  - change (Re.compile ("\[" ++ "D" ++ "\]")) with (Ret (Re.lit "[D]")).
    cbn [bind].
    change (Re.sub (Re.lit "[D]") ("_" ++ "D") None orig_id)
      with (Ret (Re.sub_fn (Re.lit "[D]") "_D" None orig_id)).
    cbn [bind]. now rewrite sub_fn_lit.
  - change (Re.compile ("\[" ++ "L" ++ "\]")) with (Ret (Re.lit "[L]")).
    cbn [bind].
    change (Re.sub (Re.lit "[L]") ("_" ++ "L") None orig_id)
      with (Ret (Re.sub_fn (Re.lit "[L]") "_L" None orig_id)).
    cbn [bind]. now rewrite sub_fn_lit.
Qed.

Lemma correct_compartment_spec (new_id : string) (remaining : list string) :
  Forall (fun g => exists a, g = letter a /\ Str.is_alpha a = true) remaining ->
  correct_compartment new_id remaining
  = Ret (match remaining with
         | [c] => (Re.sub_fn compartment_finder_re ("_" ++ c) None new_id, CStr c)
         | _ => (new_id, CList remaining)
         end).
Proof.
  intros H. unfold correct_compartment.
  destruct remaining as [|c [|c' t]]; try reflexivity.
  apply Forall_inv in H as [a [-> Ha]].
  unfold Re.sub. now rewrite (template_letter _ Ha).
Qed.

(** The identifier corrections always return. *)
Lemma normalize_id_spec (orig_id : string) :
  normalize_id orig_id
  = let spliced :=
      match isomer_of (Re.findall1 compartment_finder_re orig_id) with
      | Some isomer => Str.replace ("[" ++ isomer ++ "]") ("_" ++ isomer) orig_id
      | None => orig_id
      end in
    Ret (match remaining_compartments orig_id with
         | [c] => (prefix_number_id
                     (Re.sub_fn compartment_finder_re ("_" ++ c) None spliced),
                   CStr c)
         | l => (prefix_number_id spliced, CList l)
         end).
Proof.
  unfold normalize_id. rewrite correct_isomer_spec. cbn [bind].
  rewrite (correct_compartment_spec _ _ (remaining_compartments_letters orig_id)).
  cbn [bind]. destruct (remaining_compartments orig_id) as [|c [|c' t]]; reflexivity.
Qed.

Lemma scan_skip_all (r : Re.regex) (n0 : nat) (cnt : option nat) (a rest : string) :
  Re.scan r n0 cnt (String.length a) (a ++ rest) = Re.scan r n0 cnt 0 rest.
Proof.
  induction a as [|c a IH]; [reflexivity|].
  cbn [String.length String.append Re.scan]. exact IH.
Qed.

Lemma bracket_at_other (c : ascii) (t : string) :
  Ascii.eqb "[" c = false -> bracket_at (String c t) = None.
Proof.
  intros Hc. destruct t as [|x [|y t]]; cbn [bracket_at]; try reflexivity.
  now rewrite Hc.
Qed.

Lemma bracket_at_lstrip_tail (base : string) (a : ascii) :
  no_bracket base = true -> Str.is_alpha a = true ->
  bracket_at (Str.lstrip_by Str.is_space (base ++ bracketed a))
  = if all_chars Str.is_space base then Some (a, EmptyString) else None.
Proof.
  intros Hb Ha. induction base as [|c base IH].
  - cbn [String.append Str.lstrip_by bracketed all_chars].
    change (Str.is_space "[") with false. cbn iota.
    cbn [bracket_at]. rewrite Ha. reflexivity.
  - unfold no_bracket in *. cbn [all_chars] in Hb.
    apply andb_true_iff in Hb as [Hc Hb]. apply negb_true_iff in Hc.
    cbn [String.append Str.lstrip_by all_chars].
    destruct (Str.is_space c); cbn [andb].
    + exact (IH Hb).
    + now apply bracket_at_other.
Qed.

(** In a text without an opening bracket followed by one bracketed
    letter, the compartment pattern finds that letter and nothing else. *)
Lemma groups1_bracketed_tail (n0 : nat) (base : string) (a : ascii) :
  no_bracket base = true -> Str.is_alpha a = true ->
  Re.groups1 (Re.scan compartment_finder_re n0 None 0 (base ++ bracketed a))
  = [letter a].
Proof.
  intros Hb Ha. induction base as [|c base IH].
  - unfold bracketed. cbn [String.append Re.scan Re.exhausted].
    rewrite match_at_compartment.
    pose proof (bracket_at_lstrip_tail "" a eq_refl Ha) as Hm.
    unfold bracketed in Hm. cbn [String.append all_chars] in Hm. rewrite Hm.
    cbn [String.length Nat.sub Re.spend Re.scan Re.exhausted Re.groups1 Re.group
         Nat.eqb].
    rewrite match_at_compartment. reflexivity.
  - assert (Hb' : no_bracket base = true).
    { unfold no_bracket in *. cbn [all_chars] in Hb.
      now apply andb_true_iff in Hb as [_ Hb]. }
    cbn [String.append Re.scan Re.exhausted].
    rewrite match_at_compartment.
    pose proof (bracket_at_lstrip_tail (String c base) a Hb Ha) as Hm.
    cbn [String.append] in Hm. rewrite Hm.
    destruct (all_chars Str.is_space (String c base)).
    + cbn [String.length Nat.sub Re.spend Re.groups1 Re.group Nat.eqb].
      try rewrite Nat.sub_0_r.
      rewrite <- (append_nil_r (base ++ bracketed a)) at 2.
      rewrite scan_skip_all.
      cbn [Re.scan Re.exhausted]. rewrite match_at_compartment. reflexivity.
    + cbn [Re.groups1]. exact (IH Hb').
Qed.

Lemma findall1_bracketed_tail (base : string) (a : ascii) :
  no_bracket base = true -> Str.is_alpha a = true ->
  Re.findall1 compartment_finder_re (base ++ bracketed a) = [letter a].
Proof. intros. now apply groups1_bracketed_tail. Qed.

(** [str.replace] passes over characters that cannot start an
    occurrence. *)
Lemma replace_from_other (o : ascii) (old new base rest : string) :
  all_chars (fun c => negb (Ascii.eqb o c)) base = true ->
  Str.replace_from (String o old) new 0 (base ++ rest)
  = (base ++ Str.replace_from (String o old) new 0 rest)%string.
Proof.
  intros Hb. induction base as [|c base IH]; [reflexivity|].
  cbn [all_chars] in Hb. apply andb_true_iff in Hb as [Hc Hb].
  apply negb_true_iff in Hc.
  cbn [String.append Str.replace_from Str.starts_with]. rewrite Hc. cbn [andb].
  now rewrite (IH Hb).
Qed.

Lemma replace_bracketed_tail (base : string) (a : ascii) (new : string) :
  no_bracket base = true ->
  Str.replace (bracketed a) new (base ++ bracketed a) = (base ++ new)%string.
Proof.
  intros Hb. unfold Str.replace, bracketed.
  rewrite (replace_from_other _ _ _ _ _ Hb).
  pose proof (replace_hit (bracketed a) new "") as H.
  unfold Str.replace, bracketed in H. cbn [String.append] in H.
  rewrite H by discriminate. cbn [Str.replace_from]. now rewrite append_nil_r.
Qed.

(** C6 (as amended): when a bracketed D or L is among the bracketed
    letters of a raw identifier (D having precedence), the normalizer
    rewrites every bracket of that one letter into the name as an
    underscore and the letter, and takes one occurrence of it out of the
    list of letters found; a compartment is set, and the brackets left
    rewritten, only when exactly one letter is left in that list,
    otherwise the letters left stay a list.  So an identifier that ends in
    the bracketed isomer letter and has no other bracket ends in the
    underscore and the letter and gets no compartment. *)
Theorem isomer_letter_is_spliced (orig_id isomer : string) :
  isomer_of (Re.findall1 compartment_finder_re orig_id) = Some isomer ->
  let spliced := Str.replace ("[" ++ isomer ++ "]") ("_" ++ isomer) orig_id in
  let remaining := remove_first isomer (Re.findall1 compartment_finder_re orig_id) in
  (isomer = "D" \/ isomer = "L")
  /\ correct_isomer orig_id = Ret (spliced, remaining)
  /\ (forall c, remaining = [c] ->
        normalize_id orig_id
        = Ret (prefix_number_id
                 (Re.sub_fn compartment_finder_re ("_" ++ c) None spliced),
               CStr c))
  /\ (List.length remaining <> 1 ->
      normalize_id orig_id = Ret (prefix_number_id spliced, CList remaining))
  /\ (forall base, no_bracket base = true ->
        orig_id = (base ++ "[" ++ isomer ++ "]")%string ->
        normalize_id orig_id
        = Ret (prefix_number_id (base ++ "_" ++ isomer), CList [])).
Proof.
  intros Hi spliced remaining.
  assert (Hrem : remaining_compartments orig_id = remaining).
  { unfold remaining_compartments. now rewrite Hi. }
  split; [exact (isomer_of_cases _ _ Hi)|].
  split; [rewrite correct_isomer_spec, Hi, Hrem; reflexivity|].
  split; [|split].
  - intros c Hc. rewrite normalize_id_spec, Hi, Hrem, Hc. reflexivity.
  - intros Hlen. rewrite normalize_id_spec, Hi, Hrem.
    destruct remaining as [|c [|c' t]]; try reflexivity. now cbn in Hlen.
  - intros base Hb Ho.
    assert (Hf : remaining = []
                 /\ spliced = (base ++ "_" ++ isomer)%string).
    { unfold remaining, spliced.
      destruct (isomer_of_cases _ _ Hi) as [-> | ->]; subst orig_id.
      - change (base ++ "[" ++ "D" ++ "]")%string with (base ++ bracketed "D")%string.
        rewrite (findall1_bracketed_tail base "D" Hb eq_refl). split; [reflexivity|].
        exact (replace_bracketed_tail base "D" "_D" Hb).
      - change (base ++ "[" ++ "L" ++ "]")%string with (base ++ bracketed "L")%string.
        rewrite (findall1_bracketed_tail base "L" Hb eq_refl). split; [reflexivity|].
        exact (replace_bracketed_tail base "L" "_L" Hb). }
    destruct Hf as [Hr Hs].
    rewrite normalize_id_spec, Hi, Hrem, Hr. cbn zeta. fold spliced. now rewrite Hs.
Qed.

Lemma isomer_letter_is_spliced_witness :
  normalize_id "glc[D][c]" = Ret ("glc_D_c", CStr "c")
  /\ normalize_id "ala[L]" = Ret ("ala_L", CList [])
  /\ normalize_id "2dglc[D]" = Ret ("_2dglc_D", CList []).
Proof.
  split; [|split].
  - exact (proj1 (proj2 (proj2 (isomer_letter_is_spliced "glc[D][c]" "D" eq_refl)))
             "c" eq_refl).
  - exact (proj2 (proj2 (proj2 (proj2
             (isomer_letter_is_spliced "ala[L]" "L" eq_refl)))) "ala" eq_refl eq_refl).
  - exact (proj2 (proj2 (proj2 (proj2
             (isomer_letter_is_spliced "2dglc[D]" "D" eq_refl)))) "2dglc" eq_refl eq_refl).
Defined.

(** C6 as stated fails: the letters left are counted in the list of
    letters found, not in the text.  With a bracketed D and a bracketed L
    the isomer letter L is taken as the compartment; with two bracketed D
    both are spliced and D is the compartment although no bracket is
    left; with a third bracket the isomer letter L stays bracketed. *)
Lemma isomer_letter_taken_as_compartment :
  normalize_id "x[D][L]" = Ret ("x_D_L", CStr "L")
  /\ normalize_id "y[D][D]" = Ret ("y_D_D", CStr "D")
  /\ normalize_id "x[D][L][c]" = Ret ("x_D[L][c]", CList ["L"; "c"]).
Proof. repeat split; vm_compute; reflexivity. Qed.

(* ===================================================================== *)
(** * Bound ligands and the compartment *)
(* ===================================================================== *)

Lemma match_at_bound (n0 : nat) (adv : bool) (s : string) :
  Re.match_at bound_metabolites_re n0 adv s
  = match s with
    | String c _ => if is_delimiter c then Some (1, []) else None
    | EmptyString => None
    end.
Proof.
  unfold Re.match_at, bound_metabolites_re, is_delimiter. destruct s as [|c s].
  - reflexivity.
  - cbn [Re.run String.length].
    replace (S (String.length s) - String.length s) with 1 by lia.
    rewrite andb_false_r.
    destruct (Ascii.eqb "&" c); [reflexivity|].
    destruct (Ascii.eqb "@" c); [reflexivity|].
    destruct (Ascii.eqb "#" c); reflexivity.
Qed.

Lemma cut_nonempty (ps : list Re.piece) : Re.cut ps <> [].
Proof.
  induction ps as [|[c|t cs] ps IH]; cbn [Re.cut]; try discriminate.
  destruct (Re.cut ps); discriminate.
Qed.

(** A text in which a delimiter is found splits in two pieces at least. *)
Lemma split_bound_two (n0 : nat) (s : string) :
  Re.search_from bound_metabolites_re n0 s <> None ->
  exists h x t, Re.cut (Re.scan bound_metabolites_re n0 None 0 s) = h :: x :: t.
Proof.
  induction s as [|c s IH]; intros Hs.
  - cbn [Re.search_from] in Hs. rewrite match_at_bound in Hs. congruence.
  - cbn [Re.search_from] in Hs. cbn [Re.scan Re.exhausted].
    rewrite match_at_bound in *. destruct (is_delimiter c).
    + cbn [Re.cut Re.spend].
      destruct (Re.cut (Re.scan bound_metabolites_re n0 None 0 s)) as [|x t] eqn:E.
      * now apply cut_nonempty in E.
      * eauto.
    + destruct (IH Hs) as [h [x [t E]]]. cbn [Re.cut]. rewrite E. eauto.
Qed.

Lemma has_bound_split (new_id : string) :
  has_bound new_id = true ->
  exists x t, tl (Re.split bound_metabolites_re new_id) = x :: t.
Proof.
  unfold has_bound, Re.search, Re.split, Re.pieces. intros H.
  destruct (split_bound_two (String.length new_id) new_id) as [h [x [t E]]].
  - destruct (Re.search_from _ _ _); [discriminate | discriminate].
  - rewrite E. cbn [tl]. eauto.
Qed.

Lemma for_each_bound_step_str (c : string) (frags : list string) (acc : dict nat) :
  exists bound, for_each (bound_step (CStr c)) frags acc = Ret bound.
Proof.
  revert acc. induction frags as [|f frags IH]; intros acc; cbn [for_each].
  - eauto.
  - unfold bound_step at 1. cbn [add_compartment bind]. apply IH.
Qed.

Lemma for_each_bound_step_none (frags : list string) (acc : dict nat) :
  exists bound, for_each (bound_step CNone) frags acc = Ret bound.
Proof.
  revert acc. induction frags as [|f frags IH]; intros acc; cbn [for_each].
  - eauto.
  - unfold bound_step at 1. cbn [add_compartment bind]. apply IH.
Qed.

Lemma sub_bound_returns (new_id : string) :
  Re.sub bound_metabolites_re "_" None new_id
  = Ret (Re.sub_fn bound_metabolites_re "_" None new_id).
Proof. reflexivity. Qed.

(** The outcome of a species line once its identifier is corrected. *)
Lemma make_specie_bound (enzyme_id orig_id new_id : string) (comp : compartment) :
  normalize_id orig_id = Ret (new_id, comp) ->
  is_form_id enzyme_id new_id = true ->
  has_bound new_id = true ->
  match comp with
  | CList _ => make_specie enzyme_id orig_id = Raise TypeError
  | CStr _ | CNone => returns (make_specie enzyme_id orig_id)
  end.
Proof.
  intros Hn Hf Hb. unfold make_specie. rewrite Hn. cbn [bind]. rewrite Hf, Hb.
  destruct comp as [l|c|].
  - destruct (has_bound_split _ Hb) as [x [t ->]]. reflexivity.
  - destruct (for_each_bound_step_str c (tl (Re.split bound_metabolites_re new_id)) [])
      as [bound ->].
    cbn [bind]. rewrite sub_bound_returns. cbn [bind]. eexists; reflexivity.
  - destruct (for_each_bound_step_none (tl (Re.split bound_metabolites_re new_id)) [])
      as [bound ->].
    cbn [bind]. rewrite sub_bound_returns. cbn [bind]. eexists; reflexivity.
Qed.

Lemma make_specie_outcome (enzyme_id orig_id : string) :
  returns (make_specie enzyme_id orig_id)
  \/ make_specie enzyme_id orig_id = Raise TypeError.
Proof.
  unfold make_specie. rewrite normalize_id_spec. cbn zeta.
  set (p := match remaining_compartments orig_id with [c] => _ | _ => _ end).
  destruct p as [new_id comp]. cbn [bind].
  destruct (is_form_id enzyme_id new_id); [|left; eexists; reflexivity].
  destruct (has_bound new_id); [|left; eexists; reflexivity].
  destruct comp as [l|c|].
  - destruct (tl (Re.split bound_metabolites_re new_id)) as [|x t].
    + cbn [for_each bind]. rewrite sub_bound_returns. left; eexists; reflexivity.
    + right. reflexivity.
  - destruct (for_each_bound_step_str c (tl (Re.split bound_metabolites_re new_id)) [])
      as [bound ->].
    cbn [bind]. rewrite sub_bound_returns. left; eexists; reflexivity.
  - destruct (for_each_bound_step_none (tl (Re.split bound_metabolites_re new_id)) [])
      as [bound ->].
    cbn [bind]. rewrite sub_bound_returns. left; eexists; reflexivity.
Qed.

(** A loop whose body either returns or raises one given exception
    raises that exception when the body raises it on one element whatever
    the state. *)
Lemma for_each_raises {A S : Type} (body : S -> A -> outcome S) (e : exn)
  (xs : list A) (x0 : A) (acc : S) :
  (forall a x, returns (body a x) \/ body a x = Raise e) ->
  In x0 xs -> (forall a, body a x0 = Raise e) ->
  for_each body xs acc = Raise e.
Proof.
  intros Hall Hin Hx0. revert acc. induction xs as [|x xs IH]; intros acc.
  - contradiction.
  - cbn [for_each]. destruct Hin as [->|Hin].
    + now rewrite Hx0.
    + destruct (Hall acc x) as [[a' ->] | ->]; [cbn [bind]; now apply IH | reflexivity].
Qed.

Lemma species_step_outcome (enzyme_id : string) (acc : list Specie * dict string)
  (orig_id : string) :
  returns (species_step enzyme_id acc orig_id)
  \/ species_step enzyme_id acc orig_id = Raise TypeError.
Proof.
  unfold species_step.
  destruct (make_specie_outcome enzyme_id orig_id) as [[[sp new_id] ->] | ->].
  - left. eexists; reflexivity.
  - right. reflexivity.
Qed.

(** C10: for a species line whose corrected identifier starts with the
    prefix of the module's enzyme forms and holds a bound-ligand delimiter,
    the compartment is a string exactly when one bracketed letter is left
    after the isomer step.  If the number of letters left is not one, the
    line raises a TypeError (a list is concatenated to a string), and so
    does the species loader on any file that holds the line; if exactly one
    is left, the line produces its enzyme form. *)
Theorem bound_form_needs_one_compartment
  (enzyme_id orig_id new_id : string) (comp : compartment) :
  normalize_id orig_id = Ret (new_id, comp) ->
  is_form_id enzyme_id new_id = true ->
  has_bound new_id = true ->
  (List.length (remaining_compartments orig_id) <> 1 ->
   comp = CList (remaining_compartments orig_id)
   /\ make_specie enzyme_id orig_id = Raise TypeError
   /\ forall em file,
        em_id em = enzyme_id -> In orig_id (map Str.strip file) ->
        metabolites_from_txt em file = Raise TypeError)
  /\ (forall c, remaining_compartments orig_id = [c] ->
        comp = CStr c
        /\ exists specie form_id,
             make_specie enzyme_id orig_id = Ret (specie, form_id)
             /\ sp_is_form specie = true /\ sp_compartment specie = CStr c).
Proof.
  intros Hn Hf Hb.
  pose proof (make_specie_bound _ _ _ _ Hn Hf Hb) as Hm.
  pose proof Hn as Hspec. rewrite normalize_id_spec in Hspec. cbn zeta in Hspec.
  split.
  - intros Hlen.
    assert (Hc : comp = CList (remaining_compartments orig_id)).
    { destruct (remaining_compartments orig_id) as [|c [|c' t]];
        cbn in Hlen; congruence. }
    rewrite Hc in Hm. split; [exact Hc|]. split; [exact Hm|].
    intros em file Hid Hin. unfold metabolites_from_txt. rewrite Hid.
    rewrite (for_each_raises (species_step enzyme_id) TypeError
               (map Str.strip file) orig_id ([], [])).
    + reflexivity.
    + intros a x. apply species_step_outcome.
    + exact Hin.
    + intros a. unfold species_step. now rewrite Hm.
  - intros c Hc. rewrite Hc in Hspec.
    assert (Hcomp : comp = CStr c) by congruence.
    split; [exact Hcomp|]. subst comp.
    unfold make_specie in *. rewrite Hn in *. cbn [bind] in *. rewrite Hf, Hb in *.
    destruct (for_each_bound_step_str c (tl (Re.split bound_metabolites_re new_id)) [])
      as [bound ->].
    cbn [bind]. rewrite sub_bound_returns. cbn [bind].
    eexists. eexists. split; [reflexivity|]. split; reflexivity.
Qed.

Lemma bound_form_needs_one_compartment_witness :
  make_specie "PFK" "E_PFK&atp" = Raise TypeError
  /\ metabolites_from_txt (new_module "PFK") [line "atp[c]"; line "E_PFK&atp"]
     = Raise TypeError
  /\ make_specie "PFK" "E_PFK[c][e]&atp" = Raise TypeError
  /\ exists specie form_id,
       make_specie "PFK" "E_PFK[c]&atp" = Ret (specie, form_id)
       /\ sp_is_form specie = true /\ sp_compartment specie = CStr "c".
Proof.
  pose proof (bound_form_needs_one_compartment "PFK" "E_PFK&atp" "E_PFK&atp"
                (CList []) eq_refl eq_refl eq_refl) as [H0 _].
  pose proof (bound_form_needs_one_compartment "PFK" "E_PFK[c][e]&atp"
                "E_PFK[c][e]&atp" (CList ["c"; "e"]) eq_refl eq_refl eq_refl)
    as [H2 _].
  pose proof (bound_form_needs_one_compartment "PFK" "E_PFK[c]&atp" "E_PFK_c&atp"
                (CStr "c") eq_refl eq_refl eq_refl) as [_ H1].
  destruct (H0 ltac:(discriminate)) as [_ [Hm0 Hf0]].
  destruct (H2 ltac:(discriminate)) as [_ [Hm2 _]].
  destruct (H1 "c" eq_refl) as [_ Hm1].
  split; [exact Hm0|]. split; [|split; [exact Hm2 | exact Hm1]].
  apply Hf0; [reflexivity|]. right; left; reflexivity.
Defined.

Lemma all_chars_app (p : ascii -> bool) (a b : string) :
  all_chars p (a ++ b) = all_chars p a && all_chars p b.
Proof.
  induction a as [|c a IH]; cbn [String.append all_chars]; [reflexivity|].
  now rewrite IH, andb_assoc.
Qed.



Lemma replace_from_cons (old new : string) (c : ascii) (s : string) :
  Str.replace_from old new 0 (String c s)
  = if Str.starts_with old (String c s)
    then match String.length old with
         | 0 => (new ++ String c (Str.replace_from old new 0 s))%string
         | S k => (new ++ Str.replace_from old new k s)%string
         end
    else String c (Str.replace_from old new 0 s).
Proof. reflexivity. Qed.

Lemma starts_with_cons (a b : ascii) (p s : string) :
  Str.starts_with (String a p) (String b s) = Ascii.eqb a b && Str.starts_with p s.
Proof. reflexivity. Qed.







(* ===================================================================== *)
(** * Symmetry groups *)
(* ===================================================================== *)









(* ===================================================================== *)
(** * Rate constants *)
(* ===================================================================== *)














(* ===================================================================== *)
(** * Symmetry groups in the rate constant loader *)
(* ===================================================================== *)








Section Unification.

Context {M : MassLib}.

(** The library unifies the rates of the reactions it is given and of no
    other reaction. *)
Hypothesis unify_other :
  forall (e : EnzymeModule) (l : list Reaction) (rid id : string),
    ~ In id (map r_id l) ->
    Dict.get (em_custom_rates (unify_rate_parameters e l rid)) id
    = Dict.get (em_custom_rates e) id.



End Unification.







(* ===================================================================== *)
(** * Identifiers that start with a digit *)
(* ===================================================================== *)

Lemma match_leading_digit (s : string) :
  Re.match_ leading_digit_re s
  = if starts_with_digit s then Some (1, []) else None.
Proof.
  unfold Re.match_, Re.match_at, leading_digit_re. cbn [Re.run].
  rewrite Nat.eqb_refl. destruct s as [|c s]; [reflexivity|].
  cbn [starts_with_digit Re.in_class String.length].
  destruct (Str.is_digit c); [|reflexivity].
  replace (S (String.length s) - String.length s) with 1 by lia. reflexivity.
Qed.

(** [prefix_number_id] by cases on the first character. *)
Lemma prefix_number_id_eq (id_str : string) :
  prefix_number_id id_str
  = if starts_with_digit id_str then ("_" ++ id_str)%string else id_str.
Proof.
  unfold prefix_number_id. rewrite match_leading_digit.
  destruct (starts_with_digit id_str); reflexivity.
Qed.

Lemma prefix_number_id_digit_free (id_str : string) :
  starts_with_digit (prefix_number_id id_str) = false.
Proof.
  rewrite prefix_number_id_eq.
  destruct (starts_with_digit id_str) eqn:E; [reflexivity | exact E].
Qed.

(** X1: [prefix_number_id] puts an underscore in front of an identifier
    that starts with a digit and returns any other identifier as it is;
    its result never starts with a digit, and applying it again changes
    nothing. *)
Theorem prefix_number_id_no_leading_digit (id_str : string) :
  (starts_with_digit id_str = true ->
   prefix_number_id id_str = ("_" ++ id_str)%string)
  /\ (starts_with_digit id_str = false -> prefix_number_id id_str = id_str)
  /\ starts_with_digit (prefix_number_id id_str) = false
  /\ prefix_number_id (prefix_number_id id_str) = prefix_number_id id_str.
Proof.
  pose proof (prefix_number_id_eq id_str) as H.
  pose proof (prefix_number_id_digit_free id_str) as Hd.
  split; [intros E; now rewrite H, E|].
  split; [intros E; now rewrite H, E|].
  split; [exact Hd|].
  rewrite (prefix_number_id_eq (prefix_number_id id_str)), Hd. reflexivity.
Qed.

(* ===================================================================== *)
(** * More on the equation rewriting *)
(* ===================================================================== *)

Lemma replace_from_absent (old new s : string) :
  Str.contains old s = false -> Str.replace_from old new 0 s = s.
Proof.
  induction s as [|c s IH]; intros H.
  - cbn in H. destruct old; [discriminate | reflexivity].
  - cbn [Str.contains] in H. apply orb_false_iff in H as [Hs Hc].
    rewrite replace_from_cons, Hs, (IH Hc). reflexivity.
Qed.

(** Replacing a text that does not occur changes nothing. *)
Lemma replace_absent (old new s : string) :
  Str.contains old s = false -> Str.replace old new s = s.
Proof. apply replace_from_absent. Qed.

Lemma drop_nil (n : nat) : Str.drop n EmptyString = EmptyString.
Proof. destruct n; reflexivity. Qed.

Lemma replace_from_same (p : string) (k : nat) (s : string) :
  Str.replace_from p p k s = Str.drop k s.
Proof.
  revert k. induction s as [|c s IH]; intros k.
  - rewrite drop_nil. cbn. destruct k, p; reflexivity.
  - destruct k as [|k]; [|exact (IH k)].
    rewrite replace_from_cons. cbn [Str.drop].
    destruct (Str.starts_with p (String c s)) eqn:Hp.
    + destruct p as [|a p].
      * cbn. now rewrite IH.
      * cbn [String.length]. rewrite IH.
        pose proof (starts_with_inv _ _ Hp) as E. cbn [String.length Str.drop] in E.
        now rewrite <- E.
    + now rewrite IH.
Qed.

(** Replacing a text by itself changes nothing. *)
Lemma replace_same (p s : string) : Str.replace p p s = s.
Proof. apply replace_from_same. Qed.

Lemma plain_app (a b : string) : plain (a ++ b) = plain a && plain b.
Proof. apply all_chars_app. Qed.

Lemma literal_text_app_plain (a b : string) :
  plain a = true ->
  Re.literal_text (a ++ b) = option_map (String.append a) (Re.literal_text b).
Proof.
  intros Ha. induction a as [|c a IH].
  - cbn. destruct (Re.literal_text b); reflexivity.
  - unfold plain in *. cbn [all_chars] in Ha.
    apply andb_true_iff in Ha as [Hc Ha]. apply negb_true_iff in Hc.
    cbn [String.append Re.literal_text].
    rewrite (not_meta_not_backslash _ Hc), Hc, (IH Ha).
    destruct (Re.literal_text b); reflexivity.
Qed.

Lemma compile_parenthesised (cid : string) :
  plain cid = true ->
  Re.compile ("\(" ++ cid ++ "\)") = Ret (Re.lit ("(" ++ cid ++ ")")).
Proof.
  intros Hc. unfold Re.compile.
  change ("\(" ++ cid ++ "\)")%string with (String "\" (String "(" (cid ++ "\)"))).
  cbn [Re.literal_text]. change (Ascii.eqb "\" "\") with true.
  change (Str.is_alnum "(") with false. cbn iota.
  rewrite (literal_text_app_plain _ _ Hc). reflexivity.
Qed.

Lemma compile_plain (p : string) : plain p = true -> Re.compile p = Ret (Re.lit p).
Proof. intros H. unfold Re.compile. now rewrite literal_text_plain. Qed.

Lemma plain_no_backslash (s : string) :
  plain s = true -> Str.contains "\" s = false.
Proof.
  induction s as [|c s IH]; [reflexivity|]. unfold plain in *. cbn [all_chars].
  intros H. apply andb_true_iff in H as [Hc Hs]. apply negb_true_iff in Hc.
  cbn [Str.contains Str.starts_with]. rewrite (IH Hs), orb_false_r, andb_true_r.
  rewrite Ascii.eqb_sym. now apply not_meta_not_backslash.
Qed.

Lemma sub_plain (p repl s : string) :
  plain repl = true ->
  Re.sub (Re.lit p) repl None s = Ret (Str.replace p repl s).
Proof.
  intros Hr. unfold Re.sub, Re.template. rewrite (plain_no_backslash _ Hr).
  cbn [bind]. now rewrite sub_fn_lit.
Qed.

(** X2: for a compartment identifier and a module identifier free of
    pattern operators, the corrections made for the compartment are three
    plain text replacements one after the other: the parenthesised
    compartment becomes the bracketed one, the volume parameter becomes 1
    and the total-enzyme parameter becomes the module's symbol.  The two
    membership tests of the source change nothing. *)
Theorem fix_compartment_is_three_replacements
  (em : EnzymeModule) (equation_str cid : string) :
  plain cid = true -> plain (em_id em) = true ->
  fix_compartment em equation_str cid
  = Ret (replace_compartment em equation_str cid).
Proof.
  intros Hc Hid. unfold fix_compartment, replace_compartment.
  rewrite (compile_parenthesised _ Hc). cbn [bind]. rewrite sub_fn_lit.
  set (eq1 := Str.replace ("(" ++ cid ++ ")") ("[" ++ cid ++ "]") equation_str).
  assert (Hv : plain ("param_Volume_" ++ cid) = true)
    by (rewrite plain_app, Hc; reflexivity).
  assert (Ht : plain ("param_" ++ em_id em ++ "_total") = true)
    by (rewrite !plain_app, Hid; reflexivity).
  assert (Hs : plain (enzyme_total_symbol_str em) = true)
    by (unfold enzyme_total_symbol_str; rewrite plain_app, Hid; reflexivity).
  assert (E2 : (if Str.contains ("param_Volume_" ++ cid) eq1
                then r <- Re.compile ("param_Volume_" ++ cid) ;; Re.sub r "1" None eq1
                else Ret eq1)
               = Ret (Str.replace ("param_Volume_" ++ cid) "1" eq1)).
  { destruct (Str.contains ("param_Volume_" ++ cid) eq1) eqn:E.
    - rewrite (compile_plain _ Hv). cbn [bind]. now apply sub_plain.
    - now rewrite (replace_absent _ _ _ E). }
  rewrite E2. cbn [bind].
  set (eq2 := Str.replace ("param_Volume_" ++ cid) "1" eq1).
  destruct (Str.contains ("param_" ++ em_id em ++ "_total") eq2) eqn:E.
  - rewrite (compile_plain _ Ht). cbn [bind]. now apply sub_plain.
  - now rewrite (replace_absent _ _ _ E).
Qed.

Lemma fix_compartment_is_three_replacements_witness :
  fix_compartment cytosol_module
    "param_PFK_total*atp(c)/param_Volume_c" "c"
  = Ret "PFK_Total*atp[c]/1".
Proof.
  exact (fix_compartment_is_three_replacements cytosol_module
           "param_PFK_total*atp(c)/param_Volume_c" "c" eq_refl eq_refl).
Defined.

(** X3: the rewriting needs the species, kf and kr entries of the
    identifier map, in that order: once the compartments are corrected, the
    first of the three that the map lacks is reported by a KeyError (so an
    equation cannot be corrected before the rate constants are loaded). *)
Theorem fix_equation_variables_missing_map
  (em : EnzymeModule) (equation_str eq1 : string) :
  fix_compartments em equation_str = Ret eq1 ->
  (Dict.get (em_id_map em) "species" = None ->
   fix_equation_variables em equation_str = Raise (KeyError "species"))
  /\ (forall species,
        Dict.get (em_id_map em) "species" = Some species ->
        plain_keys "species" species = true ->
        Dict.get (em_id_map em) "kf" = None ->
        fix_equation_variables em equation_str = Raise (KeyError "kf"))
  /\ (forall species kf,
        Dict.get (em_id_map em) "species" = Some species ->
        plain_keys "species" species = true ->
        Dict.get (em_id_map em) "kf" = Some kf ->
        plain_keys "kf" kf = true ->
        Dict.get (em_id_map em) "kr" = None ->
        fix_equation_variables em equation_str = Raise (KeyError "kr")).
Proof.
  intros Hc. unfold fix_equation_variables. rewrite Hc. cbn [bind for_each].
  split; [|split].
  - intros Hs. unfold fix_dtype at 1, Dict.item. now rewrite Hs.
  - intros species Hs Ps Hf.
    rewrite (fix_dtype_replace _ _ _ _ Hs Ps). cbn [bind].
    unfold fix_dtype at 1, Dict.item. now rewrite Hf.
  - intros species kf Hs Ps Hf Pf Hr.
    rewrite (fix_dtype_replace _ _ _ _ Hs Ps). cbn [bind].
    rewrite (fix_dtype_replace _ _ _ _ Hf Pf). cbn [bind].
    unfold fix_dtype at 1, Dict.item. now rewrite Hr.
Qed.

Lemma fix_equation_variables_missing_map_witness :
  fix_equation_variables species_only_module "2pg(c)*k_R1_fwd"
  = Raise (KeyError "kf").
Proof.
  exact (proj1 (proj2 (fix_equation_variables_missing_map species_only_module
                         "2pg(c)*k_R1_fwd" "2pg[c]*k_R1_fwd" eq_refl))
           [("2pg[c]", "_2pg_c")] eq_refl eq_refl eq_refl).
Defined.

Lemma replace_ids_identity (ids : dict string) (s : string) :
  identity_ids ids = true -> replace_ids ids s = s.
Proof.
  revert s. induction ids as [|[o n] ids IH]; intros s H; [reflexivity|].
  unfold identity_ids in *. cbn [forallb fst snd] in H.
  apply andb_true_iff in H as [Ho Hs]. apply String.eqb_eq in Ho. subst n.
  unfold replace_ids. cbn [fold_left fst snd]. rewrite replace_same.
  exact (IH s Hs).
Qed.

(** X4: when the module has no compartment and every identifier of the
    three maps stands for itself (and is free of pattern operators), the
    rewriting returns the equation text unchanged. *)
Theorem fix_equation_variables_identity
  (em : EnzymeModule) (equation_str : string) (species kf kr : dict string) :
  compartments em = Ret [] ->
  Dict.get (em_id_map em) "species" = Some species ->
  Dict.get (em_id_map em) "kf" = Some kf ->
  Dict.get (em_id_map em) "kr" = Some kr ->
  plain_keys "species" species = true ->
  plain_keys "kf" kf = true ->
  plain_keys "kr" kr = true ->
  identity_ids species = true -> identity_ids kf = true -> identity_ids kr = true ->
  fix_equation_variables em equation_str = Ret equation_str.
Proof.
  intros Hc Hs Hf Hr Ps Pf Pr Is If Ir.
  unfold fix_equation_variables, fix_compartments. rewrite Hc. cbn [bind for_each].
  rewrite (fix_dtype_replace _ _ _ _ Hs Ps). cbn [bind].
  rewrite (fix_dtype_replace _ _ _ _ Hf Pf). cbn [bind].
  rewrite (fix_dtype_replace _ _ _ _ Hr Pr). cbn [bind].
  now rewrite (replace_ids_identity _ _ Is), (replace_ids_identity _ _ If),
    (replace_ids_identity _ _ Ir).
Qed.

Lemma fix_equation_variables_identity_witness :
  fix_equation_variables identity_module "kf_R1*atp_c - adp_c"
  = Ret "kf_R1*atp_c - adp_c".
Proof.
  exact (fix_equation_variables_identity identity_module "kf_R1*atp_c - adp_c"
           [("atp_c", "atp_c"); ("adp_c", "adp_c")] [("kf_R1", "kf_R1")] []
           eq_refl eq_refl eq_refl eq_refl eq_refl eq_refl eq_refl
           eq_refl eq_refl eq_refl).
Defined.

(* ===================================================================== *)
(** * Malformed reaction lines *)
(* ===================================================================== *)

(** A text in which the separator does not occur is not split. *)
Lemma split_absent (sep s : string) :
  Str.contains sep s = false -> Str.split sep s = [s].
Proof.
  unfold Str.split. induction s as [|c s IH]; intros H; [reflexivity|].
  cbn [Str.contains] in H. apply orb_false_iff in H as [Hs Hc].
  cbn [Str.split_from]. rewrite Hs, (IH Hc). reflexivity.
Qed.

Lemma run_each_never_done {A S : Type} (body : S -> A -> run S)
  (xs : list A) (x : A) (acc : S) :
  In x xs -> (forall a a', body a x <> Done a') ->
  forall r, run_each body xs acc <> Done r.
Proof.
  intros Hin Hx r H.
  destruct (run_each_done_inv body (fun _ => True) xs acc r x) as [a [a' [_ Ha]]];
    auto.
  exact (Hx a a' Ha).
Qed.

(** X5: a line of the reaction file in which a colon followed by a space
    does not occur (a blank line, for one) makes the step raise a
    ValueError, before anything is done to the module, and the loader
    never returns on a file that holds such a line. *)
Theorem reaction_line_without_separator (em : EnzymeModule) (reaction_line : string) :
  Str.contains ": " reaction_line = false ->
  reaction_step em reaction_line = Stopped ValueError em
  /\ (forall em0 file em',
        In reaction_line (map Str.strip file) ->
        reactions_from_txt em0 file <> Done em').
Proof.
  intros H.
  assert (Hstep : forall a, reaction_step a reaction_line = Stopped ValueError a).
  { intros a. unfold reaction_step. now rewrite (split_absent _ _ H). }
  split; [apply Hstep|].
  intros em0 file em' Hin. unfold reactions_from_txt.
  apply (run_each_never_done reaction_step _ reaction_line); [exact Hin|].
  intros a a'. rewrite Hstep. discriminate.
Qed.

Lemma reaction_line_without_separator_witness :
  reaction_step three_species_module EmptyString
  = Stopped ValueError three_species_module
  /\ (forall em0 file em',
        In EmptyString (map Str.strip file) -> reactions_from_txt em0 file <> Done em').
Proof.
  exact (reaction_line_without_separator three_species_module EmptyString eq_refl).
Defined.

Lemma sub_dollar_returns (orig_id : string) :
  Re.sub dollar_re "_" None orig_id = Ret (Re.sub_fn dollar_re "_" None orig_id).
Proof. reflexivity. Qed.

(** X6: a reaction line whose formula holds no reversible arrow between
    spaces makes the step raise a TypeError (the concatenation of the two
    sides gets one argument), whatever the identifier map holds, once the
    reaction is registered in the module without participants, and the
    loader never returns on a file that holds such a line. *)
Theorem reaction_formula_without_arrow
  (em : EnzymeModule) (reaction_line orig_id reaction_str : string) :
  Str.split ": " reaction_line = [orig_id; reaction_str] ->
  Str.contains " <=> " (Str.strip reaction_str) = false ->
  reaction_step em reaction_line
  = Stopped TypeError
      (add_reaction em {| r_id := normalize_reaction_id orig_id;
                          r_participants := [] |})
  /\ (forall em0 file em',
        In reaction_line (map Str.strip file) ->
        reactions_from_txt em0 file <> Done em').
Proof.
  intros Hsplit Harrow.
  assert (Hstep : forall a,
             reaction_step a reaction_line
             = Stopped TypeError
                 (add_reaction a {| r_id := normalize_reaction_id orig_id;
                                    r_participants := [] |})).
  { intros a. unfold reaction_step. rewrite Hsplit, sub_dollar_returns.
    cbn [within]. unfold species_list_of. rewrite (split_absent _ _ Harrow).
    reflexivity. }
  split; [apply Hstep|].
  intros em0 file em' Hin. unfold reactions_from_txt.
  apply (run_each_never_done reaction_step _ reaction_line); [exact Hin|].
  intros a a'. rewrite Hstep. discriminate.
Qed.

Lemma reaction_formula_without_arrow_witness :
  reaction_step three_species_module "R1: atp_c + 2pg_c --> adp_c"
  = Stopped TypeError
      (add_reaction three_species_module
         {| r_id := "R1"; r_participants := [] |}).
Proof.
  exact (proj1 (reaction_formula_without_arrow three_species_module
                  "R1: atp_c + 2pg_c --> adp_c" "R1" "atp_c + 2pg_c --> adp_c"
                  eq_refl eq_refl)).
Defined.

(* ===================================================================== *)
(** * The identifiers of the reactions *)
(* ===================================================================== *)

Lemma match_at_dollar (n0 : nat) (adv : bool) (s : string) :
  Re.match_at dollar_re n0 adv s
  = match s with
    | String c _ => if Ascii.eqb "$" c then Some (1, []) else None
    | EmptyString => None
    end.
Proof.
  unfold Re.match_at, dollar_re. destruct s as [|c s]; [reflexivity|].
  cbn [Re.run String.length]. destruct (Ascii.eqb "$" c); [|reflexivity].
  replace (S (String.length s) - String.length s) with 1 by lia.
  now rewrite andb_false_r.
Qed.

Lemma fill_scan_dollar (n0 : nat) (s : string) :
  Re.fill "_" (Re.scan dollar_re n0 None 0 s) = subst_char "$" "_" s.
Proof.
  induction s as [|c s IH].
  - cbn [Re.scan Re.exhausted]. rewrite match_at_dollar. reflexivity.
  - cbn [Re.scan Re.exhausted subst_char]. rewrite match_at_dollar.
    destruct (Ascii.eqb "$" c); cbn [Re.fill Re.spend]; now rewrite IH.
Qed.

(** The placeholder rewriting replaces every dollar sign by an
    underscore. *)
Lemma sub_dollar (s : string) :
  Re.sub_fn dollar_re "_" None s = subst_char "$" "_" s.
Proof. apply fill_scan_dollar. Qed.

Lemma subst_char_removes (a : ascii) (b : ascii) (s : string) :
  Ascii.eqb a b = false ->
  all_chars (fun c => negb (Ascii.eqb a c)) (subst_char a (String b EmptyString) s) = true.
Proof.
  intros Hab. induction s as [|c s IH]; [reflexivity|].
  cbn [subst_char]. destruct (Ascii.eqb a c) eqn:E.
  - cbn [String.append all_chars]. now rewrite Hab, IH.
  - cbn [all_chars]. now rewrite E, IH.
Qed.

Lemma has_reaction_app (l1 l2 : list Reaction) (id : string) :
  has_reaction (l1 ++ l2) id = has_reaction l1 id || has_reaction l2 id.
Proof. unfold has_reaction. apply existsb_app. Qed.

Lemma has_reaction_set_participants (rs : list Reaction) (id id' : string)
  (ps : list (string * Z)) :
  has_reaction (set_participants rs id ps) id' = has_reaction rs id'.
Proof.
  induction rs as [|r rs IH]; [reflexivity|].
  cbn [set_participants]. destruct (String.eqb_spec (r_id r) id) as [E|E].
  - unfold has_reaction. cbn [existsb r_id]. now rewrite E.
  - unfold has_reaction in *. cbn [existsb]. now rewrite IH.
Qed.

Lemma has_reaction_add (em : EnzymeModule) (r : Reaction) (id : string) :
  has_reaction (em_reactions (add_reaction em r)) id
  = has_reaction (em_reactions em) id || String.eqb (r_id r) id.
Proof.
  unfold add_reaction.
  destruct (has_reaction (em_reactions em) (r_id r)) eqn:E.
  - destruct (String.eqb_spec (r_id r) id) as [<-|]; [now rewrite E|].
    now rewrite orb_false_r.
  - cbn [em_reactions with_reactions]. rewrite has_reaction_app.
    unfold has_reaction at 2. cbn [existsb]. now rewrite orb_false_r.
Qed.

Lemma has_specie_app (l1 l2 : list Specie) (id : string) :
  has_specie (l1 ++ l2) id = has_specie l1 id || has_specie l2 id.
Proof. unfold has_specie. apply existsb_app. Qed.

Lemma extends_metabolites_refl (em em' : EnzymeModule) :
  em_metabolites em' = em_metabolites em -> extends_metabolites em em'.
Proof.
  intros H. exists []. cbn [map]. rewrite app_nil_r. split; [exact H | intros _ []].
Qed.

Lemma extends_metabolites_trans (a b c : EnzymeModule) :
  extends_metabolites a b -> extends_metabolites b c -> extends_metabolites a c.
Proof.
  intros [l1 [E1 H1]] [l2 [E2 H2]]. exists (l1 ++ l2). split.
  - rewrite E2, E1, map_app. now rewrite app_assoc.
  - intros t Hin. apply in_app_or in Hin as [Hin|Hin]; [now apply H1|].
    specialize (H2 t Hin). rewrite E1, has_specie_app in H2.
    now apply orb_false_iff in H2 as [H2 _].
Qed.

Lemma metabolites_add_reaction (em : EnzymeModule) (r : Reaction) :
  em_metabolites (add_reaction em r) = em_metabolites em.
Proof. unfold add_reaction. destruct (has_reaction _ _); reflexivity. Qed.

(** What one step of the reaction loader leaves behind. *)
Lemma reaction_step_effect (em em' : EnzymeModule)
  (reaction_line orig_id reaction_str : string) :
  Str.split ": " reaction_line = [orig_id; reaction_str] ->
  reaction_step em reaction_line = Done em' ->
  reactions_map em'
  = Dict.set (reactions_map em) orig_id (normalize_reaction_id orig_id)
  /\ (forall id, has_reaction (em_reactions em') id
                 = has_reaction (em_reactions em) id
                   || String.eqb (normalize_reaction_id orig_id) id)
  /\ extends_metabolites em em'.
Proof.
  intros Hsplit. unfold reaction_step. rewrite Hsplit, sub_dollar_returns.
  cbn [within]. fold (normalize_reaction_id orig_id).
  set (r0 := {| r_id := normalize_reaction_id orig_id; r_participants := [] |}).
  destruct (species_list_of reaction_str) as [l| |]; try discriminate. cbn [within].
  destruct (for_each _ l reaction_str) as [fixed| |]; try discriminate. cbn [within].
  destruct (build_reaction_from_string fixed) as [ps| |]; try discriminate.
  cbn [within].
  assert (Hb : forall em2,
             build_in_module (add_reaction em r0)
               (negb (has_reaction (em_reactions em) (normalize_reaction_id orig_id)))
               (normalize_reaction_id orig_id) ps = Done em2 ->
             em_id_map em2 = em_id_map em
             /\ (forall id, has_reaction (em_reactions em2) id
                            = has_reaction (em_reactions em) id
                              || String.eqb (normalize_reaction_id orig_id) id)
             /\ extends_metabolites em em2).
  { intros em2. unfold build_in_module.
    destruct (has_reaction (em_reactions em) (normalize_reaction_id orig_id)) eqn:Hh;
      cbn [negb].
    - destruct ps; [|discriminate]. intros [= <-].
      split; [apply id_map_add_reaction|]. split.
      + intros id. rewrite has_reaction_add. reflexivity.
      + apply extends_metabolites_refl, metabolites_add_reaction.
    - intros [= <-]. split; [apply id_map_add_reaction|]. split.
      + intros id. cbn [built em_reactions with_metabolites with_reactions].
        rewrite has_reaction_set_participants. apply has_reaction_add.
      + eexists. cbn [built em_metabolites with_metabolites].
        rewrite metabolites_add_reaction. split; [reflexivity|].
        intros t Hin. apply filter_In in Hin as [_ Hin].
        now apply negb_true_iff in Hin. }
  destruct (build_in_module _ _ _ ps) as [em2| |]; try discriminate.
  cbn [then_run]. destruct (Hb em2 eq_refl) as [Hid [Hrs Hms]].
  unfold Dict.item. rewrite Hid.
  destruct (Dict.get (em_id_map em) "reactions") as [rs|] eqn:Hr; [|discriminate].
  cbn [within]. intros [= <-]. split; [|split].
  - unfold reactions_map. cbn [em_id_map with_id_map].
    now rewrite dict_get_set_same, Hr.
  - exact Hrs.
  - destruct Hms as [added [E H]]. exists added. split; [exact E | exact H].
Qed.

Lemma dict_get_set {V : Type} (d : dict V) (k k' : string) (v : V) :
  Dict.get (Dict.set d k v) k' = if String.eqb k' k then Some v else Dict.get d k'.
Proof.
  destruct (String.eqb_spec k' k) as [->|Hne].
  - apply dict_get_set_same.
  - now apply dict_get_set_other.
Qed.

(** What a loop establishes on one element and keeps afterwards holds
    when the loop returns. *)
Lemma for_each_establish {A S : Type} (body : S -> A -> outcome S) (Q : S -> Prop)
  (xs : list A) (x : A) (acc r : S) :
  In x xs ->
  (forall a a', body a x = Ret a' -> Q a') ->
  (forall a y a', Q a -> body a y = Ret a' -> Q a') ->
  for_each body xs acc = Ret r -> Q r.
Proof.
  intros Hin Hx Hkeep. revert acc.
  assert (Hq : forall l a, Q a -> for_each body l a = Ret r -> Q r).
  { induction l as [|y l IH]; intros a Ha H; cbn [for_each] in H.
    - congruence.
    - destruct (body a y) as [a1| |] eqn:Hb; try discriminate.
      exact (IH a1 (Hkeep _ _ _ Ha Hb) H). }
  induction xs as [|y xs IH]; intros acc H; [contradiction|].
  cbn [for_each] in H. destruct (body acc y) as [a1| |] eqn:Hb; try discriminate.
  cbn [bind] in H. destruct Hin as [->|Hin].
  - exact (Hq xs a1 (Hx _ _ Hb) H).
  - exact (IH Hin a1 H).
Qed.

(** The same for a loop whose body changes the state in place. *)
Lemma run_each_establish {A S : Type} (body : S -> A -> run S) (Q : S -> Prop)
  (xs : list A) (x : A) (acc r : S) :
  In x xs ->
  (forall a a', body a x = Done a' -> Q a') ->
  (forall a y a', Q a -> body a y = Done a' -> Q a') ->
  run_each body xs acc = Done r -> Q r.
Proof.
  intros Hin Hx Hkeep. revert acc.
  assert (Hq : forall l a, Q a -> run_each body l a = Done r -> Q r).
  { induction l as [|y l IH]; intros a Ha H; cbn [run_each] in H.
    - congruence.
    - destruct (body a y) as [a1| |] eqn:Hb; try discriminate.
      exact (IH a1 (Hkeep _ _ _ Ha Hb) H). }
  induction xs as [|y xs IH]; intros acc H; [contradiction|].
  cbn [run_each] in H. destruct (body acc y) as [a1| |] eqn:Hb; try discriminate.
  cbn [then_run] in H. destruct Hin as [->|Hin].
  - exact (Hq xs a1 (Hx _ _ Hb) H).
  - exact (IH Hin a1 H).
Qed.

(** X7: when the reaction loader returns, every line of the file has its
    raw reaction identifier recorded in the identifier map with the
    normalized identifier (dollar signs turned into underscores, an
    underscore put before a leading digit), a reaction of that identifier
    is in the module, the normalized identifier holds no dollar sign and
    starts with no digit, and the species entry of the identifier map is
    untouched.  The metabolites that the module had are kept, in their
    order; after them come the metabolites, without compartment, that the
    library makes for the participants that the module did not know. *)
Theorem reactions_loader_records_identifiers
  (em em' : EnzymeModule) (file : list string)
  (reaction_line orig_id reaction_str : string) :
  reactions_from_txt em file = Done em' ->
  In reaction_line (map Str.strip file) ->
  Str.split ": " reaction_line = [orig_id; reaction_str] ->
  Dict.get (reactions_map em') orig_id = Some (normalize_reaction_id orig_id)
  /\ has_reaction (em_reactions em') (normalize_reaction_id orig_id) = true
  /\ normalize_reaction_id orig_id
     = prefix_number_id (subst_char "$" "_" orig_id)
  /\ all_chars (fun c => negb (Ascii.eqb "$" c)) (normalize_reaction_id orig_id) = true
  /\ starts_with_digit (normalize_reaction_id orig_id) = false
  /\ (exists added,
        em_metabolites em' = em_metabolites em ++ map unknown_metabolite added
        /\ forall t, In t added -> has_specie (em_metabolites em) t = false)
  /\ species_map em' = species_map em.
Proof.
  intros Hret Hin Hsplit. unfold reactions_from_txt in Hret.
  set (em0 := with_id_map em (Dict.set (em_id_map em) "reactions" [])) in Hret.
  assert (Hnorm : normalize_reaction_id orig_id
                  = prefix_number_id (subst_char "$" "_" orig_id)).
  { unfold normalize_reaction_id. now rewrite sub_dollar. }
  split; [|split; [|split; [exact Hnorm|split; [|split; [|split]]]]].
  - apply (run_each_establish reaction_step
             (fun a => Dict.get (reactions_map a) orig_id
                       = Some (normalize_reaction_id orig_id))
             _ reaction_line em0 em' Hin); [| |exact Hret].
    + intros a a' Ha.
      destruct (reaction_step_effect _ _ _ _ _ Hsplit Ha) as [-> _].
      apply dict_get_set_same.
    + intros a y a' Hq Hy. unfold reaction_step in Hy.
      destruct (Str.split ": " y) as [|o [|f [|z t]]] eqn:Hs; try discriminate.
      destruct (reaction_step_effect a a' y o f Hs) as [-> _].
      { unfold reaction_step. now rewrite Hs. }
      rewrite dict_get_set. destruct (String.eqb_spec orig_id o) as [->|]; auto.
  - apply (run_each_establish reaction_step
             (fun a => has_reaction (em_reactions a) (normalize_reaction_id orig_id)
                       = true)
             _ reaction_line em0 em' Hin); [| |exact Hret].
    + intros a a' Ha.
      destruct (reaction_step_effect _ _ _ _ _ Hsplit Ha) as [_ [-> _]].
      now rewrite String.eqb_refl, orb_true_r.
    + intros a y a' Hq Hy. pose proof Hy as Hy'. unfold reaction_step in Hy'.
      destruct (Str.split ": " y) as [|o [|f [|z t]]] eqn:Hs; try discriminate.
      destruct (reaction_step_effect a a' y o f Hs Hy) as [_ [-> _]].
      now rewrite Hq.
  - rewrite Hnorm, prefix_number_id_eq.
    destruct (starts_with_digit (subst_char "$" "_" orig_id)).
    + cbn [String.append all_chars].
      now rewrite (subst_char_removes "$" "_" orig_id eq_refl).
    + exact (subst_char_removes "$" "_" orig_id eq_refl).
  - apply prefix_number_id_digit_free.
  - assert (H : forall l a r, run_each reaction_step l a = Done r ->
                              extends_metabolites a r).
    { induction l as [|y l IH]; intros a r H; cbn [run_each] in H.
      - injection H as <-. now apply extends_metabolites_refl.
      - destruct (reaction_step a y) as [a1| |] eqn:Hb; try discriminate.
        cbn [then_run] in H.
        apply (extends_metabolites_trans a a1 r); [|exact (IH _ _ H)].
        pose proof Hb as Hb'. unfold reaction_step in Hb'.
        destruct (Str.split ": " y) as [|o [|f [|z t]]] eqn:Hs; try discriminate.
        now destruct (reaction_step_effect a a1 y o f Hs Hb) as [_ [_ Hm]]. }
    exact (H _ _ _ Hret).
  - assert (H : forall l a r, run_each reaction_step l a = Done r ->
                              species_map r = species_map a).
    { induction l as [|y l IH]; intros a r H; cbn [run_each] in H.
      - congruence.
      - destruct (reaction_step a y) as [a1| |] eqn:Hb; try discriminate.
        cbn [then_run] in H. rewrite (IH _ _ H).
        exact (reaction_step_species_map _ _ _ Hb). }
    rewrite (H _ _ _ Hret). unfold species_map, em0. cbn [em_id_map with_id_map].
    now rewrite dict_get_set_other by discriminate.
Qed.

Lemma reactions_loader_records_identifiers_witness :
  exists em',
    reactions_from_txt three_species_module
      [line "2$R: atp_c + 2pg_c <=> adp_c"] = Done em'
    /\ Dict.get (reactions_map em') "2$R" = Some "_2_R"
    /\ has_reaction (em_reactions em') "_2_R" = true.
Proof.
  eexists. split; [vm_compute; reflexivity|].
  destruct (reactions_loader_records_identifiers three_species_module _
              [line "2$R: atp_c + 2pg_c <=> adp_c"]
              "2$R: atp_c + 2pg_c <=> adp_c" "2$R" "atp_c + 2pg_c <=> adp_c"
              eq_refl (or_introl eq_refl) eq_refl) as [H1 [H2 _]].
  split; [exact H1 | exact H2].
Defined.

(* ===================================================================== *)
(** * More on the species loader *)
(* ===================================================================== *)

Lemma make_specie_id (enzyme_id orig_id new_id : string) (specie : Specie) :
  make_specie enzyme_id orig_id = Ret (specie, new_id) -> sp_id specie = new_id.
Proof.
  unfold make_specie.
  destruct (normalize_id orig_id) as [[id comp]| |]; try discriminate. cbn [bind].
  destruct (is_form_id enzyme_id id); [|now intros [= <- <-]].
  destruct (has_bound id); [|now intros [= <- <-]].
  destruct (for_each _ _ _) as [bound| |]; try discriminate. cbn [bind].
  rewrite sub_bound_returns. cbn [bind]. now intros [= <- <-].
Qed.

Lemma add_metabolites_ret (em em' : EnzymeModule) (species : list Specie) :
  add_metabolites em species = Ret em' ->
  em' = with_metabolites em (em_metabolites em ++ fresh_species em species).
Proof.
  unfold add_metabolites. destruct (_ && _); [|discriminate]. now intros [= <-].
Qed.

Lemma has_specie_add (em em' : EnzymeModule) (species : list Specie) (id : string) :
  add_metabolites em species = Ret em' ->
  has_specie species id = true ->
  has_specie (em_metabolites em') id = true.
Proof.
  intros Hadd H. rewrite (add_metabolites_ret _ _ _ Hadd).
  unfold fresh_species. cbn [em_metabolites with_metabolites].
  rewrite has_specie_app.
  destruct (has_specie (em_metabolites em) id) eqn:E; [reflexivity|].
  cbn [orb]. unfold has_specie in *. apply existsb_exists in H as [s [Hin Hs]].
  apply existsb_exists. exists s. split; [|exact Hs].
  apply filter_In. split; [exact Hin|].
  apply String.eqb_eq in Hs. rewrite Hs. unfold has_specie.
  now rewrite E.
Qed.

Lemma species_loop_keys (enzyme_id : string) (xs : list string)
  (acc r : list Specie * dict string) (k v : string) :
  for_each (species_step enzyme_id) xs acc = Ret r ->
  Dict.get (snd r) k = Some v ->
  In k xs \/ Dict.get (snd acc) k = Some v.
Proof.
  revert acc. induction xs as [|x xs IH]; intros acc H Hk; cbn [for_each] in H.
  - right. congruence.
  - destruct (species_step enzyme_id acc x) as [a1| |] eqn:Hb; try discriminate.
    cbn [bind] in H. destruct (IH _ H Hk) as [Hin|Hget]; [left; now right|].
    unfold species_step in Hb.
    destruct (make_specie enzyme_id x) as [[sp n]| |]; try discriminate.
    cbn [bind] in Hb. injection Hb as <-. cbn [snd] in Hget.
    rewrite dict_get_set in Hget.
    destruct (String.eqb_spec k x) as [->|]; [left; now left | now right].
Qed.

(** X8: when the species loader returns, every stripped line of the file
    is a key of the species entry of the identifier map, with the
    identifier of the object made for that line, and an object of that
    identifier is in the module; the entry holds no other key (what it
    held before is dropped), and the reactions are untouched. *)
Theorem species_loader_records_every_line
  (em em' : EnzymeModule) (file : list string) :
  metabolites_from_txt em file = Ret em' ->
  (forall orig_id, In orig_id (map Str.strip file) ->
     exists specie new_id,
       make_specie (em_id em) orig_id = Ret (specie, new_id)
       /\ sp_id specie = new_id
       /\ Dict.get (species_map em') orig_id = Some new_id
       /\ has_specie (em_metabolites em') new_id = true)
  /\ (forall k v, Dict.get (species_map em') k = Some v ->
        In k (map Str.strip file))
  /\ em_reactions em' = em_reactions em.
Proof.
  unfold metabolites_from_txt. cbn zeta.
  destruct (for_each _ _ _) as [[species ids]| |] eqn:Hloop; try discriminate.
  cbn [bind]. intros Hadd.
  assert (Hmap : species_map em' = ids).
  { rewrite (add_metabolites_ret _ _ _ Hadd). unfold species_map.
    cbn [em_id_map with_metabolites with_id_map].
    now rewrite dict_get_set_same. }
  rewrite Hmap. split; [|split].
  - intros orig_id Hin.
    pose (Q := fun a : list Specie * dict string =>
                 exists specie new_id,
                   make_specie (em_id em) orig_id = Ret (specie, new_id)
                   /\ Dict.get (snd a) orig_id = Some new_id
                   /\ has_specie (fst a) new_id = true).
    assert (HQ : Q (species, ids)).
    { apply (for_each_establish (species_step (em_id em)) Q
               (map Str.strip file) orig_id ([], []) (species, ids) Hin);
        [| |exact Hloop].
      - intros a a' Ha. unfold species_step in Ha.
        destruct (make_specie (em_id em) orig_id) as [[sp n]| |] eqn:Hm;
          try discriminate.
        cbn [bind] in Ha. injection Ha as <-. exists sp, n.
        split; [reflexivity|]. cbn [fst snd].
        split; [apply dict_get_set_same|].
        rewrite has_specie_app. unfold has_specie at 2. cbn [existsb].
        rewrite (make_specie_id _ _ _ _ Hm), String.eqb_refl.
        now rewrite orb_true_r.
      - intros a y a' [sp [n [Hm [Hg Hs]]]] Hy. unfold species_step in Hy.
        destruct (make_specie (em_id em) y) as [[sp' n']| |] eqn:Hm';
          try discriminate.
        cbn [bind] in Hy. injection Hy as <-. exists sp, n.
        split; [exact Hm|]. cbn [fst snd]. split.
        + rewrite dict_get_set. destruct (String.eqb_spec orig_id y) as [->|]; auto.
          congruence.
        + rewrite has_specie_app, Hs. reflexivity. }
    destruct HQ as [sp [n [Hm [Hg Hs]]]]. exists sp, n.
    split; [exact Hm|]. split; [exact (make_specie_id _ _ _ _ Hm)|].
    split; [exact Hg|]. cbn [fst] in Hs.
    exact (has_specie_add _ _ _ _ Hadd Hs).
  - intros k v Hk.
    destruct (species_loop_keys _ _ _ _ k v Hloop Hk) as [Hin|Hget]; [exact Hin|].
    discriminate.
  - now rewrite (add_metabolites_ret _ _ _ Hadd).
Qed.

Lemma species_loader_records_every_line_witness :
  exists em',
    metabolites_from_txt (new_module "PFK") three_species_file = Ret em'
    /\ Dict.get (species_map em') "2pg_c" = Some "_2pg_c"
    /\ has_specie (em_metabolites em') "_2pg_c" = true.
Proof.
  eexists. split; [vm_compute; reflexivity|].
  destruct (proj1 (species_loader_records_every_line (new_module "PFK") _
                     three_species_file eq_refl) "2pg_c")
    as [sp [n [Hm [_ [Hg Hs]]]]].
  - vm_compute. tauto.
  - vm_compute in Hm. injection Hm as _ <-. split; [exact Hg | exact Hs].
Defined.

(* ===================================================================== *)
(** * Enzyme forms and their ligands *)
(* ===================================================================== *)

Lemma fill_scan_bound (n0 : nat) (s : string) :
  Re.fill "_" (Re.scan bound_metabolites_re n0 None 0 s) = underscore_delimiters s.
Proof.
  induction s as [|c s IH].
  - cbn [Re.scan Re.exhausted]. rewrite match_at_bound. reflexivity.
  - cbn [Re.scan Re.exhausted underscore_delimiters]. rewrite match_at_bound.
    destruct (is_delimiter c); cbn [Re.fill Re.spend String.append]; now rewrite IH.
Qed.

Lemma sub_bound (s : string) :
  Re.sub_fn bound_metabolites_re "_" None s = underscore_delimiters s.
Proof. apply fill_scan_bound. Qed.

Lemma underscore_delimiters_free (s : string) :
  all_chars (fun c => negb (is_delimiter c)) (underscore_delimiters s) = true.
Proof.
  induction s as [|c s IH]; [reflexivity|].
  cbn [underscore_delimiters all_chars]. rewrite IH.
  destruct (is_delimiter c) eqn:E; [reflexivity | now rewrite E].
Qed.

Lemma length_underscore_delimiters (s : string) :
  String.length (underscore_delimiters s) = String.length s.
Proof. induction s as [|c s IH]; cbn; congruence. Qed.

Lemma search_bound_none (n0 : nat) (s : string) :
  Re.search_from bound_metabolites_re n0 s = None ->
  count_chars is_delimiter s = 0 /\ underscore_delimiters s = s.
Proof.
  induction s as [|c s IH]; intros H; [split; reflexivity|].
  cbn [Re.search_from] in H. rewrite match_at_bound in H.
  cbn [count_chars underscore_delimiters].
  destruct (is_delimiter c); [discriminate|].
  destruct (IH H) as [-> ->]. split; reflexivity.
Qed.

Lemma has_bound_false (s : string) :
  has_bound s = false ->
  count_chars is_delimiter s = 0 /\ underscore_delimiters s = s.
Proof.
  unfold has_bound, Re.search. intros H.
  apply (search_bound_none (String.length s)).
  destruct (Re.search_from _ _ _); [discriminate | reflexivity].
Qed.

(** The delimiters cut a text in one piece more than there are
    delimiters. *)
Lemma length_cut_bound (n0 : nat) (s : string) :
  List.length (Re.cut (Re.scan bound_metabolites_re n0 None 0 s))
  = S (count_chars is_delimiter s).
Proof.
  induction s as [|c s IH].
  - cbn [Re.scan Re.exhausted]. rewrite match_at_bound. reflexivity.
  - cbn [Re.scan Re.exhausted count_chars]. rewrite match_at_bound.
    destruct (is_delimiter c); cbn [Re.cut Re.spend].
    + cbn [List.length]. now rewrite IH.
    + destruct (Re.cut _) as [|h t] eqn:E; [now apply cut_nonempty in E|].
      cbn [List.length] in *. exact IH.
Qed.

Lemma length_tl_split_bound (s : string) :
  List.length (tl (Re.split bound_metabolites_re s)) = count_chars is_delimiter s.
Proof.
  unfold Re.split, Re.pieces.
  pose proof (length_cut_bound (String.length s) s) as H.
  destruct (Re.cut _) as [|h t]; [discriminate|]. cbn [tl List.length] in *. lia.
Qed.

Lemma total_bound_set (bound : dict nat) (id : string) (n : nat) :
  total_bound (Dict.set bound id n)
  = match Dict.get bound id with
    | Some m => total_bound bound - m + n
    | None => total_bound bound + n
    end.
Proof.
  unfold total_bound. induction bound as [|[k v] bound IH]; cbn [Dict.set Dict.get].
  - cbn. lia.
  - destruct (String.eqb_spec id k) as [->|Hne];
      cbn [map snd list_sum fold_right].
    + lia.
    + fold (list_sum (map snd (Dict.set bound id n))).
      fold (list_sum (map snd bound)).
      rewrite IH. destruct (Dict.get bound id) as [m|] eqn:E; [|lia].
      assert (m <= list_sum (map snd bound)); [|lia].
      clear IH. revert E. induction bound as [|[k' v'] bound IHb]; cbn [Dict.get];
        [discriminate|].
      cbn [map snd list_sum fold_right]. fold (list_sum (map snd bound)).
      destruct (String.eqb id k'); [intros [= ->]; lia|].
      intros E. specialize (IHb E). lia.
Qed.

Lemma total_bound_get (bound : dict nat) (id : string) (m : nat) :
  Dict.get bound id = Some m -> m <= total_bound bound.
Proof.
  unfold total_bound. induction bound as [|[k v] bound IH]; cbn [Dict.get];
    [discriminate|].
  cbn [map snd list_sum fold_right]. fold (list_sum (map snd bound)).
  destruct (String.eqb id k); [intros [= ->]; lia|].
  intros H. specialize (IH H). lia.
Qed.

Lemma total_bound_count (bound : dict nat) (id : string) :
  total_bound (count_bound bound id) = S (total_bound bound).
Proof.
  unfold count_bound. destruct (Dict.get bound id) as [m|] eqn:E.
  - rewrite total_bound_set, E. pose proof (total_bound_get _ _ _ E). lia.
  - rewrite total_bound_set, E. lia.
Qed.

Lemma total_bound_loop (comp : compartment) (frags : list string)
  (acc bound : dict nat) :
  for_each (bound_step comp) frags acc = Ret bound ->
  total_bound bound = total_bound acc + List.length frags.
Proof.
  revert acc. induction frags as [|f frags IH]; intros acc H; cbn [for_each] in H.
  - injection H as <-. cbn. lia.
  - unfold bound_step at 1 in H.
    destruct (add_compartment f comp) as [b| |]; try discriminate.
    cbn [bind] in H. rewrite (IH _ H), total_bound_count. cbn [List.length]. lia.
Qed.

(** X9: the identifier of every enzyme form the species loader makes is
    the corrected identifier of its line with each of the delimiters
    ampersand, at and hash turned into an underscore: it holds none of
    the three and is as long as the corrected identifier. *)
Theorem enzyme_form_id_has_no_delimiter
  (enzyme_id orig_id new_id : string) (specie : Specie) :
  make_specie enzyme_id orig_id = Ret (specie, new_id) ->
  sp_is_form specie = true ->
  exists id comp,
    normalize_id orig_id = Ret (id, comp)
    /\ is_form_id enzyme_id id = true
    /\ sp_id specie = underscore_delimiters id
    /\ all_chars (fun c => negb (is_delimiter c)) (sp_id specie) = true
    /\ String.length (sp_id specie) = String.length id.
Proof.
  unfold make_specie.
  destruct (normalize_id orig_id) as [[id comp]| |]; try discriminate. cbn [bind].
  intros H Hform. exists id, comp. split; [reflexivity|].
  destruct (is_form_id enzyme_id id);
    [|injection H as <- <-; discriminate]. split; [reflexivity|].
  assert (E : sp_id specie = underscore_delimiters id).
  { destruct (has_bound id) eqn:Hb.
    - destruct (for_each _ _ _) as [bound| |]; try discriminate. cbn [bind] in H.
      rewrite sub_bound_returns in H. cbn [bind] in H. injection H as <- <-.
      apply sub_bound.
    - cbn [bind] in H. injection H as <- <-. cbn [sp_id].
      symmetry. now apply has_bound_false. }
  rewrite E. split; [reflexivity|].
  split; [apply underscore_delimiters_free | apply length_underscore_delimiters].
Qed.

Lemma enzyme_form_id_has_no_delimiter_witness :
  exists specie,
    make_specie "PFK" "E_PFK[c]&atp@f6p" = Ret (specie, "E_PFK_c_atp_f6p")
    /\ all_chars (fun c => negb (is_delimiter c)) (sp_id specie) = true.
Proof.
  eexists. split; [vm_compute; reflexivity|].
  destruct (enzyme_form_id_has_no_delimiter "PFK" "E_PFK[c]&atp@f6p" _ _
              eq_refl eq_refl) as [id [comp [_ [_ [_ [H _]]]]]].
  exact H.
Defined.

(** X10: the ligand counts stored with an enzyme form add up to the
    number of delimiters in the corrected identifier of its line: every
    delimiter counts one ligand, whatever text follows it. *)
Theorem bound_counts_add_up
  (enzyme_id orig_id new_id : string) (specie : Specie) :
  make_specie enzyme_id orig_id = Ret (specie, new_id) ->
  sp_is_form specie = true ->
  exists id comp,
    normalize_id orig_id = Ret (id, comp)
    /\ total_bound (sp_bound_metabolites specie) = count_chars is_delimiter id.
Proof.
  unfold make_specie.
  destruct (normalize_id orig_id) as [[id comp]| |]; try discriminate. cbn [bind].
  intros H Hform. exists id, comp. split; [reflexivity|].
  destruct (is_form_id enzyme_id id);
    [|injection H as <- <-; discriminate].
  destruct (has_bound id) eqn:Hb.
  - destruct (for_each _ _ _) as [bound| |] eqn:Hloop; try discriminate.
    cbn [bind] in H. rewrite sub_bound_returns in H. cbn [bind] in H.
    injection H as <- <-. cbn [sp_bound_metabolites].
    rewrite (total_bound_loop _ _ _ _ Hloop), length_tl_split_bound. reflexivity.
  - cbn [bind] in H. injection H as <- <-. cbn [sp_bound_metabolites].
    symmetry. now apply has_bound_false.
Qed.

Lemma bound_counts_add_up_witness :
  exists specie,
    make_specie "PFK" "E_PFK[c]&atp&atp@f6p&" = Ret (specie, "E_PFK_c_atp_atp_f6p_")
    /\ sp_bound_metabolites specie = [("atp_c", 2); ("f6p_c", 1); ("_c", 1)]
    /\ total_bound (sp_bound_metabolites specie) = 4.
Proof.
  eexists. split; [vm_compute; reflexivity|]. split; [reflexivity|].
  destruct (bound_counts_add_up "PFK" "E_PFK[c]&atp&atp@f6p&" _ _
              eq_refl eq_refl) as [id [comp [Hn H]]].
  vm_compute in Hn. injection Hn as <- <-. exact H.
Defined.

(* ===================================================================== *)
(** * When the species loader fails *)
(* ===================================================================== *)

Lemma make_specie_unplaceable (enzyme_id orig_id : string) :
  if unplaceable_form enzyme_id orig_id
  then make_specie enzyme_id orig_id = Raise TypeError
  else returns (make_specie enzyme_id orig_id).
Proof.
  unfold unplaceable_form.
  destruct (normalize_id orig_id) as [[id comp]| |] eqn:Hn;
    try (rewrite normalize_id_spec in Hn; cbn zeta in Hn; discriminate).
  destruct comp as [l|c|].
  - destruct (is_form_id enzyme_id id) eqn:Hf; cbn [andb].
    + destruct (has_bound id) eqn:Hb.
      * exact (make_specie_bound enzyme_id orig_id id (CList l) Hn Hf Hb).
      * unfold make_specie. rewrite Hn. cbn [bind]. rewrite Hf, Hb.
        eexists; reflexivity.
    + unfold make_specie. rewrite Hn. cbn [bind]. rewrite Hf.
      eexists; reflexivity.
  - unfold make_specie. rewrite Hn. cbn [bind].
    destruct (is_form_id enzyme_id id); [|eexists; reflexivity].
    destruct (has_bound id); [|eexists; reflexivity].
    destruct (for_each_bound_step_str c (tl (Re.split bound_metabolites_re id)) [])
      as [bound ->].
    cbn [bind]. rewrite sub_bound_returns. eexists; reflexivity.
  - unfold make_specie. rewrite Hn. cbn [bind].
    destruct (is_form_id enzyme_id id); [|eexists; reflexivity].
    destruct (has_bound id); [|eexists; reflexivity].
    destruct (for_each_bound_step_none (tl (Re.split bound_metabolites_re id)) [])
      as [bound ->].
    cbn [bind]. rewrite sub_bound_returns. eexists; reflexivity.
Qed.

Lemma species_loop_returns (enzyme_id : string) (xs : list string)
  (acc : list Specie * dict string) :
  existsb (unplaceable_form enzyme_id) xs = false ->
  returns (for_each (species_step enzyme_id) xs acc).
Proof.
  revert acc. induction xs as [|x xs IH]; intros acc H; cbn [for_each].
  - eexists; reflexivity.
  - cbn [existsb] in H. apply orb_false_iff in H as [Hx Hxs].
    pose proof (make_specie_unplaceable enzyme_id x) as Hm. rewrite Hx in Hm.
    destruct Hm as [[sp n] Hm]. unfold species_step at 1. rewrite Hm.
    cbn [bind]. apply IH. exact Hxs.
Qed.

Lemma species_loop_length (enzyme_id : string) (xs : list string)
  (acc r : list Specie * dict string) :
  for_each (species_step enzyme_id) xs acc = Ret r ->
  List.length (fst r) = List.length (fst acc) + List.length xs.
Proof.
  revert acc. induction xs as [|x xs IH]; intros acc H; cbn [for_each] in H.
  - injection H as <-. cbn. lia.
  - destruct (species_step enzyme_id acc x) as [a1| |] eqn:Hb; try discriminate.
    cbn [bind] in H. rewrite (IH _ H). unfold species_step in Hb.
    destruct (make_specie enzyme_id x) as [[sp n]| |]; try discriminate.
    cbn [bind] in Hb. injection Hb as <-. cbn [fst List.length].
    rewrite length_app. cbn [List.length]. lia.
Qed.

(** X11: the outcomes of the species loader.  If some line names an
    enzyme form with bound ligands whose identifier does not leave
    exactly one compartment letter, the loader raises a TypeError.  On
    every other file the loop over the lines makes one
    object for each line; the loader then raises a ValueError, in the
    library's [add_metabolites], when one of the objects that the module
    does not hold yet has an empty identifier or an identifier with white
    space, or when two of them have the same identifier (a blank line, a
    space before a bracketed isomer letter, a repeated line), and returns
    a module otherwise. *)
Theorem species_loader_outcomes
  (em : EnzymeModule) (file : list string) :
  (existsb (unplaceable_form (em_id em)) (map Str.strip file) = true ->
   metabolites_from_txt em file = Raise TypeError)
  /\ (existsb (unplaceable_form (em_id em)) (map Str.strip file) = false ->
      exists species ids,
        for_each (species_step (em_id em)) (map Str.strip file) ([], [])
        = Ret (species, ids)
        /\ List.length species = List.length file
        /\ (forallb (fun s => valid_id (sp_id s)) (fresh_species em species) = true ->
            distinct_ids (fresh_species em species) = true ->
            returns (metabolites_from_txt em file))
        /\ (forallb (fun s => valid_id (sp_id s)) (fresh_species em species) = false
            \/ distinct_ids (fresh_species em species) = false ->
            metabolites_from_txt em file = Raise ValueError)).
Proof.
  split; intros H.
  - apply existsb_exists in H as [x [Hin Hx]].
    unfold metabolites_from_txt. cbn zeta.
    rewrite (for_each_raises (species_step (em_id em)) TypeError
               (map Str.strip file) x ([], [])); [reflexivity| |exact Hin|].
    + intros a y. apply species_step_outcome.
    + intros a. unfold species_step.
      pose proof (make_specie_unplaceable (em_id em) x) as Hm. rewrite Hx in Hm.
      now rewrite Hm.
  - unfold metabolites_from_txt. cbn zeta.
    destruct (species_loop_returns (em_id em) (map Str.strip file) ([], []) H)
      as [[species ids] Hloop].
    exists species, ids. split; [exact Hloop|].
    split.
    { pose proof (species_loop_length _ _ _ _ Hloop) as Hlen.
      cbn [fst List.length] in Hlen. now rewrite Hlen, length_map. }
    rewrite Hloop. cbn [bind]. unfold add_metabolites.
    change (fresh_species
              (with_id_map em (Dict.set (em_id_map em) "species" ids)) species)
      with (fresh_species em species).
    split.
    + intros Hv Hd. rewrite Hv, Hd. eexists; reflexivity.
    + intros [Hv | Hd]; [now rewrite Hv | rewrite Hd; now rewrite andb_false_r].
Qed.

(** A file of plain identifiers is loaded; a blank line, an identifier
    with a space before the bracketed isomer letter and a repeated line
    make the loader raise a ValueError. *)
Lemma species_loader_outcomes_witness :
  returns (metabolites_from_txt (new_module "PFK") three_species_file)
  /\ metabolites_from_txt (new_module "PFK") [line "atp_c"; line ""]
     = Raise ValueError
  /\ metabolites_from_txt (new_module "PFK") [line "glc [D]"] = Raise ValueError
  /\ metabolites_from_txt (new_module "PFK") [line "atp_c"; line "atp_c"]
     = Raise ValueError.
Proof.
  split; [|split; [|split]].
  - destruct (proj2 (species_loader_outcomes (new_module "PFK") three_species_file)
                eq_refl) as [species [ids [Hloop [_ [Hret _]]]]].
    vm_compute in Hloop. injection Hloop as <- <-. apply Hret; reflexivity.
  - destruct (proj2 (species_loader_outcomes (new_module "PFK")
                       [line "atp_c"; line ""]) eq_refl)
      as [species [ids [Hloop [_ [_ Hraise]]]]].
    vm_compute in Hloop. injection Hloop as <- <-. apply Hraise. left. reflexivity.
  - destruct (proj2 (species_loader_outcomes (new_module "PFK") [line "glc [D]"])
                eq_refl) as [species [ids [Hloop [_ [_ Hraise]]]]].
    vm_compute in Hloop. injection Hloop as <- <-. apply Hraise. left. reflexivity.
  - destruct (proj2 (species_loader_outcomes (new_module "PFK")
                       [line "atp_c"; line "atp_c"]) eq_refl)
      as [species [ids [Hloop [_ [_ Hraise]]]]].
    vm_compute in Hloop. injection Hloop as <- <-. apply Hraise. right. reflexivity.
Defined.

(* ===================================================================== *)
(** * The labels of the rate constants *)
(* ===================================================================== *)

Lemma take_append (a b : string) : Str.take (String.length a) (a ++ b) = a.
Proof. induction a as [|c a IH]; cbn; [reflexivity | now rewrite IH]. Qed.

(** What the end of the label pattern accepts. *)
Lemma run_direction_inv {R : Type} (n0 : nat) (rest : string) (cs : Re.captures)
  (k : string -> Re.captures -> option R) (x : R) :
  Re.run direction_re n0 rest cs k = Some x ->
  exists direction,
    (direction = "fwd" \/ direction = "rev")
    /\ rest = ("_" ++ direction)%string
    /\ k EmptyString ((2, direction) :: cs) = Some x.
Proof.
  unfold direction_re. rewrite run_cat. cbn [Re.run].
  destruct rest as [|c s']; [discriminate|].
  destruct (Ascii.eqb_spec "_" c) as [<-|]; [|discriminate].
  rewrite !run_lit.
  assert (Hend : forall d,
             Str.starts_with d s' = true ->
             Str.drop (String.length d) s' = EmptyString -> s' = d).
  { intros d Hd H. pose proof (starts_with_inv _ _ Hd) as E.
    rewrite H, append_nil_r in E. exact E. }
  destruct (Str.starts_with "fwd" s') eqn:Hf.
  - assert (Hr : Str.starts_with "rev" s' = false).
    { destruct s' as [|a s']; [discriminate|].
      rewrite starts_with_cons in Hf |- *.
      destruct (Ascii.eqb_spec "f" a) as [<-|]; [reflexivity | discriminate]. }
    rewrite Hr. destruct (Str.drop (String.length "fwd") s') eqn:Hd; [|discriminate].
    rewrite (Hend "fwd" Hf Hd). cbn [String.length Nat.sub Str.take].
    intros H. exists "fwd". split; [now left|]. split; [reflexivity|].
    destruct (k _ _); [exact H | discriminate].
  - destruct (Str.starts_with "rev" s') eqn:Hr; [|discriminate].
    destruct (Str.drop (String.length "rev") s') eqn:Hd; [|discriminate].
    rewrite (Hend "rev" Hr Hd). cbn [String.length Nat.sub Str.take].
    intros H. exists "rev". split; [now right|]. split; [reflexivity | exact H].
Qed.

(** The label pattern on a text that starts with the characters k and
    underscore. *)
Lemma match_at_rateconst (n0 : nat) (adv : bool) (s1 : string) :
  Re.match_at rateconst_re n0 adv ("k_" ++ s1)
  = Re.run_rep (fun c => negb (Str.is_space c)) s1
      (fun s2 =>
         Re.run direction_re n0 s2
           [(1, Str.take (String.length s1 - String.length s2) s1)]
           (fun rest cs =>
              let len := String.length ("k_" ++ s1) - String.length rest in
              if adv && Nat.eqb len 0 then None else Some (len, cs))).
Proof. reflexivity. Qed.

Lemma match_at_rateconst_other (n0 : nat) (adv : bool) (s : string) :
  Str.starts_with "k_" s = false -> Re.match_at rateconst_re n0 adv s = None.
Proof.
  intros H. unfold Re.match_at, rateconst_re. rewrite !run_cat. cbn [Re.run].
  destruct s as [|a s]; [reflexivity|]. rewrite starts_with_cons in H.
  destruct (Ascii.eqb "k" a); [|reflexivity]. cbn [andb] in H.
  destruct s as [|b s]; [reflexivity|]. rewrite starts_with_cons in H.
  destruct (Ascii.eqb "_" b); [discriminate | reflexivity].
Qed.

(** A greedy repetition that succeeds has consumed a run of characters of
    the class and succeeded on what follows. *)
Lemma run_rep_inv {R : Type} (p : ascii -> bool) (s : string)
  (k : string -> option R) (x : R) :
  Re.run_rep p s k = Some x ->
  exists a t, s = (a ++ t)%string /\ all_chars p a = true /\ k t = Some x.
Proof.
  induction s as [|c s IH]; cbn [Re.run_rep]; intros H.
  - exists EmptyString, EmptyString. auto.
  - destruct (p c) eqn:Hp.
    + destruct (Re.run_rep p s k) as [y|] eqn:Hr.
      * injection H as ->. destruct (IH eq_refl) as [a [t [-> [Ha Hk]]]].
        exists (String c a), t. cbn [all_chars String.append]. rewrite Hp, Ha. auto.
      * exists EmptyString, (String c s). auto.
    + exists EmptyString, (String c s). auto.
Qed.

(** A greedy repetition gives back no more than it has to. *)
Lemma run_rep_app {R : Type} (p : ascii -> bool) (a t : string)
  (k : string -> option R) (x : R) :
  all_chars p a = true -> Re.run_rep p t k = Some x ->
  Re.run_rep p (a ++ t) k = Some x.
Proof.
  intros Ha Ht. induction a as [|c a IH]; [exact Ht|].
  cbn [all_chars] in Ha. apply andb_true_iff in Ha as [Hc Ha].
  cbn [String.append Re.run_rep]. now rewrite Hc, (IH Ha).
Qed.

Lemma match_at_rateconst_inv (n0 : nat) (adv : bool) (s : string) (len : nat)
  (cs : Re.captures) :
  Re.match_at rateconst_re n0 adv s = Some (len, cs) ->
  (Re.group cs 2 = "fwd" \/ Re.group cs 2 = "rev")
  /\ no_space (Re.group cs 1) = true
  /\ s = rateconst_label (Re.group cs 1) (Re.group cs 2).
Proof.
  intros H. destruct (Str.starts_with "k_" s) eqn:Hk;
    [|now rewrite (match_at_rateconst_other _ _ _ Hk) in H].
  pose proof (starts_with_inv _ _ Hk) as E. cbn [String.length] in E.
  set (s1 := Str.drop 2 s) in E. clearbody s1. subst s.
  rewrite match_at_rateconst in H.
  apply run_rep_inv in H as [a [t [Hs1 [Ha Ht]]]].
  apply run_direction_inv in Ht as [d [Hd [-> Hfin]]].
  assert (Hg : Str.take (String.length s1 - String.length ("_" ++ d)) s1 = a).
  { rewrite Hs1, length_append.
    replace (String.length a + String.length ("_" ++ d)
             - String.length ("_" ++ d)) with (String.length a) by lia.
    apply take_append. }
  rewrite Hg in Hfin.
  cbn zeta in Hfin. destruct (_ && _) in Hfin; [discriminate|].
  injection Hfin as _ <-. cbn [Re.group Nat.eqb].
  split; [exact Hd|]. split; [exact Ha|].
  unfold rateconst_label. now rewrite Hs1.
Qed.

Lemma search_from_rateconst_inv (n0 : nat) (s : string) (cs : Re.captures) :
  Re.search_from rateconst_re n0 s = Some cs ->
  exists pre,
    s = (pre ++ rateconst_label (Re.group cs 1) (Re.group cs 2))%string.
Proof.
  induction s as [|c s IH]; cbn [Re.search_from].
  - destruct (Re.match_at rateconst_re n0 false EmptyString) as [[len cs']|] eqn:Hm;
      [|discriminate].
    intros [= <-]. exists EmptyString.
    now destruct (match_at_rateconst_inv _ _ _ _ _ Hm) as [_ [_ E]].
  - destruct (Re.match_at rateconst_re n0 false (String c s)) as [[len cs']|] eqn:Hm.
    + intros [= <-]. exists EmptyString.
      now destruct (match_at_rateconst_inv _ _ _ _ _ Hm) as [_ [_ E]].
    + intros H. destruct (IH H) as [pre E]. exists (String c pre).
      cbn [String.append]. now rewrite <- E.
Qed.

Lemma search_from_rateconst_groups (n0 : nat) (s : string) (cs : Re.captures) :
  Re.search_from rateconst_re n0 s = Some cs ->
  (Re.group cs 2 = "fwd" \/ Re.group cs 2 = "rev")
  /\ no_space (Re.group cs 1) = true.
Proof.
  induction s as [|c s IH]; cbn [Re.search_from].
  - destruct (Re.match_at rateconst_re n0 false EmptyString) as [[len cs']|] eqn:Hm;
      [|discriminate].
    intros [= <-]. destruct (match_at_rateconst_inv _ _ _ _ _ Hm) as [H1 [H2 _]]. auto.
  - destruct (Re.match_at rateconst_re n0 false (String c s)) as [[len cs']|] eqn:Hm.
    + intros [= <-].
      destruct (match_at_rateconst_inv _ _ _ _ _ Hm) as [H1 [H2 _]]. auto.
    + exact IH.
Qed.

Lemma search_from_hit (r : Re.regex) (n0 : nat) (s : string) (len : nat)
  (cs : Re.captures) :
  Re.match_at r n0 false s = Some (len, cs) -> Re.search_from r n0 s = Some cs.
Proof. intros H. destruct s; cbn [Re.search_from]; now rewrite H. Qed.

Lemma search_from_app (r : Re.regex) (n0 : nat) (pre s : string) :
  Re.search_from r n0 s <> None -> Re.search_from r n0 (pre ++ s) <> None.
Proof.
  intros H. induction pre as [|c pre IH]; [exact H|].
  cbn [String.append Re.search_from].
  destruct (Re.match_at r n0 false (String c (pre ++ s))) as [[l cs]|];
    [discriminate | exact IH].
Qed.

Lemma run_rep_direction {R : Type} (n0 : nat) (direction : string)
  (G : string -> string) (F : string -> Re.captures -> option R) (x : R) :
  direction = "fwd" \/ direction = "rev" ->
  F EmptyString [(2, direction); (1, G ("_" ++ direction)%string)] = Some x ->
  Re.run_rep (fun c => negb (Str.is_space c)) ("_" ++ direction)
    (fun s2 => Re.run direction_re n0 s2 [(1, G s2)] F)
  = Some x.
Proof.
  intros [-> | ->] H.
  - change (match F EmptyString [(2, "fwd"); (1, G "_fwd")] with
            | Some y => Some y
            | None => None
            end = Some x).
    change (F EmptyString [(2, "fwd"); (1, G "_fwd")] = Some x) in H.
    now rewrite H.
  - exact H.
Qed.

(** The label pattern matches a well-formed label from its first
    character, with the reaction part and the direction as groups. *)
Lemma match_at_rateconst_label (n0 : nat) (rid direction : string) :
  no_space rid = true ->
  direction = "fwd" \/ direction = "rev" ->
  Re.match_at rateconst_re n0 false (rateconst_label rid direction)
  = Some (String.length (rateconst_label rid direction),
          [(2, direction); (1, rid)]).
Proof.
  intros Hrid Hd. unfold rateconst_label.
  rewrite (match_at_rateconst n0 false (rid ++ "_" ++ direction)).
  apply run_rep_app; [exact Hrid|].
  apply (run_rep_direction n0 direction
           (fun s2 =>
              Str.take
                (String.length (rid ++ "_" ++ direction) - String.length s2)
                (rid ++ "_" ++ direction)) _ _ Hd).
  assert (Hg : Str.take
                 (String.length (rid ++ "_" ++ direction)
                  - String.length ("_" ++ direction)) (rid ++ "_" ++ direction)
               = rid).
  { rewrite length_append.
    replace (String.length rid + String.length ("_" ++ direction)
             - String.length ("_" ++ direction)) with (String.length rid) by lia.
    apply take_append. }
  rewrite Hg.
  change (String.length EmptyString) with 0. rewrite Nat.sub_0_r. reflexivity.
Qed.

Lemma labelled_search (label : string) :
  labelled label <-> Re.search rateconst_re label <> None.
Proof.
  unfold Re.search. split.
  - intros [pre [rid [d [Hrid [Hd ->]]]]]. apply search_from_app.
    now rewrite (search_from_hit _ _ _ _ _ (match_at_rateconst_label _ rid d Hrid Hd)).
  - destruct (Re.search_from _ _ _) as [cs|] eqn:H; [intros _ | congruence].
    destruct (search_from_rateconst_inv _ _ _ H) as [pre E].
    destruct (search_from_rateconst_groups _ _ _ H) as [Hd Hrid].
    exists pre, (Re.group cs 1), (Re.group cs 2). auto.
Qed.

(** X12: a label made of the characters k and underscore, a reaction
    part without white space, an underscore and fwd or rev is read back by
    the label pattern: the search returns the reaction part as group 1
    and the direction as group 2, and the step files the value under the
    name built from them. *)
Theorem rateconst_label_round_trip (rid direction : string) :
  no_space rid = true ->
  direction = "fwd" \/ direction = "rev" ->
  Re.search rateconst_re (rateconst_label rid direction)
  = Some [(2, direction); (1, rid)]
  /\ (forall em st value name to_unify x,
        name_rateconst em (rs_to_unify st) (direction_key direction) rid
        = Ret (name, to_unify) ->
        parse_value value = Ret x ->
        rateconst_step em st (rateconst_label rid direction, value)
        = Ret (record_rateconst st (direction_key direction)
                 (rateconst_label rid direction) name to_unify x)).
Proof.
  intros Hrid Hd.
  assert (Hs : Re.search rateconst_re (rateconst_label rid direction)
               = Some [(2, direction); (1, rid)]).
  { unfold Re.search.
    exact (search_from_hit _ _ _ _ _ (match_at_rateconst_label _ rid direction Hrid Hd)). }
  split; [exact Hs|].
  intros em st value name to_unify x Hn Hv. unfold rateconst_step. rewrite Hs.
  cbn [Re.group Nat.eqb].
  assert (Hk : Dict.item [("fwd", "kf"); ("rev", "kr")] direction
               = Ret (direction_key direction)).
  { destruct Hd as [-> | ->]; reflexivity. }
  rewrite Hk. cbn [bind]. rewrite Hn. cbn [bind]. rewrite Hv. reflexivity.
Qed.

Lemma rateconst_label_round_trip_witness :
  Re.search rateconst_re "k_PFK 1_fwd" = None
  /\ Re.search rateconst_re (rateconst_label "PFK_1" "fwd")
     = Some [(2, "fwd"); (1, "PFK_1")].
Proof.
  split; [reflexivity|].
  exact (proj1 (rateconst_label_round_trip "PFK_1" "fwd" eq_refl (or_introl eq_refl))).
Defined.

Lemma reaction_of_rid_outcome (em : EnzymeModule) (rid : string) :
  (exists rxn, reaction_of_rid em rid = Ret rxn
               /\ has_reaction (em_reactions em) (r_id rxn) = true)
  \/ (exists k, reaction_of_rid em rid = Raise (KeyError k)).
Proof.
  unfold reaction_of_rid, Dict.item.
  destruct (Dict.get (em_id_map em) "reactions") as [rs|];
    [|right; eexists; reflexivity].
  cbn [bind]. destruct (Dict.get rs rid) as [new_id|];
    [|right; eexists; reflexivity].
  cbn [bind]. induction (em_reactions em) as [|r l IH]; cbn [get_by_id].
  - right; eexists; reflexivity.
  - unfold has_reaction. cbn [existsb].
    destruct (String.eqb_spec (r_id r) new_id) as [E|E].
    + left. exists r. split; [reflexivity|]. now rewrite String.eqb_refl.
    + destruct IH as [[rxn [H1 H2]] | H]; [left | right; exact H].
      exists rxn. split; [exact H1|]. unfold has_reaction in H2. rewrite H2.
      apply orb_true_r.
Qed.

(** The name given to a constant: the key, an underscore and either the
    identifier of a reaction of the module or the reaction part itself. *)
Lemma name_rateconst_outcome (em : EnzymeModule) (tu : dict (list Reaction))
  (key rid : string) :
  exists base tu',
    name_rateconst em tu key rid = Ret ((key ++ "_" ++ base)%string, tu')
    /\ (base = rid \/ has_reaction (em_reactions em) base = true).
Proof.
  unfold name_rateconst.
  destruct (reaction_of_rid_outcome em rid) as [[rxn [-> H]] | [k ->]]; eauto.
Qed.

Lemma parse_value_outcome (value : string) :
  returns (parse_value value) \/ parse_value value = Raise ValueError.
Proof.
  unfold parse_value, PyFloat.of_string.
  destruct (PyFloat.parse value); [left; eexists; reflexivity|].
  destruct (PyFloat.parse _); [left; eexists; reflexivity | now right].
Qed.

(** A pair that the step accepts: what the search found and the state
    the step leaves. *)
Lemma rateconst_step_inv
  (em : EnzymeModule) (st st' : RateState) (label value : string) :
  rateconst_step em st (label, value) = Ret st' ->
  exists cs base to_unify x,
    Re.search rateconst_re label = Some cs
    /\ (base = Re.group cs 1 \/ has_reaction (em_reactions em) base = true)
    /\ st' = record_rateconst st (direction_key (Re.group cs 2)) label
               (direction_key (Re.group cs 2) ++ "_" ++ base) to_unify x.
Proof.
  unfold rateconst_step.
  destruct (Re.search rateconst_re label) as [cs|] eqn:Hs; [|discriminate].
  unfold Re.search in Hs.
  destruct (search_from_rateconst_groups _ _ _ Hs) as [Hd _].
  assert (Hk : Dict.item [("fwd", "kf"); ("rev", "kr")] (Re.group cs 2)
               = Ret (direction_key (Re.group cs 2))).
  { destruct Hd as [-> | ->]; reflexivity. }
  rewrite Hk. cbn [bind].
  destruct (name_rateconst_outcome em (rs_to_unify st)
              (direction_key (Re.group cs 2)) (Re.group cs 1))
    as [base [tu' [-> Hbase]]].
  cbn [bind].
  destruct (parse_value value) as [x| |]; try discriminate. cbn [bind].
  intros [= <-]. exists cs, base, tu', x. auto.
Qed.

(** X13: a pair that the step accepts bears a well-formed label, and the
    direction decides where it goes: fwd records the label in the kf map
    and leaves the kr map alone, rev the other way round.  The name
    recorded is the key, an underscore and either the reaction part of
    the label or the identifier of a reaction of the module. *)
Theorem rateconst_step_files_by_direction
  (em : EnzymeModule) (st st' : RateState) (label value : string) :
  rateconst_step em st (label, value) = Ret st' ->
  exists pre rid direction base,
    label = (pre ++ rateconst_label rid direction)%string
    /\ no_space rid = true
    /\ (base = rid \/ has_reaction (em_reactions em) base = true)
    /\ ((direction = "fwd"
         /\ rs_kf st' = Dict.set (rs_kf st) label ("kf_" ++ base)%string
         /\ rs_kr st' = rs_kr st)
        \/ (direction = "rev"
            /\ rs_kr st' = Dict.set (rs_kr st) label ("kr_" ++ base)%string
            /\ rs_kf st' = rs_kf st)).
Proof.
  intros H.
  destruct (rateconst_step_inv _ _ _ _ _ H) as [cs [base [tu [x [Hs [Hbase ->]]]]]].
  unfold Re.search in Hs.
  destruct (search_from_rateconst_inv _ _ _ Hs) as [pre E].
  destruct (search_from_rateconst_groups _ _ _ Hs) as [Hd Hrid].
  exists pre, (Re.group cs 1), (Re.group cs 2), base.
  split; [exact E|]. split; [exact Hrid|]. split; [exact Hbase|].
  destruct Hd as [Hd | Hd]; rewrite Hd; [left | right];
    (split; [reflexivity|]); split; reflexivity.
Qed.

Lemma rateconst_step_files_by_direction_witness :
  exists st',
    rateconst_step r1_module
      {| rs_kf := []; rs_kr := []; rs_to_unify := []; rs_values := [] |}
      ("k_R1_rev", "2.5") = Ret st'
    /\ rs_kr st' = [("k_R1_rev", "kr_R1")] /\ rs_kf st' = [].
Proof.
  eexists. split; [vm_compute; reflexivity|].
  destruct (rateconst_step_files_by_direction r1_module
              {| rs_kf := []; rs_kr := []; rs_to_unify := []; rs_values := [] |}
              _ "k_R1_rev" "2.5" eq_refl) as [_ _].
  split; reflexivity.
Defined.

(** X14: the outcomes of a label and value pair.  A label that does not
    end with a well-formed label raises an AttributeError (the search
    finds nothing and the groups of nothing are asked for); otherwise a
    value that is no number raises a ValueError; otherwise the step
    returns.  The lookup of the direction never raises. *)
Theorem rateconst_step_outcomes
  (em : EnzymeModule) (st : RateState) (label value : string) :
  (~ labelled label -> rateconst_step em st (label, value) = Raise AttributeError)
  /\ (labelled label -> parse_value value = Raise ValueError ->
      rateconst_step em st (label, value) = Raise ValueError)
  /\ (labelled label -> returns (parse_value value) ->
      returns (rateconst_step em st (label, value)))
  /\ (forall k, rateconst_step em st (label, value) <> Raise (KeyError k)).
Proof.
  assert (Hcases : (~ labelled label
                    /\ rateconst_step em st (label, value) = Raise AttributeError)
                   \/ (labelled label
                       /\ ((parse_value value = Raise ValueError
                            /\ rateconst_step em st (label, value) = Raise ValueError)
                           \/ (returns (parse_value value)
                               /\ returns (rateconst_step em st (label, value)))))).
  { unfold rateconst_step.
    pose proof (labelled_search label) as Hl.
    destruct (Re.search rateconst_re label) as [cs|] eqn:Hs.
    - right. split; [apply Hl; discriminate|].
      unfold Re.search in Hs.
      destruct (search_from_rateconst_groups _ _ _ Hs) as [Hd _].
      assert (Hk : Dict.item [("fwd", "kf"); ("rev", "kr")] (Re.group cs 2)
                   = Ret (direction_key (Re.group cs 2))).
      { destruct Hd as [-> | ->]; reflexivity. }
      rewrite Hk. cbn [bind].
      destruct (name_rateconst_outcome em (rs_to_unify st)
                  (direction_key (Re.group cs 2)) (Re.group cs 1))
        as [base [tu' [-> _]]].
      cbn [bind].
      destruct (parse_value_outcome value) as [[x Hx] | Hx]; rewrite Hx; cbn [bind].
      + right. split; eexists; reflexivity.
      + left. split; reflexivity.
    - left. split; [|reflexivity]. intros H. apply Hl in H. congruence. }
  split; [|split; [|split]].
  - intros Hn. destruct Hcases as [[_ H] | [Hl _]]; [exact H | contradiction].
  - intros Hl Hv. destruct Hcases as [[Hn _] | [_ [[_ H] | [[x Hx] _]]]];
      [contradiction | exact H | congruence].
  - intros Hl Hv. destruct Hcases as [[Hn _] | [_ [[Hx _] | [_ H]]]];
      [contradiction | | exact H].
    destruct Hv as [x Hv]. congruence.
  - intros k. destruct Hcases as [[_ H] | [_ [[_ H] | [_ [x H]]]]];
      rewrite H; discriminate.
Qed.

(* ===================================================================== *)
(** * Labels without a value *)
(* ===================================================================== *)

Lemma zip_surplus {A B : Type} (l extra : list A) (l' : list B) :
  List.length l = List.length l' -> zip (l ++ extra) l' = zip l l'.
Proof.
  revert l'. induction l as [|a l IH]; intros [|b l'] H; try discriminate.
  - destruct extra; reflexivity.
  - cbn [app zip]. f_equal. apply IH. now injection H.
Qed.

(** X15: the labels are paired with the values of the selected cluster
    line by position, and the pairing stops with the shorter list: the
    lines of the label file beyond the number of values are never looked
    at, so that no surplus label, well formed or not, changes the
    outcome. *)
Theorem surplus_labels_are_ignored {M : MassLib} (em : EnzymeModule)
  (kcluster : Z) (labels extra clusters : list string) (values_txt : string) :
  select_cluster clusters kcluster = Ret values_txt ->
  List.length labels = List.length (Str.split ", " (strip_braces values_txt)) ->
  rateconsts_from_txt em kcluster (labels ++ extra) clusters
  = rateconsts_from_txt em kcluster labels clusters.
Proof.
  intros Hsel Hlen. unfold rateconsts_from_txt. rewrite Hsel. cbn [bind].
  rewrite map_app, zip_surplus; [reflexivity|]. now rewrite length_map.
Qed.

Lemma surplus_labels_are_ignored_witness :
  rateconsts_from_txt (M := toy_mass) r1_module 1
    (one_label_file ++ [line "not a label"]) one_value_cluster
  = rateconsts_from_txt (M := toy_mass) r1_module 1 one_label_file one_value_cluster.
Proof.
  exact (surplus_labels_are_ignored (M := toy_mass) r1_module 1 one_label_file
           [line "not a label"] one_value_cluster (line "{2.5}") eq_refl eq_refl).
Defined.

(* ===================================================================== *)
(** * The clamp at its edges *)
(* ===================================================================== *)

Lemma compare_cont_refl (m : positive) : Pos.compare_cont Eq m m = Eq.
Proof. exact (Pos.compare_refl m). Qed.

Lemma SFleb_abs_refl (x : PyFloat.float) :
  x <> S754_nan -> PyFloat.leb (PyFloat.abs x) (PyFloat.abs x) = true.
Proof.
  intros Hx. unfold PyFloat.leb, PyFloat.abs, SFleb.
  destruct x as [s|s| |s m e]; cbn [SFabs SFcompare]; try reflexivity.
  - congruence.
  - now rewrite Z.compare_refl, compare_cont_refl.
Qed.

Lemma SFleb_nan_l (y : PyFloat.float) : PyFloat.leb S754_nan y = false.
Proof. reflexivity. Qed.

Lemma SFleb_nan_r (x : PyFloat.float) : PyFloat.leb x S754_nan = false.
Proof. unfold PyFloat.leb, SFleb. destruct x; reflexivity. Qed.

Lemma SFabs_opp (x : PyFloat.float) : PyFloat.abs (SFopp x) = PyFloat.abs x.
Proof. destruct x; reflexivity. Qed.

(** X16: the clamp at its edges.  A value whose magnitude equals the
    tolerance is stored as the integer 0 (the comparison is not strict);
    a value that is not a number is stored as it is, never as 0; with a
    tolerance that is not a number nothing is ever clamped, so that a
    value that is not negative is stored as it is and a negative value is
    refused by the setter with a ValueError; and a value and its opposite
    are clamped alike. *)
Theorem steady_state_concentration_at_the_tolerance
  {L : SympyLib} (em : EnzymeModule) (eq_file : string) (specie : Specie)
  (concentrations : dict PyFloat.float) (zero_tol : PyFloat.float)
  (ss_eq : string) (e : expr) (ic : PyFloat.float) :
  fix_equation_variables em eq_file = Ret ss_eq ->
  sympify ss_eq = Ret e ->
  evaluate e concentrations
    [((em_id em ++ "_Total")%string, em_enzyme_concentration_total em)] = Ret ic ->
  (ic <> S754_nan -> zero_tol = PyFloat.abs ic ->
   exists specie',
     steady_state_concentrations_from_txt em eq_file specie concentrations zero_tol
     = Ret specie'
     /\ sp_ic specie' = Some (PyInt 0))
  /\ (ic = S754_nan ->
      exists specie',
        steady_state_concentrations_from_txt em eq_file specie concentrations zero_tol
        = Ret specie'
        /\ sp_ic specie' = Some (PyFloat S754_nan))
  /\ (zero_tol = S754_nan ->
      (PyFloat.ltb ic (S754_zero false) = false ->
       exists specie',
         steady_state_concentrations_from_txt em eq_file specie concentrations
           zero_tol = Ret specie'
         /\ sp_ic specie' = Some (PyFloat ic))
      /\ (PyFloat.ltb ic (S754_zero false) = true ->
          steady_state_concentrations_from_txt em eq_file specie concentrations
            zero_tol = Raise ValueError))
  /\ (clamp zero_tol (SFopp ic) = PyInt 0 <-> clamp zero_tol ic = PyInt 0).
Proof.
  intros Hfix Hsym Hev. unfold steady_state_concentrations_from_txt.
  rewrite Hfix. cbn [bind]. rewrite Hsym. cbn [bind]. rewrite Hev. cbn [bind].
  unfold set_ic, clamp.
  split; [|split; [|split]].
  - intros Hn ->. rewrite (SFleb_abs_refl _ Hn). cbn [is_negative Z.ltb Z.compare].
    eexists. split; reflexivity.
  - intros ->. eexists. split; reflexivity.
  - intros ->. rewrite SFleb_nan_r. cbn [is_negative]. split; intros Hs; rewrite Hs.
    + eexists. split; reflexivity.
    + reflexivity.
  - rewrite SFabs_opp.
    destruct (PyFloat.leb (PyFloat.abs ic) zero_tol); split; intros H;
      try reflexivity; discriminate.
Qed.

Lemma steady_state_concentration_at_the_tolerance_witness :
  exists specie' tol,
    PyFloat.of_string "1e-15" = Ret tol
    /\ steady_state_concentrations_from_txt (L := toy_sympy) pfk_with_total
         "-1e-15" free_enzyme [] tol = Ret specie'
    /\ sp_ic specie' = Some (PyInt 0).
Proof.
  destruct (proj1 (steady_state_concentration_at_the_tolerance (L := toy_sympy)
              pfk_with_total "-1e-15" free_enzyme []
              (S754_finite false 5070602400912918 (-102))
              "-1e-15" (Const (S754_finite true 5070602400912918 (-102)))
              (S754_finite true 5070602400912918 (-102))
              eq_refl eq_refl eq_refl) ltac:(discriminate) eq_refl)
    as [specie' [Hret Hic]].
  exists specie', (S754_finite false 5070602400912918 (-102)).
  split; [reflexivity|]. split; [exact Hret | exact Hic].
Defined.

(* ===================================================================== *)
(** * A species named twice in a formula *)
(* ===================================================================== *)

Lemma fill_scan_spent (r : Re.regex) (n0 : nat) (new : string) (k : nat) (s : string) :
  Re.fill new (Re.scan r n0 (Some 0) k s) = Str.drop k s.
Proof.
  revert k. induction s as [|c s IH]; intros k.
  - destruct k; reflexivity.
  - destruct k as [|k]; cbn [Re.scan Re.exhausted Str.drop Re.fill].
    + now rewrite (IH 0).
    + apply IH.
Qed.

(** With a count of one, substituting for a literal pattern rewrites the
    first occurrence and nothing else. *)
Lemma sub_fn_lit_once (p new s : string) (n0 : nat) :
  p <> EmptyString ->
  Re.fill new (Re.scan (Re.lit p) n0 (Some 1) 0 s) = replace_first p new s.
Proof.
  intros Hp. induction s as [|c s IH].
  - cbn [Re.scan Re.exhausted replace_first]. rewrite match_at_lit.
    destruct p; [congruence | reflexivity].
  - cbn [Re.scan Re.exhausted replace_first]. rewrite match_at_lit.
    destruct (Str.starts_with p (String c s)) eqn:H.
    + destruct p as [|a p]; [congruence|].
      cbn [andb String.length Re.spend Nat.pred Re.fill Str.drop].
      now rewrite fill_scan_spent.
    + cbn [Re.fill]. now rewrite IH.
Qed.

Lemma replace_first_hit (p new rest : string) :
  p <> EmptyString -> replace_first p new (p ++ rest) = (new ++ rest)%string.
Proof.
  intros Hp. destruct p as [|a p]; [congruence|].
  cbn [String.append replace_first].
  change (String a (p ++ rest)) with (String a p ++ rest)%string.
  now rewrite starts_with_append, drop_append.
Qed.

Lemma replace_first_skip (c : ascii) (p new s : string) :
  Str.starts_with p (String c s) = false ->
  replace_first p new (String c s) = String c (replace_first p new s).
Proof. intros H. cbn [replace_first]. now rewrite H. Qed.

Lemma plain_species_no_backslash (s : string) :
  plain_species s = true -> Str.contains "\" s = false.
Proof.
  induction s as [|c s IH]; [reflexivity|]. unfold plain_species in *.
  cbn [all_chars]. intros H. apply andb_true_iff in H as [Hc Hs].
  cbn [Str.contains Str.starts_with]. rewrite (IH Hs), orb_false_r, andb_true_r.
  apply orb_true_iff in Hc as [Hc|Hc].
  - apply Ascii.eqb_eq in Hc. now subst c.
  - apply negb_true_iff in Hc. rewrite Ascii.eqb_sym.
    now apply not_meta_not_backslash.
Qed.

(** One token corrected: the first occurrence of the token in the
    reaction string is rewritten, wherever it stands. *)
Lemma fix_specie_first (id_map : dict (dict string)) (species : dict string)
  (reaction_str specie_id new_id : string) :
  Dict.get id_map "species" = Some species ->
  Dict.get species specie_id = Some new_id ->
  plain_species specie_id = true -> specie_id <> EmptyString ->
  Str.contains "\" new_id = false ->
  fix_specie id_map reaction_str specie_id
  = Ret (replace_first specie_id new_id reaction_str).
Proof.
  intros Hs Ht Hp Hne Hn. unfold fix_specie, Dict.item. rewrite Hs. cbn [bind].
  rewrite Ht. cbn [bind]. unfold Re.compile.
  rewrite (literal_text_escape_brackets _ Hp). cbn [bind].
  unfold Re.sub, Re.template. rewrite Hn. cbn [bind].
  unfold Re.sub_fn, Re.pieces. now rewrite sub_fn_lit_once.
Qed.

(** X17: a species whose identifier starts with a digit and that a
    formula names twice is corrected once, and by both passes at the same
    place: the second pass finds the raw identifier inside the identifier
    the first pass has just written, puts a second underscore there and
    leaves the second occurrence of the species as it was. *)
Theorem repeated_species_is_corrected_once
  (id_map : dict (dict string)) (species : dict string) (orig_id rest : string) :
  Dict.get id_map "species" = Some species ->
  Dict.get species orig_id = Some (prefix_number_id orig_id) ->
  starts_with_digit orig_id = true ->
  plain_species orig_id = true ->
  for_each (fix_specie id_map) [orig_id; orig_id] (orig_id ++ rest)%string
  = Ret ("__" ++ orig_id ++ rest)%string.
Proof.
  intros Hs Ht Hd Hp.
  rewrite prefix_number_id_eq, Hd in Ht.
  assert (Hne : orig_id <> EmptyString) by (intros ->; discriminate).
  assert (Hn : Str.contains "\" ("_" ++ orig_id) = false).
  { cbn [String.append Str.contains Str.starts_with].
    now rewrite (plain_species_no_backslash _ Hp). }
  cbn [for_each].
  rewrite (fix_specie_first id_map species _ orig_id _ Hs Ht Hp Hne Hn).
  cbn [bind]. rewrite (replace_first_hit _ _ _ Hne).
  rewrite (fix_specie_first id_map species _ orig_id _ Hs Ht Hp Hne Hn).
  cbn [bind]. f_equal.
  assert (Hskip : Str.starts_with orig_id (String "_" (orig_id ++ rest)) = false).
  { destruct orig_id as [|a t]; [congruence|]. rewrite starts_with_cons.
    destruct (Ascii.eqb_spec a "_") as [->|]; [discriminate | reflexivity]. }
  change ("_" ++ orig_id ++ rest)%string with (String "_" (orig_id ++ rest)).
  rewrite (replace_first_skip _ _ _ _ Hskip), (replace_first_hit _ _ _ Hne).
  reflexivity.
Qed.

Lemma repeated_species_is_corrected_once_witness :
  for_each (fix_specie (em_id_map dimer_module)) ["2pg_c"; "2pg_c"]
    "2pg_c + 2pg_c <=> dim_c"
  = Ret "__2pg_c + 2pg_c <=> dim_c"
  /\ exists em',
       reaction_step dimer_module "R2: 2pg_c + 2pg_c <=> dim_c" = Done em'
       /\ em_reactions em'
          = [{| r_id := "R2";
                r_participants :=
                  [("__2pg_c", (-1)%Z); ("2pg_c", (-1)%Z); ("dim_c", 1%Z)] |}]
       /\ map sp_id (em_metabolites em') = ["_2pg_c"; "dim_c"; "__2pg_c"; "2pg_c"].
Proof.
  split.
  - exact (repeated_species_is_corrected_once (em_id_map dimer_module)
             [("2pg_c", "_2pg_c"); ("dim_c", "dim_c")] "2pg_c"
             " + 2pg_c <=> dim_c" eq_refl eq_refl eq_refl eq_refl).
  - eexists. split; [|split]; vm_compute; reflexivity.
Defined.

(* ===================================================================== *)
(** * The compartment of a species *)
(* ===================================================================== *)

Lemma rstrip_by_all (p : ascii -> bool) (s : string) :
  all_chars p s = true -> Str.rstrip_by p s = EmptyString.
Proof.
  induction s as [|c s IH]; [reflexivity|]. cbn [all_chars Str.rstrip_by].
  intros H. apply andb_true_iff in H as [Hc Hs]. now rewrite (IH Hs), Hc.
Qed.

Lemma rstrip_by_keeps (p : ascii -> bool) (c : ascii) (s : string) :
  all_chars p (String c s) = false ->
  Str.rstrip_by p (String c s) = String c (Str.rstrip_by p s).
Proof.
  cbn [all_chars Str.rstrip_by]. intros H.
  destruct (Str.rstrip_by p s) as [|x r] eqn:E; [|reflexivity].
  destruct (p c) eqn:Hc; [|reflexivity]. cbn [andb] in H.
  exfalso. clear Hc c. induction s as [|d s IH]; [discriminate|].
  cbn [all_chars Str.rstrip_by] in *.
  destruct (Str.rstrip_by p s) as [|y r]; [|discriminate].
  destruct (p d); [|discriminate]. cbn [andb] in H. now apply IH.
Qed.

(** In a text without an opening bracket followed by one bracketed
    letter, the compartment pattern is found once, and the white space
    just before the bracket is part of what it matches. *)
Lemma fill_bracketed_tail (n0 : nat) (new base : string) (a : ascii) :
  no_bracket base = true -> Str.is_alpha a = true ->
  Re.fill new (Re.scan compartment_finder_re n0 None 0 (base ++ bracketed a))
  = (Str.rstrip_by Str.is_space base ++ new)%string.
Proof.
  intros Hb Ha. induction base as [|c base IH].
  - unfold bracketed. cbn [String.append Re.scan Re.exhausted].
    rewrite match_at_compartment.
    pose proof (bracket_at_lstrip_tail EmptyString a eq_refl Ha) as Hm.
    unfold bracketed in Hm. cbn [String.append all_chars] in Hm. rewrite Hm.
    cbn [String.length Nat.sub Re.spend Re.scan Re.exhausted Re.fill
         Str.rstrip_by String.append].
    rewrite match_at_compartment. cbn [Str.lstrip_by bracket_at Re.fill].
    now rewrite append_nil_r.
  - assert (Hb' : no_bracket base = true).
    { unfold no_bracket in *. cbn [all_chars] in Hb.
      now apply andb_true_iff in Hb as [_ Hb]. }
    cbn [String.append Re.scan Re.exhausted].
    rewrite match_at_compartment.
    pose proof (bracket_at_lstrip_tail (String c base) a Hb Ha) as Hm.
    cbn [String.append] in Hm. rewrite Hm.
    destruct (all_chars Str.is_space (String c base)) eqn:Hall.
    + cbn [String.length Nat.sub Re.spend Re.fill].
      try rewrite Nat.sub_0_r.
      rewrite <- (append_nil_r (base ++ bracketed a)) at 2.
      rewrite scan_skip_all.
      cbn [Re.scan Re.exhausted]. rewrite match_at_compartment.
      cbn [Str.lstrip_by bracket_at Re.fill].
      rewrite (rstrip_by_all _ _ Hall). cbn [String.append].
      now rewrite append_nil_r.
    + cbn [Re.fill]. rewrite (IH Hb'), (rstrip_by_keeps _ _ _ Hall). reflexivity.
Qed.

(** X18: a raw identifier without an opening bracket followed by one
    bracketed letter other than the isomer letters D and L gets that
    letter as its compartment, and the bracket becomes an underscore and
    the letter; white space just before the bracket disappears, and an
    underscore is put in front when the result starts with a digit. *)
Theorem compartment_letter_is_spliced (base : string) (a : ascii) :
  no_bracket base = true ->
  Str.is_alpha a = true ->
  a <> "D"%char -> a <> "L"%char ->
  normalize_id (base ++ bracketed a)
  = Ret (prefix_number_id (Str.rstrip_by Str.is_space base ++ "_" ++ letter a),
         CStr (letter a)).
Proof.
  intros Hb Ha HD HL. rewrite normalize_id_spec. cbn zeta.
  unfold remaining_compartments. rewrite (findall1_bracketed_tail _ _ Hb Ha).
  assert (Hi : isomer_of [letter a] = None).
  { unfold isomer_of, str_in, letter. cbn [existsb String.eqb].
    destruct (Ascii.eqb_spec "D" a) as [<-|]; [congruence|].
    destruct (Ascii.eqb_spec "L" a) as [<-|]; [congruence | reflexivity]. }
  rewrite Hi. unfold Re.sub_fn, Re.pieces.
  now rewrite (fill_bracketed_tail _ _ _ _ Hb Ha).
Qed.

Lemma compartment_letter_is_spliced_witness :
  normalize_id "2pg [c]" = Ret ("_2pg_c", CStr "c").
Proof.
  exact (compartment_letter_is_spliced "2pg " "c" eq_refl eq_refl
           ltac:(discriminate) ltac:(discriminate)).
Defined.

(* ===================================================================== *)
(** * Percentages as text *)
(* ===================================================================== *)

Lemma digits_string_of_uint (d : Decimal.uint) :
  all_chars Str.is_digit (NilEmpty.string_of_uint d) = true.
Proof. induction d; cbn; try reflexivity; exact IHd. Qed.

Lemma is_integer_text_str_int (n : Z) : is_integer_text (str_int n) = true.
Proof.
  unfold str_int. destruct n as [|p|p]; cbn [Z.to_int NilEmpty.string_of_int].
  - reflexivity.
  - unfold is_integer_text.
    pose proof (digits_string_of_uint (Pos.to_uint p)) as H.
    destruct (NilEmpty.string_of_uint (Pos.to_uint p)) as [|c s]; [reflexivity|].
    destruct (Ascii.eqb_spec c "-") as [->|Hc]; [discriminate|].
    destruct c as [[] [] [] [] [] [] [] []]; try exact H; congruence.
  - unfold is_integer_text. apply digits_string_of_uint.
Qed.

Lemma digits_no_dot (s : string) :
  all_chars Str.is_digit s = true -> Str.contains "." s = false.
Proof.
  induction s as [|c s IH]; [reflexivity|]. cbn [all_chars].
  intros H. apply andb_true_iff in H as [Hc Hs].
  cbn [Str.contains Str.starts_with]. rewrite (IH Hs), orb_false_r, andb_true_r.
  destruct (Ascii.eqb_spec "." c) as [<-|]; [discriminate | reflexivity].
Qed.

Lemma integer_text_no_dot (s : string) :
  is_integer_text s = true -> Str.contains "." s = false.
Proof.
  unfold is_integer_text. intros H.
  destruct s as [|c s]; [reflexivity|].
  destruct (Ascii.eqb_spec c "-") as [->|Hc].
  - cbn [Str.contains Str.starts_with Ascii.eqb]. cbn.
    exact (digits_no_dot _ H).
  - apply digits_no_dot.
    destruct c as [[] [] [] [] [] [] [] []]; try exact H; congruence.
Qed.

Lemma str_limit_above_binary64 : (2 ^ 1024 < 10 ^ max_str_digits)%Z.
Proof.
  unfold max_str_digits.
  apply (Z.lt_le_trans _ (10 ^ 1024)%Z).
  - apply Z.pow_lt_mono_l; lia.
  - apply Z.pow_le_mono_r; lia.
Qed.

Lemma py_str_small (n : Z) :
  (Z.abs n < 2 ^ 1024)%Z -> py_str n = inl (str_int n).
Proof.
  intros H. unfold py_str.
  pose proof str_limit_above_binary64 as Hl.
  destruct (Z.ltb_spec (Z.abs n) (10 ^ max_str_digits)%Z); [reflexivity | lia].
Qed.

Lemma nearest_even_bounds (m : Z) (k : positive) :
  (0 <= m)%Z -> (0 <= nearest_even m k <= m + 1)%Z.
Proof.
  intros Hm. unfold nearest_even.
  assert (Hd : (0 < Z.pow_pos 2 k)%Z).
  { rewrite Z.pow_pos_fold. apply Z.pow_pos_nonneg; lia. }
  assert (Hq : (0 <= m / Z.pow_pos 2 k <= m)%Z).
  { split; [apply Z.div_pos; lia|]. apply Z.div_le_upper_bound; [lia|]. nia. }
  destruct (2 * (m mod Z.pow_pos 2 k) ?= Z.pow_pos 2 k)%Z; try lia.
  destruct (Z.even _); lia.
Qed.

Lemma finite_int_bound (s : bool) (m : positive) (e n : Z) :
  (Z.pos m < 2 ^ 53)%Z -> (e <= 971)%Z ->
  n = match e with
      | 0%Z => Z.pos m
      | Z.pos k => (Z.pos m * Z.pow_pos 2 k)%Z
      | Z.neg k => nearest_even (Z.pos m) k
      end ->
  (Z.abs (if s then (- n)%Z else n) < 2 ^ 1024)%Z.
Proof.
  intros Hm He Hn.
  assert (H53 : (2 ^ 53 + 1 <= 2 ^ 1024)%Z).
  { replace 1024%Z with (2 + 1022)%Z by reflexivity.
    rewrite Z.pow_add_r by lia.
    assert (2 ^ 53 <= 2 ^ 1022)%Z by (apply Z.pow_le_mono_r; lia).
    assert (0 < 2 ^ 53)%Z by (apply Z.pow_pos_nonneg; lia).
    replace (2 ^ 2)%Z with 4%Z by reflexivity. lia. }
  assert (Hb : (0 <= n < 2 ^ 1024)%Z).
  { subst n. destruct e as [|k|k].
    - lia.
    - rewrite Z.pow_pos_fold.
      assert (Hk : (0 < 2 ^ Z.pos k <= 2 ^ 971)%Z).
      { split; [apply Z.pow_pos_nonneg; lia | apply Z.pow_le_mono_r; lia]. }
      replace 1024%Z with (53 + 971)%Z by reflexivity.
      rewrite Z.pow_add_r by lia.
      assert (0 < 2 ^ 53)%Z by (apply Z.pow_pos_nonneg; lia).
      split; [nia|].
      apply (Z.lt_le_trans _ (2 ^ 53 * 2 ^ Z.pos k)%Z); [nia|].
      apply Z.mul_le_mono_nonneg_l; lia.
    - pose proof (nearest_even_bounds (Z.pos m) k ltac:(lia)). lia. }
  revert Hb. generalize (2 ^ 1024)%Z. intros b Hb. destruct s; lia.
Qed.

(** The integer nearest to a float in the range of binary64 is below
    2^1024. *)
Lemma int_round_binary64 (x : PyFloat.float) (n : Z) :
  binary64_range x = true -> int_round x = inl n -> (Z.abs n < 2 ^ 1024)%Z.
Proof.
  destruct x as [s|s| |s m e]; try discriminate.
  - intros _ H. injection H as <-. apply Z.pow_pos_nonneg; lia.
  - intros Hr H. apply andb_true_iff in Hr as [Hm He].
    apply Z.ltb_lt in Hm. apply Z.leb_le in He. injection H as <-.
    now apply (finite_int_bound s m e _ Hm He).
Qed.

(** X19: the text that [format_percent_str] returns is the decimal
    writing of an integer below 10^4300 in magnitude: digits
    after an optional minus sign.  It holds no dot, so the final
    [replace] never removes anything.  For an integer argument the
    integer is a hundred times the argument, and the call fails, with the
    ValueError of [str], exactly when that product has more digits than
    the limit.  For a float argument the integer is the product by 100
    rounded, and the call fails when the product is infinite
    (OverflowError) or not a number (ValueError); on a product in the
    range of binary64 it fails in no other case. *)
Theorem format_percent_str_is_an_integer (percent : pynum) :
  match format_percent_str percent with
  | inl s =>
      is_integer_text s = true
      /\ Str.contains "." s = false
      /\ exists n,
           s = str_int n
           /\ (Z.abs n < 10 ^ max_str_digits)%Z
           /\ match percent with
              | PyInt z => n = (z * 100)%Z
              | PyFloat x => int_round (PyFloat.mul x (PyFloat.of_Z 100)) = inl n
              end
  | inr e =>
      match percent with
      | PyInt z =>
          e = DigitsValueError /\ (10 ^ max_str_digits <= Z.abs (z * 100))%Z
      | PyFloat x =>
          match PyFloat.mul x (PyFloat.of_Z 100) with
          | S754_infinity _ => e = OverflowError
          | S754_nan => e = NanValueError
          | product => e = DigitsValueError /\ binary64_range product = false
          end
      end
  end.
Proof.
  assert (Hrep : forall n, Str.replace "." EmptyString (str_int n) = str_int n).
  { intros n. apply replace_absent, integer_text_no_dot, is_integer_text_str_int. }
  assert (Hstr : forall n,
             match py_str n with
             | inl s =>
                 Str.replace "." EmptyString s = str_int n
                 /\ (Z.abs n < 10 ^ max_str_digits)%Z
             | inr e => e = DigitsValueError /\ (10 ^ max_str_digits <= Z.abs n)%Z
             end).
  { intros n. unfold py_str.
    destruct (Z.ltb_spec (Z.abs n) (10 ^ max_str_digits)%Z); split;
      try assumption; try reflexivity. apply Hrep. }
  unfold format_percent_str. destruct percent as [z|x].
  - specialize (Hstr (z * 100)%Z). destruct (py_str (z * 100)) as [s|e].
    + destruct Hstr as [-> Hlt]. split; [apply is_integer_text_str_int|].
      split; [apply integer_text_no_dot, is_integer_text_str_int|].
      exists (z * 100)%Z. auto.
    + exact Hstr.
  - destruct (int_round (PyFloat.mul x (PyFloat.of_Z 100))) as [n|e] eqn:Hr.
    + specialize (Hstr n). destruct (py_str n) as [s|e] eqn:Hp.
      * destruct Hstr as [-> Hlt]. split; [apply is_integer_text_str_int|].
        split; [apply integer_text_no_dot, is_integer_text_str_int|].
        exists n. auto.
      * destruct Hstr as [-> Hge].
        assert (Hout : binary64_range (PyFloat.mul x (PyFloat.of_Z 100)) = false).
        { destruct (binary64_range (PyFloat.mul x (PyFloat.of_Z 100))) eqn:Hb;
            [|reflexivity].
          pose proof (int_round_binary64 _ _ Hb Hr).
          pose proof str_limit_above_binary64. lia. }
        destruct (PyFloat.mul x (PyFloat.of_Z 100)); try discriminate; now split.
    + destruct (PyFloat.mul x (PyFloat.of_Z 100)); cbn [int_round] in Hr;
        try discriminate; now injection Hr as <-.
Qed.

Lemma whole_percents_upto (n : nat) :
  forallb
    (fun k =>
       match int_round (PyFloat.mul (hundredths k) (PyFloat.of_Z 100)) with
       | inl z => Z.eqb z (Z.of_nat k)
       | inr _ => false
       end) (seq 0 n) = true ->
  forall k, k < n ->
  int_round (PyFloat.mul (hundredths k) (PyFloat.of_Z 100)) = inl (Z.of_nat k).
Proof.
  intros H k Hk. rewrite forallb_forall in H.
  specialize (H k). rewrite in_seq in H. specialize (H ltac:(lia)).
  destruct (int_round _) as [z|e]; [|discriminate].
  apply Z.eqb_eq in H. now subst.
Qed.

(** X20: for every whole number of percents from 0 to 1000, the float
    that the decimal literal of so many hundredths denotes is formatted
    as that number: the error of the float and of its product by 100 is
    always rounded away (0.29 times 100 is 28.999999999999996 and gives
    29). *)
Theorem format_percent_str_of_whole_percents (k : nat) :
  k <= 1000 ->
  format_percent_str (PyFloat (hundredths k)) = inl (str_int (Z.of_nat k)).
Proof.
  intros Hk. unfold format_percent_str.
  rewrite (whole_percents_upto 1001) by (vm_compute; reflexivity || lia).
  rewrite py_str_small.
  - f_equal. apply replace_absent, integer_text_no_dot, is_integer_text_str_int.
  - assert (2 ^ 10 <= 2 ^ 1024)%Z by (apply Z.pow_le_mono_r; lia).
    change (2 ^ 10)%Z with 1024%Z in *. lia.
Qed.

Lemma format_percent_str_of_whole_percents_witness :
  PyFloat.mul (hundredths 29) (PyFloat.of_Z 100)
  = S754_finite false 8162774324609023 (-48)
  /\ format_percent_str (PyFloat (hundredths 29)) = inl "29".
Proof.
  split; [reflexivity|].
  exact (format_percent_str_of_whole_percents 29 ltac:(lia)).
Defined.

(* ===================================================================== *)
(** * The identifier map after the rate-constant loader *)
(* ===================================================================== *)

Lemma id_map_install_symmetry {M : MassLib} (kf_str kr_str : string) (n i : nat)
  (rxns : list Reaction) (em : EnzymeModule) :
  em_id_map (install_symmetry kf_str kr_str n i rxns em) = em_id_map em.
Proof.
  revert i em. induction rxns as [|r rxns IH]; intros i em; [reflexivity|].
  cbn [install_symmetry]. now rewrite IH.
Qed.

Lemma id_map_unify_groups {M : MassLib} (groups : dict (list Reaction))
  (em : EnzymeModule) :
  (forall e l rid, em_id_map (unify_rate_parameters e l rid) = em_id_map e) ->
  em_id_map (fold_left unify_group groups em) = em_id_map em.
Proof.
  intros Hlib. revert em. induction groups as [|[rid l] groups IH]; intros em;
    [reflexivity|].
  cbn [fold_left]. rewrite IH. unfold unify_group.
  now rewrite id_map_install_symmetry, Hlib.
Qed.

Lemma labels_named_set (key : string) (d : dict string) (label base : string) :
  labels_named key d -> labelled label ->
  labels_named key (Dict.set d label (key ++ "_" ++ base)%string).
Proof.
  intros Hd Hl l n. rewrite dict_get_set.
  destruct (String.eqb_spec l label) as [->|]; [|apply Hd].
  intros [= <-]. split; [exact Hl|].
  change (key ++ String "_" base)%string with (key ++ "_" ++ base)%string.
  rewrite <- (append_assoc key "_" base). apply starts_with_append.
Qed.

Lemma rateconst_step_labels (em : EnzymeModule) (st st' : RateState)
  (pair : string * string) :
  rateconst_step em st pair = Ret st' ->
  labels_named "kf" (rs_kf st) -> labels_named "kr" (rs_kr st) ->
  labels_named "kf" (rs_kf st') /\ labels_named "kr" (rs_kr st').
Proof.
  destruct pair as [label value]. intros H Hf Hr.
  destruct (rateconst_step_inv _ _ _ _ _ H) as [cs [base [tu [x [Hs [_ ->]]]]]].
  assert (Hl : labelled label) by (apply labelled_search; congruence).
  unfold Re.search in Hs.
  destruct (search_from_rateconst_groups _ _ _ Hs) as [Hd _].
  destruct Hd as [Hd | Hd]; rewrite Hd; cbn [record_rateconst rs_kf rs_kr
    direction_key String.eqb Ascii.eqb Bool.eqb]; split; try assumption.
  - now apply (labels_named_set "kf").
  - now apply (labels_named_set "kr").
Qed.

Lemma rateconst_loop_labels (em : EnzymeModule) (pairs : list (string * string))
  (st0 st : RateState) :
  for_each (rateconst_step em) pairs st0 = Ret st ->
  labels_named "kf" (rs_kf st0) -> labels_named "kr" (rs_kr st0) ->
  labels_named "kf" (rs_kf st) /\ labels_named "kr" (rs_kr st).
Proof.
  revert st0. induction pairs as [|pair pairs IH]; intros st0 H Hf Hr.
  - injection H as <-. now split.
  - cbn [for_each] in H.
    destruct (rateconst_step em st0 pair) as [st1| |] eqn:Hs; try discriminate.
    cbn [bind] in H.
    destruct (rateconst_step_labels _ _ _ _ Hs Hf Hr) as [Hf1 Hr1].
    exact (IH st1 H Hf1 Hr1).
Qed.

Lemma compartments_of_list (l : list Specie) (seen : list string) :
  has_list_compartment l = true -> compartments_of l seen = Raise TypeError.
Proof.
  revert seen. induction l as [|s l IH]; intros seen H; [discriminate|].
  unfold has_list_compartment in *. cbn [existsb compartments_of] in *.
  destruct (sp_compartment s); [reflexivity | now apply IH | now apply IH].
Qed.

Lemma for_each_returns {A S : Type} (body : S -> A -> outcome S)
  (xs : list A) (acc : S) :
  (forall a x, In x xs -> returns (body a x)) -> returns (for_each body xs acc).
Proof.
  revert acc. induction xs as [|x xs IH]; intros acc H; cbn [for_each].
  - eexists; reflexivity.
  - destruct (H acc x (or_introl eq_refl)) as [a ->]. cbn [bind].
    apply IH. intros a' y Hy. apply H. now right.
Qed.

(** The corrections made for a compartment return when its identifier
    and the one of the module are free of pattern operators. *)
Lemma fix_compartment_returns (em : EnzymeModule) (equation_str cid : string) :
  plain cid = true -> plain (em_id em) = true ->
  returns (fix_compartment em equation_str cid).
Proof.
  intros Hc Hid. unfold fix_compartment.
  rewrite (compile_parenthesised _ Hc). cbn [bind].
  set (eq1 := Re.sub_fn _ _ None equation_str).
  assert (Hv : plain ("param_Volume_" ++ cid) = true)
    by (rewrite plain_app, Hc; reflexivity).
  assert (Ht : plain ("param_" ++ em_id em ++ "_total") = true)
    by (rewrite !plain_app, Hid; reflexivity).
  assert (Hs : plain (enzyme_total_symbol_str em) = true)
    by (unfold enzyme_total_symbol_str; rewrite plain_app, Hid; reflexivity).
  assert (E2 : returns (if Str.contains ("param_Volume_" ++ cid) eq1
                        then r <- Re.compile ("param_Volume_" ++ cid) ;;
                             Re.sub r "1" None eq1
                        else Ret eq1)).
  { destruct (Str.contains _ eq1); [|eexists; reflexivity].
    rewrite (compile_plain _ Hv). cbn [bind].
    rewrite sub_plain by reflexivity. eexists; reflexivity. }
  destruct E2 as [eq2 ->]. cbn [bind].
  destruct (Str.contains _ eq2); [|eexists; reflexivity].
  rewrite (compile_plain _ Ht). cbn [bind].
  rewrite (sub_plain _ _ _ Hs). eexists; reflexivity.
Qed.

(** With its three maps in place and identifiers free of pattern
    operators, the equation rewriting returns once the compartments are
    read. *)
Lemma fix_equation_variables_returns (em : EnzymeModule)
  (equation_str : string) (cids : list string) (species kf kr : dict string) :
  compartments em = Ret cids ->
  plain (em_id em) = true -> forallb plain cids = true ->
  Dict.get (em_id_map em) "species" = Some species ->
  Dict.get (em_id_map em) "kf" = Some kf ->
  Dict.get (em_id_map em) "kr" = Some kr ->
  plain_keys "species" species = true ->
  plain_keys "kf" kf = true ->
  plain_keys "kr" kr = true ->
  returns (fix_equation_variables em equation_str).
Proof.
  intros Hc Hid Hcids Hs Hf Hr Ps Pf Pr.
  unfold fix_equation_variables, fix_compartments. rewrite Hc. cbn [bind].
  destruct (for_each_returns (fix_compartment em) cids equation_str) as [eq1 ->].
  { intros a cid Hin. apply fix_compartment_returns; [|exact Hid].
    rewrite forallb_forall in Hcids. now apply Hcids. }
  cbn [bind for_each].
  rewrite (fix_dtype_replace _ _ _ _ Hs Ps). cbn [bind].
  rewrite (fix_dtype_replace _ _ _ _ Hf Pf). cbn [bind].
  rewrite (fix_dtype_replace _ _ _ _ Hr Pr). eexists; reflexivity.
Qed.

(** X21: the rate-constant loader completes the identifier map.  If the
    library's unification of rate parameters leaves the identifier map
    alone, then after the loader has returned the map holds a kf and a
    kr entry, every other entry is as before, every key of the two
    entries is a label that ends well formed and its name starts with kf
    and kr and an underscore.  From then on the equation rewriting finds
    its three maps when the species entry is there: it raises a
    TypeError when a metabolite of the module has a list for compartment
    (the compartments are read first), and it returns when the
    compartments are read and the identifiers of the module, of its
    compartments and of the three maps are free of pattern operators. *)
Theorem rateconst_loader_completes_identifier_map {M : MassLib}
  (em em' : EnzymeModule) (kcluster : Z) (labels_file clusters_file : list string) :
  (forall e l rid, em_id_map (unify_rate_parameters e l rid) = em_id_map e) ->
  rateconsts_from_txt em kcluster labels_file clusters_file = Ret em' ->
  exists kf kr,
    Dict.get (em_id_map em') "kf" = Some kf
    /\ Dict.get (em_id_map em') "kr" = Some kr
    /\ labels_named "kf" kf /\ labels_named "kr" kr
    /\ (forall k, k <> "kf" -> k <> "kr" ->
        Dict.get (em_id_map em') k = Dict.get (em_id_map em) k)
    /\ (forall equation_str,
          has_list_compartment (em_metabolites em') = true ->
          fix_equation_variables em' equation_str = Raise TypeError)
    /\ (forall species cids equation_str,
          Dict.get (em_id_map em) "species" = Some species ->
          compartments em' = Ret cids ->
          plain (em_id em') = true -> forallb plain cids = true ->
          plain_keys "species" species = true ->
          plain_keys "kf" kf = true ->
          plain_keys "kr" kr = true ->
          returns (fix_equation_variables em' equation_str)).
Proof.
  intros Hlib Hret.
  assert (Hmap : exists st,
             for_each (rateconst_step em)
               (zip (map Str.strip labels_file)
                  (match select_cluster clusters_file kcluster with
                   | Ret values_txt => Str.split ", " (strip_braces values_txt)
                   | _ => []
                   end))
               {| rs_kf := []; rs_kr := []; rs_to_unify := []; rs_values := [] |}
             = Ret st
             /\ em_id_map em'
                = Dict.set (Dict.set (em_id_map em) "kf" (rs_kf st))
                    "kr" (rs_kr st)).
  { unfold rateconsts_from_txt in Hret.
    destruct (select_cluster clusters_file kcluster) as [values_txt| |];
      try discriminate.
    cbn [bind] in Hret.
    destruct (for_each _ _ _) as [st| |] eqn:Hloop; try discriminate.
    cbn [bind] in Hret. injection Hret as <-. exists st. split; [reflexivity|].
    unfold update_parameters. cbn [em_id_map with_parameters].
    now rewrite (id_map_unify_groups _ _ Hlib). }
  destruct Hmap as [st [Hloop Hmap]]. rewrite Hmap.
  destruct (rateconst_loop_labels _ _ _ _ Hloop) as [Hkf Hkr];
    [intros l n; discriminate | intros l n; discriminate |].
  assert (Hgf : Dict.get (Dict.set (Dict.set (em_id_map em) "kf" (rs_kf st))
                            "kr" (rs_kr st)) "kf" = Some (rs_kf st)).
  { rewrite dict_get_set_other by discriminate. apply dict_get_set_same. }
  assert (Hother : forall k, k <> "kf" -> k <> "kr" ->
             Dict.get (Dict.set (Dict.set (em_id_map em) "kf" (rs_kf st))
                         "kr" (rs_kr st)) k = Dict.get (em_id_map em) k).
  { intros k H1 H2. now rewrite !dict_get_set_other. }
  exists (rs_kf st), (rs_kr st).
  split; [exact Hgf|]. split; [apply dict_get_set_same|].
  split; [exact Hkf|]. split; [exact Hkr|]. split; [exact Hother|].
  split.
  - intros equation_str Hl. unfold fix_equation_variables, fix_compartments,
      compartments. now rewrite (compartments_of_list _ _ Hl).
  - intros species cids equation_str Hs Hc Hid Hcids Ps Pf Pr.
    apply (fix_equation_variables_returns em' equation_str cids species
             (rs_kf st) (rs_kr st)); try assumption.
    + rewrite Hmap, Hother by discriminate. exact Hs.
    + now rewrite Hmap.
    + rewrite Hmap. apply dict_get_set_same.
Qed.

Lemma toy_mass_keeps_id_map (e : EnzymeModule) (l : list Reaction) (rid : string) :
  em_id_map (unify_rate_parameters (MassLib := toy_mass) e l rid) = em_id_map e.
Proof.
  cbn [unify_rate_parameters toy_mass]. revert e.
  induction l as [|r l IH]; intros e; [reflexivity|].
  cbn [fold_left]. now rewrite IH.
Qed.

(** After the loader has run on a module without metabolites the label
    of an equation is rewritten; on the module that the species and
    reaction loaders leave for species without bracket, the rewriting
    raises. *)
Lemma rateconst_loader_completes_identifier_map_witness :
  (exists em',
     rateconsts_from_txt (M := toy_mass) r1_module 1 one_label_file one_value_cluster
     = Ret em'
     /\ Dict.get (em_id_map em') "kf" = Some [("k_R1_fwd", "kf_R1")]
     /\ fix_equation_variables em' "k_R1_fwd*atp" = Ret "kf_R1*atp")
  /\ load_species_then_reactions "PFK" three_species_file r1_file
     = Ret (Done r1_loaded_module)
  /\ (exists em',
        rateconsts_from_txt (M := toy_mass) r1_loaded_module 1 one_label_file
          one_value_cluster = Ret em'
        /\ Dict.get (em_id_map em') "kf" = Some [("k_R1_fwd", "kf_R1")]
        /\ fix_equation_variables em' "k_R1_fwd*atp_c" = Raise TypeError).
Proof.
  split.
  - eexists. split; [vm_compute; reflexivity|].
    destruct (rateconst_loader_completes_identifier_map (M := toy_mass)
                r1_module _ 1 one_label_file one_value_cluster
                toy_mass_keeps_id_map eq_refl) as [kf [kr [Hf _]]].
    split; [|reflexivity]. vm_compute in Hf. vm_compute. exact eq_refl.
  - split; [vm_compute; reflexivity|].
    eexists. split; [vm_compute; reflexivity|].
    destruct (rateconst_loader_completes_identifier_map (M := toy_mass)
                r1_loaded_module _ 1 one_label_file one_value_cluster
                toy_mass_keeps_id_map eq_refl) as [kf [kr [_ [_ [_ [_ [_ [Hl _]]]]]]]].
    split; [reflexivity|]. apply Hl. reflexivity.
Defined.

(* ===================================================================== *)
(** * Identifiers without a bracket *)
(* ===================================================================== *)

Lemma no_bracket_lstrip (s : string) :
  no_bracket s = true -> no_bracket (Str.lstrip_by Str.is_space s) = true.
Proof.
  unfold no_bracket. induction s as [|c s IH]; [reflexivity|].
  cbn [all_chars Str.lstrip_by]. intros H.
  destruct (Str.is_space c); [|exact H].
  apply andb_true_iff in H as [_ H]. now apply IH.
Qed.

Lemma bracket_at_no_bracket (s : string) :
  no_bracket s = true -> bracket_at s = None.
Proof.
  unfold no_bracket. destruct s as [|c s]; [reflexivity|].
  cbn [all_chars]. intros H. apply andb_true_iff in H as [Hc _].
  apply negb_true_iff in Hc. now apply bracket_at_other.
Qed.

Lemma scan_no_bracket (n0 : nat) (s : string) :
  no_bracket s = true ->
  Re.groups1 (Re.scan compartment_finder_re n0 None 0 s) = [].
Proof.
  induction s as [|c s IH]; intros H.
  - cbn [Re.scan Re.exhausted]. rewrite match_at_compartment. reflexivity.
  - cbn [Re.scan Re.exhausted]. rewrite match_at_compartment.
    rewrite (bracket_at_no_bracket _ (no_bracket_lstrip _ H)).
    cbn [Re.groups1]. apply IH.
    unfold no_bracket in *. cbn [all_chars] in H.
    now apply andb_true_iff in H as [_ H].
Qed.

(** X22: a raw identifier without an opening bracket is left as it is
    but for the underscore put before a leading digit, and the
    compartment recorded for it is the empty list that [findall] returned
    (never None, although the source tests for None); when the
    identifier does not start with the prefix of the module's enzyme
    forms, the object made is a plain metabolite of that identifier. *)
Theorem bracket_free_identifier_is_only_prefixed (enzyme_id orig_id : string) :
  no_bracket orig_id = true ->
  normalize_id orig_id = Ret (prefix_number_id orig_id, CList [])
  /\ (is_form_id enzyme_id (prefix_number_id orig_id) = false ->
      make_specie enzyme_id orig_id
      = Ret ({| sp_id := prefix_number_id orig_id; sp_compartment := CList [];
                sp_is_form := false; sp_bound_metabolites := [];
                sp_ic := None |}, prefix_number_id orig_id)).
Proof.
  intros Hb.
  assert (Hn : normalize_id orig_id = Ret (prefix_number_id orig_id, CList [])).
  { rewrite normalize_id_spec. cbn zeta. unfold remaining_compartments.
    unfold Re.findall1, Re.pieces. rewrite (scan_no_bracket _ _ Hb). reflexivity. }
  split; [exact Hn|].
  intros Hf. unfold make_specie. rewrite Hn. cbn [bind]. now rewrite Hf.
Qed.

Lemma bracket_free_identifier_is_only_prefixed_witness :
  make_specie "PFK" "2pg_c"
  = Ret ({| sp_id := "_2pg_c"; sp_compartment := CList []; sp_is_form := false;
            sp_bound_metabolites := []; sp_ic := None |}, "_2pg_c").
Proof.
  exact (proj2 (bracket_free_identifier_is_only_prefixed "PFK" "2pg_c" eq_refl)
           eq_refl).
Defined.
